(** * evalSpice: a DC circuit evaluator (resistors, independent sources)

    A shallow embedding of [evalSpice.py]: the netlist parser ([mapping_nodes],
    [parsing]), the Modified Nodal Analysis builder ([matrix_formation]) and
    the top level ([evalSpice]), followed by the properties of the
    specification that were checked against them.

    Conventions of the embedding.
    - A Python [str] is a [string]; the text is taken to be ASCII.
    - A Python [int] is a [Z]; a Python [float] (and a cell of a NumPy float64
      array) is a primitive binary64 [float].
    - A [dict] is a [gmap]; a [set] is a [gset]; a Python list or a NumPy
      array is a [list], indexed with Python's rules (negative indices count
      from the end, anything else out of range raises IndexError).
    - A raised exception is the [Raise] case of [result]; statements run in the
      [result] monad, in the order of the source. *)

From Stdlib Require Import ZArith Lia Ascii String Floats DecimalString DecimalZ.
From stdpp Require Import base option list strings gmap fin_maps fin_sets.

Local Open Scope string_scope.
Local Open Scope list_scope.
Local Open Scope Z_scope.

(** ** Exceptions and the [result] monad *)

Inductive exception : Type :=
| FileNotFoundError (msg : string)
| ValueError (msg : string)
| TypeError (msg : string)
| ZeroDivisionError
| IndexError
| LinAlgError.

Inductive result (A : Type) : Type :=
| Ok (a : A)
| Raise (e : exception).
Arguments Ok {A} a.
Arguments Raise {A} e.

#[global] Instance result_ret : MRet result := fun A a => Ok a.
#[global] Instance result_bind : MBind result := fun A B f m =>
  match m with
  | Ok a => f a
  | Raise e => Raise e
  end.

(** [try: body except: handler] with a bare [except]. *)
Definition try_except {A} (body : result A) (handler : exception -> result A)
  : result A :=
  match body with
  | Ok a => Ok a
  | Raise e => handler e
  end.

(** A [for] loop whose body may raise: the state is threaded through the
    items in order and the first exception ends the loop. *)
Fixpoint for_each {A S} (body : S -> A -> result S) (s : S) (items : list A)
  : result S :=
  match items with
  | [] => Ok s
  | x :: rest => s' ← body s x; for_each body s' rest
  end.

(** ** Python sequences *)

(** The position a Python index denotes in a sequence of length [len]. *)
Definition norm_index (len : nat) (i : Z) : option nat :=
  if (0 <=? i) && (i <? Z.of_nat len) then Some (Z.to_nat i)
  else if (- Z.of_nat len <=? i) && (i <? 0) then Some (Z.to_nat (Z.of_nat len + i))
  else None.

(** [l[i]] *)
Definition getitem {A} (l : list A) (i : Z) : result A :=
  match norm_index (length l) i with
  | Some k => match l !! k with
              | Some x => Ok x
              | None => Raise IndexError
              end
  | None => Raise IndexError
  end.

(** ** Python strings *)

(** [str.isspace] on an ASCII character. *)
Definition isspace (c : ascii) : bool :=
  let n := N_of_ascii c in
  ((9 <=? n) && (n <=? 13) || (28 <=? n) && (n <=? 32))%N.

Fixpoint lstrip (s : string) : string :=
  match s with
  | String c s' => if isspace c then lstrip s' else s
  | EmptyString => EmptyString
  end.

Definition rstrip (s : string) : string := String.rev (lstrip (String.rev s)).

(** [s.strip()] *)
Definition strip (s : string) : string := rstrip (lstrip s).

Definition flush (cur : string) : list string :=
  match cur with
  | EmptyString => []
  | _ => [String.rev cur]
  end.

Fixpoint split_aux (cur : string) (s : string) : list string :=
  match s with
  | EmptyString => flush cur
  | String c s' =>
      if isspace c then flush cur ++ split_aux EmptyString s'
      else split_aux (String c cur) s'
  end.

(** [s.split()]: the maximal runs of non-whitespace characters. *)
Definition split (s : string) : list string := split_aux EmptyString s.

(** [c.upper()] on an ASCII character. *)
Definition upper (c : ascii) : ascii :=
  let n := N_of_ascii c in
  if ((97 <=? n) && (n <=? 122))%N then ascii_of_N (n - 32) else c.

Definition lower (c : ascii) : ascii :=
  let n := N_of_ascii c in
  if ((65 <=? n) && (n <=? 90))%N then ascii_of_N (n + 32) else c.

Fixpoint lower_str (s : string) : string :=
  match s with
  | EmptyString => EmptyString
  | String c s' => String (lower c) (lower_str s')
  end.

(** ** Python numbers *)

(** A value stored in a result dictionary: the int [0] written for ground, or
    a float read from the solution. *)
Inductive pynum : Type :=
| PyInt (z : Z)
| PyFloat (x : float).

(** [str(z)] for an int. *)
Definition py_str (z : Z) : string := NilZero.string_of_int (Z.to_int z).

Definition digit_val (c : ascii) : option Z :=
  Z.of_nat <$> Ascii.is_nat c.

(** A run of decimal digits in which single underscores may separate digits;
    returns the digits read and the text left. *)
Fixpoint scan_digits (s : string) : list Z * string :=
  match s with
  | String c s' =>
      match digit_val c with
      | Some d =>
          let '(ds, r) :=
            match s' with
            | String "_"%char s'' =>
                match s'' with
                | String c2 _ =>
                    if digit_val c2 is Some _ then scan_digits s'' else ([], s')
                | EmptyString => ([], s')
                end
            | _ => scan_digits s'
            end in
          (d :: ds, r)
      | None => ([], s)
      end
  | EmptyString => ([], s)
  end.

Definition digits_value (ds : list Z) : Z :=
  foldl (fun acc d => 10 * acc + d) 0 ds.

(** An optional sign: whether it is a minus, and the text after it. *)
Definition scan_sign (s : string) : bool * string :=
  match s with
  | String "-"%char s' => (true, s')
  | String "+"%char s' => (false, s')
  | _ => (false, s)
  end.

(** [int(s)] for a str, base 10; [None] stands for ValueError. *)
Definition py_int (s : string) : option Z :=
  let '(neg, body) := scan_sign (strip s) in
  match scan_digits body with
  | (d :: ds, EmptyString) =>
      let v := digits_value (d :: ds) in Some (if neg then - v else v)
  | _ => None
  end.

(** The binary64 number nearest to [m * 10 ^ k] (ties to even). *)
Definition float_of_decimal (m : positive) (k : Z) : float :=
  SF2Prim
    (if k <? 0 then
       let '(q, e, l) := SFdiv_core_binary prec emax (Zpos m) 0 (10 ^ (- k)) 0 in
       binary_round_aux prec emax false q e l
     else binary_normalize prec emax (Zpos m * 10 ^ k) 0 false).

(** The exponent part of a float literal: [e] or [E], an optional sign and
    digits; absent when the text is empty. *)
Definition scan_exponent (s : string) : option Z :=
  match s with
  | EmptyString => Some 0
  | String c s' =>
      if (N_of_ascii (lower c) =? 101)%N then
        let '(neg, body) := scan_sign s' in
        match scan_digits body with
        | (d :: ds, EmptyString) =>
            let v := digits_value (d :: ds) in Some (if neg then - v else v)
        | _ => None
        end
      else None
  end.

Definition float_magnitude (body : string) : option float :=
  let word := lower_str body in
  if decide (word = "inf" \/ word = "infinity") then Some infinity
  else if decide (word = "nan") then Some nan
  else
    let '(ip, r1) := scan_digits body in
    let '(fp, r2) :=
      match r1 with
      | String "."%char r => scan_digits r
      | _ => ([], r1)
      end in
    match ip ++ fp with
    | [] => None
    | ds =>
        e ← scan_exponent r2;
        match digits_value ds with
        | Zpos m => Some (float_of_decimal m (e - Z.of_nat (length fp)))
        | _ => Some 0%float
        end
    end.

(** [float(s)] for a str; [None] stands for ValueError. *)
Definition py_float (s : string) : option float :=
  let '(neg, body) := scan_sign (strip s) in
  x ← float_magnitude body;
  Some (if neg then (- x)%float else x).

(** [float(b)] for a bool. *)
Definition float_of_bool (b : bool) : float :=
  if b then 1%float else 0%float.

(** Truth value of a float in a condition. *)
Definition float_truth (x : float) : bool := negb (PrimFloat.eqb x 0).

(** [s == z] between a str and an int: the types differ, so it is False. *)
Definition str_eq_int (s : string) (z : Z) : bool := false.

(** [1 / x] on floats: a zero divisor raises ZeroDivisionError. *)
Definition py_recip (x : float) : result float :=
  if PrimFloat.eqb x 0 then Raise ZeroDivisionError else Ok (1 / x)%float.

(** [int(s)] and [float(s)] as statements. *)
Definition int_of (s : string) : result Z :=
  match py_int s with
  | Some z => Ok z
  | None => Raise (ValueError "invalid literal for int() with base 10")
  end.

Definition float_of (s : string) : result float :=
  match py_float s with
  | Some x => Ok x
  | None => Raise (ValueError "could not convert string to float")
  end.

(** ** The netlist parser *)

(** A component dictionary, with its four keys. *)
Record component : Type := Component {
  name : string;
  n1 : string;
  n2 : string;
  value : string
}.

(** [mapping_nodes]: the index of [node_name], a fresh one on its first
    appearance. The source updates [node_mapping] in place; here the updated
    dictionary is returned with the index and the counter. *)
Definition mapping_nodes (node_name : string) (node_mapping : gmap string Z)
    (node_counter : Z) : Z * gmap string Z * Z :=
  match node_mapping !! node_name with
  | None =>
      (node_counter, <[node_name := node_counter]> node_mapping, node_counter + 1)
  | Some i => (i, node_mapping, node_counter)
  end.

(** The local variables of [parsing] that the main loop reads and writes. *)
Record parse_state : Type := ParseState {
  node_mapping : gmap string Z;
  Resistors : list component;
  Voltage_sources : list component;
  Current_sources : list component;
  node_counter : Z;
  Junk : bool;
  resistor_names : gset string;
  voltage_source_names : gset string;
  current_source_names : gset string
}.

Definition initial_state : parse_state :=
  {| node_mapping := {[ "GND" := 0 ]};
     Resistors := [];
     Voltage_sources := [];
     Current_sources := [];
     node_counter := 1;
     Junk := true;
     resistor_names := ∅;
     voltage_source_names := ∅;
     current_source_names := ∅ |}.

Definition set_Junk (j : bool) (st : parse_state) : parse_state :=
  {| node_mapping := node_mapping st;
     Resistors := Resistors st;
     Voltage_sources := Voltage_sources st;
     Current_sources := Current_sources st;
     node_counter := node_counter st;
     Junk := j;
     resistor_names := resistor_names st;
     voltage_source_names := voltage_source_names st;
     current_source_names := current_source_names st |}.

(** [w[0]] on a str. *)
Definition first_char (w : string) : result ascii :=
  match w with
  | String c _ => Ok c
  | EmptyString => Raise IndexError
  end.

(** The body of the main loop for a line of the circuit block that has at
    least one token. *)
Definition parse_element (st : parse_state) (words : list string)
  : result parse_state :=
  w0 ← getitem words 0;
  c0 ← first_char w0;
  let element_type := upper c0 in
  w1 ← getitem words 1;
  w2 ← getitem words 2;
  let '(i1, nm, nc) := mapping_nodes w1 (node_mapping st) (node_counter st) in
  let '(i2, nm, nc) := mapping_nodes w2 nm nc in
  if decide (element_type = "R"%char) then
    if decide (w0 ∈ resistor_names st) then
      Raise (ValueError "Duplicate resistor name found.")
    else if (length words <? 4)%nat then
      Raise (ValueError "Insufficient data to access resistor value.")
    else
      v ← getitem words 3;
      Ok {| node_mapping := nm;
            Resistors := Resistors st ++ [Component w0 (py_str i1) (py_str i2) v];
            Voltage_sources := Voltage_sources st;
            Current_sources := Current_sources st;
            node_counter := nc;
            Junk := Junk st;
            resistor_names := {[ w0 ]} ∪ resistor_names st;
            voltage_source_names := voltage_source_names st;
            current_source_names := current_source_names st |}
  else if decide (element_type = "V"%char) then
    if decide (w0 ∈ voltage_source_names st) then
      Raise (ValueError "Duplicate voltage source name found.")
    else if (length words <? 5)%nat then
      Raise (ValueError "Insufficient data to access voltage source value.")
    else
      v ← getitem words 4;
      Ok {| node_mapping := nm;
            Resistors := Resistors st;
            Voltage_sources :=
              Voltage_sources st ++ [Component w0 (py_str i1) (py_str i2) v];
            Current_sources := Current_sources st;
            node_counter := nc;
            Junk := Junk st;
            resistor_names := resistor_names st;
            voltage_source_names := {[ w0 ]} ∪ voltage_source_names st;
            current_source_names := current_source_names st |}
  else if decide (element_type = "I"%char) then
    if decide (w0 ∈ current_source_names st) then
      Raise (ValueError "Duplicate current source name found.")
    else if (length words <? 5)%nat then
      Raise (ValueError "Insufficient data to access current source value.")
    else
      v ← getitem words 4;
      Ok {| node_mapping := nm;
            Resistors := Resistors st;
            Voltage_sources := Voltage_sources st;
            Current_sources :=
              Current_sources st ++ [Component w0 (py_str i1) (py_str i2) v];
            node_counter := nc;
            Junk := Junk st;
            resistor_names := resistor_names st;
            voltage_source_names := voltage_source_names st;
            current_source_names := {[ w0 ]} ∪ current_source_names st |}
  else Raise (ValueError "Only V, I, R elements are permitted").

(** One iteration of the main loop of [parsing]. *)
Definition parse_line (st : parse_state) (line : string) : result parse_state :=
  if decide (strip line = ".circuit") then Ok (set_Junk false st)
  else if decide (strip line = ".end") then Ok (set_Junk true st)
  else if negb (Junk st) then
    let words := split line in
    if (0 <? length words)%nat then parse_element st words else Ok st
  else Ok st.

(** The number of lines that are not the marker, as the two presence scans
    of [parsing] count them. *)
Definition count_not (marker : string) (lines : list string) : nat :=
  length (filter (fun l => strip l ≠ marker) lines).

(** [parsing]. The argument is what [open(filename)] and [readlines()] give:
    the lines of the file, or [None] when the file does not exist. *)
Definition parsing (file : option (list string))
  : result (list component * list component * list component
            * gmap string Z * Z) :=
  match file with
  | None =>
      Raise (FileNotFoundError
               "Please give the name of a valid SPICE file as input")
  | Some lines =>
      if decide (count_not ".circuit" lines = length lines) then
        Raise (ValueError "Malformed circuit file")
      else if decide (count_not ".end" lines = length lines) then
        Raise (ValueError "Malformed circuit file")
      else
        st ← for_each parse_line initial_state lines;
        Ok (Resistors st, Voltage_sources st, Current_sources st,
            node_mapping st, node_counter st)
  end.

(** ** The equation builder *)

(** A two-dimensional float64 array, by rows. *)
Abbreviation matrix := (list (list float)).

(** [np.zeros((rows, cols))] *)
Definition np_zeros (rows cols : Z) : result matrix :=
  if (rows <? 0) || (cols <? 0) then
    Raise (ValueError "negative dimensions are not allowed")
  else Ok (replicate (Z.to_nat rows) (replicate (Z.to_nat cols) 0%float)).

(** [M[i][j]] *)
Definition get2 (M : matrix) (i j : Z) : result float :=
  row ← getitem M i; getitem row j.

(** [M[i][j] = x] *)
Definition set2 (M : matrix) (i j : Z) (x : float) : result matrix :=
  match norm_index (length M) i with
  | None => Raise IndexError
  | Some r =>
      match M !! r with
      | None => Raise IndexError
      | Some row =>
          match norm_index (length row) j with
          | None => Raise IndexError
          | Some c => Ok (<[r := <[c := x]> row]> M)
          end
      end
  end.

(** [M[i][j] += y] and [M[i][j] -= y] *)
Definition iadd2 (M : matrix) (i j : Z) (y : float) : result matrix :=
  x ← get2 M i j; set2 M i j (x + y)%float.

Definition isub2 (M : matrix) (i j : Z) (y : float) : result matrix :=
  x ← get2 M i j; set2 M i j (x - y)%float.

(** The body of the resistor loop. *)
Definition stamp_resistor (Matrix : matrix) (Resistor : component)
  : result matrix :=
  a ← int_of (n1 Resistor);
  b ← int_of (n2 Resistor);
  if float_truth (float_of_bool (str_eq_int (value Resistor) 0)) then
    Raise ZeroDivisionError
  else
    Y ← try_except (x ← float_of (value Resistor); py_recip x)
          (fun _ => Raise (TypeError "Malformed circuit file"));
    if decide (a ≠ b) then
      M ← (if decide (a ≠ 0) then iadd2 Matrix (a - 1) (a - 1) Y else Ok Matrix);
      M ← (if decide (b ≠ 0) then iadd2 M (b - 1) (b - 1) Y else Ok M);
      if decide (a ≠ 0 ∧ b ≠ 0) then
        M ← isub2 M (a - 1) (b - 1) Y;
        isub2 M (b - 1) (a - 1) Y
      else Ok M
    else iadd2 Matrix (a - 1) (a - 1) Y.

(** The body of the current-source loop. *)
Definition stamp_current (Matrix_right : matrix) (Current_source : component)
  : result matrix :=
  a ← int_of (n1 Current_source);
  b ← int_of (n2 Current_source);
  I ← try_except (float_of (value Current_source))
        (fun _ => Raise (TypeError "Malformed circuit file"));
  R ← (if decide (a ≠ 0) then isub2 Matrix_right (a - 1) 0 I
       else Ok Matrix_right);
  if decide (b ≠ 0) then iadd2 R (b - 1) 0 I else Ok R.

(** The body of the voltage-source loop, for the source numbered [i]. *)
Definition stamp_voltage (total_nodes : Z) (sys : matrix * matrix)
    (item : Z * component) : result (matrix * matrix) :=
  let '(Matrix, Matrix_right) := sys in
  let '(i, Voltage_source) := item in
  a ← int_of (n1 Voltage_source);
  b ← int_of (n2 Voltage_source);
  V ← try_except (float_of (value Voltage_source))
        (fun _ => Raise (TypeError "Malformed circuit file"));
  M ← (if decide (a ≠ 0) then
         M ← set2 Matrix (total_nodes + i) (a - 1) 1%float;
         set2 M (a - 1) (total_nodes + i) 1%float
       else Ok Matrix);
  M ← (if decide (b ≠ 0) then
         M ← set2 M (total_nodes + i) (b - 1) (-1)%float;
         set2 M (b - 1) (total_nodes + i) (-1)%float
       else Ok M);
  R ← set2 Matrix_right (total_nodes + i) 0 V;
  Ok (M, R).

(** [enumerate(l)] *)
Definition enumerate {A} (l : list A) : list (Z * A) :=
  imap (fun i x => (Z.of_nat i, x)) l.

(** [matrix_formation] *)
Definition matrix_formation (Resistors Voltage_sources Current_sources
    : list component) (node_mapping : gmap string Z) (node_count : Z)
  : result (matrix * matrix) :=
  let total_nodes := node_count - 1 in
  let total_voltage_sources := Z.of_nat (length Voltage_sources) in
  Matrix ← np_zeros (total_nodes + total_voltage_sources)
                    (total_nodes + total_voltage_sources);
  Matrix_right ← np_zeros (total_nodes + total_voltage_sources) 1;
  Matrix ← for_each stamp_resistor Matrix Resistors;
  Matrix_right ← for_each stamp_current Matrix_right Current_sources;
  for_each (stamp_voltage total_nodes) (Matrix, Matrix_right)
           (enumerate Voltage_sources).

(** ** The linear solver

    [numpy.linalg.solve] is not code of this repository: it calls LAPACK's
    [gesv], an LU factorisation with partial pivoting (row exchanges) and two
    triangular solves, in binary64. The model below is the textbook form of
    that algorithm: the pivot of a column is its first entry of largest
    magnitude, an entry below the pivot is scaled by the pivot's reciprocal,
    the right-hand side is reduced along with the rows, and a pivot that is
    exactly zero makes the call fail with LinAlgError.

    An optimised LAPACK orders and fuses the floating-point operations in its
    own way, so the numbers it returns can differ from the model's in the last
    bits, in how a NaN or an infinity spreads, and in whether a nearly
    singular system is reported as singular. The model stands for the library
    in two respects only, and the general properties of [evalSpice] use
    nothing else of it: a result has one row for each equation and a single
    column, and the only exception is LinAlgError. The numbers the model
    computes enter the evaluation of the example netlists alone. *)

(** A row of the system under reduction: the coefficients of the columns
    still to eliminate, and the right-hand side. *)
Abbreviation aug_row := (list float * float)%type.

Definition head_coeff (r : aug_row) : float :=
  match r.1 with
  | x :: _ => x
  | [] => 0%float
  end.

Fixpoint argmax_abs (best : nat) (dmax : float) (i : nat) (col : list float)
  : nat :=
  match col with
  | [] => best
  | x :: col' =>
      if (dmax <? abs x)%float then argmax_abs i (abs x) (S i) col'
      else argmax_abs best dmax (S i) col'
  end.

Definition pivot_index (col : list float) : nat :=
  match col with
  | [] => 0%nat
  | x :: col' => argmax_abs 0 (abs x) 1 col'
  end.

Definition swap_rows {A} (i j : nat) (l : list A) : list A :=
  match l !! i, l !! j with
  | Some x, Some y => <[i := y]> (<[j := x]> l)
  | _, _ => l
  end.

(** The smallest positive normal binary64 number, [2 ^ -1022]. *)
Definition sfmin : float := Eval vm_compute in Z.ldexp 1%float (-1022).

Definition eliminate (prow : aug_row) (r : aug_row) : aug_row :=
  let piv := head_coeff prow in
  let l := if (sfmin <=? abs piv)%float then (head_coeff r * (1 / piv))%float
           else (head_coeff r / piv)%float in
  (zip_with (fun x u => (x - l * u)%float) (tail r.1) (tail prow.1),
   (r.2 - l * prow.2)%float).

Fixpoint lu_reduce (n : nat) (rows : list aug_row) : option (list aug_row) :=
  match n with
  | O => Some []
  | S n' =>
      match swap_rows 0 (pivot_index (head_coeff <$> rows)) rows with
      | prow :: rest =>
          if (head_coeff prow =? 0)%float then None
          else U ← lu_reduce n' (eliminate prow <$> rest); Some (prow :: U)
      | [] => None
      end
  end.

Fixpoint back_subst (U : list aug_row) : list float :=
  match U with
  | [] => []
  | row :: U' =>
      let xs := back_subst U' in
      (foldr (fun ux acc => (acc - ux.2 * ux.1)%float) row.2
             (zip (tail row.1) xs) / head_coeff row)%float :: xs
  end.

Definition rhs_cell (row : list float) : float :=
  match row with
  | x :: _ => x
  | [] => 0%float
  end.

(** [np.linalg.solve(a, b)] for a square [a] and a one-column [b]. *)
Definition np_linalg_solve (a b : matrix) : result matrix :=
  match lu_reduce (length a) (zip a (rhs_cell <$> b)) with
  | None => Raise LinAlgError
  | Some U => Ok ((fun x => [x]) <$> back_subst U)
  end.

(** ** The top level *)

(** The body of the loop over the nodes. *)
Definition voltage_step (solution : matrix) (voltages : gmap string pynum)
    (item : string * Z) : result (gmap string pynum) :=
  let '(node, i) := item in
  if decide (node = "GND") then Ok (<[node := PyInt 0]> voltages)
  else if i <=? Z.of_nat (length solution) then
    x ← get2 solution (i - 1) 0; Ok (<[node := PyFloat x]> voltages)
  else Ok voltages.

(** The body of the loop over the voltage sources; the state is [currents]
    and [idx]. *)
Definition current_step (node_count : Z) (solution : matrix)
    (st : gmap string pynum * Z) (Voltage_source : component)
  : result (gmap string pynum * Z) :=
  let '(currents, idx) := st in
  let voltage_name := name Voltage_source in
  let current_idx := node_count + idx - 1 in
  currents ← (if current_idx <? Z.of_nat (length solution) then
                x ← get2 solution current_idx 0;
                Ok (<[voltage_name := PyFloat x]> currents)
              else Ok currents);
  Ok (currents, idx + 1).

(** [evalSpice]. The loop over [node_mapping] visits the entries of the
    dictionary once each; its result does not depend on the order. *)
Definition evalSpice (file : option (list string))
  : result (gmap string pynum * gmap string pynum) :=
  '(Resistors, Voltage_sources, Current_sources, node_mapping, node_count) ←
    parsing file;
  '(Matrix, Matrix_right) ←
    matrix_formation Resistors Voltage_sources Current_sources
                     node_mapping node_count;
  solution ← try_except (np_linalg_solve Matrix Matrix_right)
    (fun e => match e with
              | LinAlgError => Raise (ValueError "Circuit error: no solution")
              | _ => Raise e
              end);
  voltages ← for_each (voltage_step solution) ∅ (map_to_list node_mapping);
  '(currents, _) ←
    for_each (current_step node_count solution) (∅, 0) Voltage_sources;
  Ok (voltages, currents).

(** ** Netlists *)

Definition newline : string := String (ascii_of_N 10) EmptyString.

(** The lines [readlines()] returns for a text file with the given rows, each
    ended by a newline. *)
Definition file_lines (rows : list string) : list string :=
  (fun r => r +:+ newline) <$> rows.

(** ** Vocabulary of the specification *)

(** The three element kinds, told apart by the first letter of the name. *)
Inductive kind : Type := KResistor | KVoltage | KCurrent.

#[global] Instance kind_eq_dec : EqDecision kind.
Proof. solve_decision. Defined.

Definition kind_letter (k : kind) : ascii :=
  match k with
  | KResistor => "R"%char
  | KVoltage => "V"%char
  | KCurrent => "I"%char
  end.

(** The number of tokens an element line of the kind needs. *)
Definition required_tokens (k : kind) : nat :=
  match k with
  | KResistor => 4%nat
  | KVoltage => 5%nat
  | KCurrent => 5%nat
  end.

Definition starts_with_letter (k : kind) (w : string) : Prop :=
  exists c rest, w = String c rest /\ upper c = kind_letter k.

(** The names the parser has recorded for a kind. *)
Definition names_of (k : kind) (st : parse_state) : gset string :=
  match k with
  | KResistor => resistor_names st
  | KVoltage => voltage_source_names st
  | KCurrent => current_source_names st
  end.

Definition insufficient_data (k : kind) : exception :=
  match k with
  | KResistor => ValueError "Insufficient data to access resistor value."
  | KVoltage => ValueError "Insufficient data to access voltage source value."
  | KCurrent => ValueError "Insufficient data to access current source value."
  end.

Definition duplicate_name (k : kind) : exception :=
  match k with
  | KResistor => ValueError "Duplicate resistor name found."
  | KVoltage => ValueError "Duplicate voltage source name found."
  | KCurrent => ValueError "Duplicate current source name found."
  end.

Definition is_marker (line : string) : Prop :=
  strip line = ".circuit" \/ strip line = ".end".

Definition has_marker (marker : string) (lines : list string) : Prop :=
  exists l, l ∈ lines /\ strip l = marker.

(** The lines that lie inside a circuit block: a [.circuit] line opens a
    block, an [.end] line closes it, and the marker lines themselves are not
    rows. [junk] tells whether the first line is outside a block. *)
Fixpoint block_rows_from (junk : bool) (lines : list string) : list string :=
  match lines with
  | [] => []
  | l :: rest =>
      if decide (strip l = ".circuit") then block_rows_from false rest
      else if decide (strip l = ".end") then block_rows_from true rest
      else if junk then block_rows_from junk rest
      else l :: block_rows_from junk rest
  end.

Definition block_rows (lines : list string) : list string :=
  block_rows_from true lines.

(** The two node names of an element row. *)
Definition row_nodes (row : string) : list string :=
  match split row with
  | _ :: a :: b :: _ => [a; b]
  | _ => []
  end.

(** The distinct node names of a netlist, ground included. *)
Definition netlist_nodes (lines : list string) : gset string :=
  {[ "GND" ]} ∪ list_to_set (block_rows lines ≫= row_nodes).

(** The entry of a matrix at a row and a column, counted from 0. *)
Definition cell (M : matrix) (i j : nat) : option float :=
  row ← M !! i; row !! j.

Definition has_shape (rows cols : nat) (M : matrix) : Prop :=
  length M = rows /\ Forall (fun r => length r = cols) M.

(** [M] with the entry at [(p, q)] replaced by [f] of it, entry by entry. *)
Definition cell_changed (f : float -> float) (p q : nat) (M M' : matrix)
  : Prop :=
  forall i j, cell M' i j =
              if decide (i = p /\ j = q) then f <$> cell M i j else cell M i j.



(** The size of the system for [node_count] nodes (ground included) and
    [nv] voltage sources, and the row of the voltage source numbered [i]. *)
Definition system_size (node_count : Z) (nv : nat) : nat :=
  Z.to_nat (node_count - 1 + Z.of_nat nv).

Definition extra_row (node_count : Z) (i : nat) : Z :=
  node_count - 1 + Z.of_nat i.

(** The state after an element of kind [k] has been accepted: the component
    [c] is appended to the list of its kind, its name is recorded, and the
    node dictionary and counter are the updated ones. *)
Definition record_element (k : kind) (c : component) (nm : gmap string Z)
    (nc : Z) (st : parse_state) : parse_state :=
  {| node_mapping := nm;
     Resistors :=
       if k is KResistor then Resistors st ++ [c] else Resistors st;
     Voltage_sources :=
       if k is KVoltage then Voltage_sources st ++ [c] else Voltage_sources st;
     Current_sources :=
       if k is KCurrent then Current_sources st ++ [c] else Current_sources st;
     node_counter := nc;
     Junk := Junk st;
     resistor_names :=
       if k is KResistor then {[ name c ]} ∪ resistor_names st
       else resistor_names st;
     voltage_source_names :=
       if k is KVoltage then {[ name c ]} ∪ voltage_source_names st
       else voltage_source_names st;
     current_source_names :=
       if k is KCurrent then {[ name c ]} ∪ current_source_names st
       else current_source_names st |}.

(** The name token of a row, when it has one. *)
Definition row_name (row : string) : option string := head (split row).

(** The node dictionary maps ground to 0 and every node to an index below
    the counter. *)
Definition indices_in_range (nm : gmap string Z) (nc : Z) : Prop :=
  nm !! "GND" = Some 0 /\ forall node i, nm !! node = Some i -> 0 <= i < nc.

(** A run of the main loop, closed as an [.end] line closes it. *)
Definition close_block (r : result parse_state) : result parse_state :=
  st ← r; Ok (set_Junk true st).

(** A row of the blocks of [lines] carries the name token [w]. *)
Definition name_used (w : string) (lines : list string) : Prop :=
  exists r, r ∈ block_rows lines /\ row_name r = Some w.

(** The outcome is not ZeroDivisionError. *)
Definition not_zero_division {A} (r : result A) : Prop :=
  r <> Raise ZeroDivisionError.

(** The example netlist of the specification, in the format the parser
    accepts, and a file with two blocks. *)
Definition example_rows : list string :=
  [".circuit"; "V1 1 GND dc 10"; "R1 1 GND 5"; ".end"].

Definition two_blocks : list string :=
  file_lines [".circuit"; "V1 1 GND dc 10"; ".end"; "a comment";
              ".circuit"; "R1 1 GND 5"; ".end"].

(** The digits of a decimal numeral, most significant first. *)
Fixpoint uint_digits (d : Decimal.uint) : list Z :=
  match d with
  | Decimal.Nil => []
  | Decimal.D0 d => 0 :: uint_digits d
  | Decimal.D1 d => 1 :: uint_digits d
  | Decimal.D2 d => 2 :: uint_digits d
  | Decimal.D3 d => 3 :: uint_digits d
  | Decimal.D4 d => 4 :: uint_digits d
  | Decimal.D5 d => 5 :: uint_digits d
  | Decimal.D6 d => 6 :: uint_digits d
  | Decimal.D7 d => 7 :: uint_digits d
  | Decimal.D8 d => 8 :: uint_digits d
  | Decimal.D9 d => 9 :: uint_digits d
  end.

(** Every character of the text satisfies [P]. *)
Fixpoint all_chars (P : ascii -> bool) (s : string) : bool :=
  match s with
  | EmptyString => true
  | String c s' => P c && all_chars P s'
  end.

Definition is_digit (c : ascii) : bool :=
  match digit_val c with
  | Some _ => true
  | None => false
  end.

(** The terminals of a component read back as node indices below [nc]. *)
Definition component_indexed (nc : Z) (c : component) : Prop :=
  exists a b,
    py_int (n1 c) = Some a /\ py_int (n2 c) = Some b /\
    0 <= a < nc /\ 0 <= b < nc.

(** The components of a parse, of the three kinds together. *)
Definition all_components (st : parse_state) : list component :=
  Resistors st ++ Voltage_sources st ++ Current_sources st.

(** The components of one kind in a parser state. *)
Definition components_of (k : kind) (st : parse_state) : list component :=
  match k with
  | KResistor => Resistors st
  | KVoltage => Voltage_sources st
  | KCurrent => Current_sources st
  end.

(** The name begins with the letter of the kind, as a test. *)
Definition has_letter (k : kind) (w : string) : bool :=
  match w with
  | String c _ => bool_decide (upper c = kind_letter k)
  | EmptyString => false
  end.

(** The component a row of the kind [k] stands for, given the node table:
    the first token is the name, the second and third are looked up in the
    table, and the value is the fourth token of a resistor row and the fifth
    of a source row. *)
Definition row_component (nm : gmap string Z) (k : kind) (row : string)
  : option component :=
  match split row with
  | w0 :: w1 :: w2 :: rest =>
      if has_letter k w0 then
        v ← rest !! (required_tokens k - 4)%nat;
        i1 ← nm !! w1;
        i2 ← nm !! w2;
        Some (Component w0 (py_str i1) (py_str i2) v)
      else None
  | _ => None
  end.

(** The current-source stamp, entry by entry of the right-hand side: the
    current is subtracted at the row of the first node, then added at the row
    of the second, ground rows left out. *)
Definition current_stamp_spec (a b : Z) (I : float) (i : nat) (e : float)
  : float :=
  let e1 := if decide (a ≠ 0 /\ Z.of_nat i = a - 1) then (e - I)%float
            else e in
  if decide (b ≠ 0 /\ Z.of_nat i = b - 1) then (e1 + I)%float else e1.

(** The value text of a resistor is a number other than zero; the value text
    of a source is a number. *)
Definition resistor_value_good (c : component) : bool :=
  match py_float (value c) with
  | Some x => negb (PrimFloat.eqb x 0)
  | None => false
  end.

Definition source_value_good (c : component) : bool :=
  match py_float (value c) with
  | Some _ => true
  | None => false
  end.

(** The entries of a matrix mirror across the diagonal. *)
Definition symmetric (M : matrix) : Prop :=
  forall i j, cell M i j = cell M j i.

(** Every exception the computation can end with satisfies [P]. *)
Definition raises_only {A} (P : exception -> Prop) (m : result A) : Prop :=
  forall e, m = Raise e -> P e.

(** The exceptions [evalSpice] lets out. *)
Definition evalSpice_errors : list exception :=
  [ FileNotFoundError "Please give the name of a valid SPICE file as input";
    ValueError "Malformed circuit file";
    ValueError "Duplicate resistor name found.";
    ValueError "Insufficient data to access resistor value.";
    ValueError "Duplicate voltage source name found.";
    ValueError "Insufficient data to access voltage source value.";
    ValueError "Duplicate current source name found.";
    ValueError "Insufficient data to access current source value.";
    ValueError "Only V, I, R elements are permitted";
    IndexError;
    TypeError "Malformed circuit file";
    ValueError "Circuit error: no solution" ].

(** ** Properties of the sequence operations *)

Lemma norm_index_nonneg (len : nat) (i : Z) :
  0 <= i < Z.of_nat len -> norm_index len i = Some (Z.to_nat i).
Proof.
  intros Hi. unfold norm_index.
  destruct (Z.leb_spec 0 i), (Z.ltb_spec i (Z.of_nat len)); simpl; try lia.
  reflexivity.
Qed.

Lemma norm_index_negative (len : nat) (i : Z) :
  - Z.of_nat len <= i < 0 ->
  norm_index len i = Some (Z.to_nat (Z.of_nat len + i)).
Proof.
  intros Hi. unfold norm_index.
  destruct (Z.leb_spec 0 i); [lia|]. simpl.
  destruct (Z.leb_spec (- Z.of_nat len) i), (Z.ltb_spec i 0); simpl; try lia.
  reflexivity.
Qed.

Lemma norm_index_lt (len : nat) (i : Z) (k : nat) :
  norm_index len i = Some k -> (k < len)%nat.
Proof.
  unfold norm_index.
  destruct (Z.leb_spec 0 i), (Z.ltb_spec i (Z.of_nat len)); simpl;
    try (intros [= <-]; lia);
    destruct (Z.leb_spec (- Z.of_nat len) i), (Z.ltb_spec i 0); simpl;
    try discriminate; intros [= <-]; lia.
Qed.

Lemma norm_index_empty (i : Z) : norm_index 0 i = None.
Proof.
  destruct (norm_index 0 i) as [k|] eqn:E; [|reflexivity].
  apply norm_index_lt in E. lia.
Qed.

Lemma getitem_Ok {A} (l : list A) (i : Z) (k : nat) (x : A) :
  norm_index (length l) i = Some k -> l !! k = Some x -> getitem l i = Ok x.
Proof. intros Hk Hx. unfold getitem. rewrite Hk, Hx. reflexivity. Qed.

Lemma getitem_inv {A} (l : list A) (i : Z) (x : A) :
  getitem l i = Ok x ->
  exists k, norm_index (length l) i = Some k /\ l !! k = Some x.
Proof.
  unfold getitem. destruct (norm_index (length l) i) as [k|]; [|discriminate].
  destruct (l !! k) as [y|] eqn:E; [|discriminate].
  intros [= <-]. eauto.
Qed.

Lemma getitem_nat {A} (l : list A) (k : nat) :
  getitem l (Z.of_nat k) =
  match l !! k with Some x => Ok x | None => Raise IndexError end.
Proof.
  unfold getitem. destruct (l !! k) as [x|] eqn:E.
  - assert (k < length l)%nat by (apply lookup_lt_is_Some; eauto).
    rewrite norm_index_nonneg by lia. rewrite Nat2Z.id, E. reflexivity.
  - apply lookup_ge_None in E.
    destruct (norm_index (length l) (Z.of_nat k)) as [k'|] eqn:E'; [|done].
    unfold norm_index in E'.
    destruct (Z.leb_spec 0 (Z.of_nat k)); [|lia].
    destruct (Z.ltb_spec (Z.of_nat k) (Z.of_nat (length l))); [lia|].
    simpl in E'.
    destruct (Z.ltb_spec (Z.of_nat k) 0); [lia|].
    rewrite andb_false_r in E'. discriminate.
Qed.

Lemma cell_Some_iff (rows cols : nat) (M : matrix) (i j : nat) :
  has_shape rows cols M ->
  is_Some (cell M i j) <-> (i < rows)%nat /\ (j < cols)%nat.
Proof.
  intros [Hlen Hrows]. unfold cell. split.
  - intros [x Hx]. destruct (M !! i) as [row|] eqn:Hrow; [|discriminate].
    simpl in Hx. split.
    + rewrite <- Hlen. apply lookup_lt_is_Some. eauto.
    + rewrite Forall_lookup in Hrows. rewrite <- (Hrows _ _ Hrow).
      apply lookup_lt_is_Some. eauto.
  - intros [Hi Hj].
    destruct (lookup_lt_is_Some_2 M i) as [row Hrow]; [lia|].
    rewrite Hrow. simpl. apply lookup_lt_is_Some.
    rewrite Forall_lookup in Hrows. rewrite (Hrows _ _ Hrow). exact Hj.
Qed.

Lemma get2_Ok (rows cols : nat) (M : matrix) (i j : Z) (p q : nat) :
  has_shape rows cols M ->
  norm_index rows i = Some p -> norm_index cols j = Some q ->
  exists x, get2 M i j = Ok x /\ cell M p q = Some x.
Proof.
  intros HM Hp Hq.
  destruct (proj2 (cell_Some_iff rows cols M p q HM)) as [x Hx].
  { split; eapply norm_index_lt; eauto. }
  exists x. split; [|exact Hx].
  destruct HM as [Hlen Hrows]. unfold cell in Hx. unfold get2.
  destruct (M !! p) as [row|] eqn:Hrow; [|discriminate]. simpl in Hx.
  rewrite (getitem_Ok M i p row) by (rewrite ?Hlen; assumption). simpl.
  apply (getitem_Ok row j q x); [|exact Hx].
  rewrite Forall_lookup in Hrows. rewrite (Hrows _ _ Hrow). exact Hq.
Qed.

Lemma set2_Ok (rows cols : nat) (M : matrix) (i j : Z) (p q : nat) (x : float) :
  has_shape rows cols M ->
  norm_index rows i = Some p -> norm_index cols j = Some q ->
  exists M', set2 M i j x = Ok M' /\ has_shape rows cols M'
             /\ cell_changed (fun _ => x) p q M M'.
Proof.
  intros [Hlen Hrows] Hp Hq.
  pose proof (norm_index_lt _ _ _ Hp) as Hplt.
  pose proof (norm_index_lt _ _ _ Hq) as Hqlt.
  destruct (lookup_lt_is_Some_2 M p) as [row Hrow]; [lia|].
  assert (Hrowlen : length row = cols).
  { rewrite Forall_lookup in Hrows. eauto. }
  exists (<[p := <[q := x]> row]> M). split; [|split].
  - unfold set2. rewrite Hlen, Hp, Hrow, Hrowlen, Hq. reflexivity.
  - split; [by rewrite length_insert|].
    apply Forall_insert; [exact Hrows|]. by rewrite length_insert.
  - intros i' j'. unfold cell. destruct (decide (i' = p)) as [->|Hne].
    + rewrite list_lookup_insert_eq by lia. rewrite Hrow. simpl.
      destruct (decide (j' = q)) as [->|Hne'].
      * rewrite list_lookup_insert_eq by lia.
        rewrite decide_True by done.
        destruct (lookup_lt_is_Some_2 row q) as [y ->]; [lia|]. done.
      * rewrite list_lookup_insert_ne by done.
        rewrite decide_False by naive_solver. done.
    + rewrite list_lookup_insert_ne by done.
      rewrite decide_False by naive_solver. done.
Qed.

Lemma iadd2_Ok (rows cols : nat) (M : matrix) (i j : Z) (p q : nat) (y : float) :
  has_shape rows cols M ->
  norm_index rows i = Some p -> norm_index cols j = Some q ->
  exists M', iadd2 M i j y = Ok M' /\ has_shape rows cols M'
             /\ cell_changed (fun e => (e + y)%float) p q M M'.
Proof.
  intros HM Hp Hq.
  destruct (get2_Ok _ _ _ _ _ _ _ HM Hp Hq) as (e & Hget & He).
  destruct (set2_Ok _ _ _ _ _ _ _ (e + y)%float HM Hp Hq) as (M' & Hset & HM' & Hch).
  exists M'. unfold iadd2. rewrite Hget. simpl. split; [exact Hset|].
  split; [exact HM'|]. intros i' j'. rewrite Hch.
  case_decide as Hd; [|done]. destruct Hd as [-> ->]. by rewrite He.
Qed.

Lemma isub2_Ok (rows cols : nat) (M : matrix) (i j : Z) (p q : nat) (y : float) :
  has_shape rows cols M ->
  norm_index rows i = Some p -> norm_index cols j = Some q ->
  exists M', isub2 M i j y = Ok M' /\ has_shape rows cols M'
             /\ cell_changed (fun e => (e - y)%float) p q M M'.
Proof.
  intros HM Hp Hq.
  destruct (get2_Ok _ _ _ _ _ _ _ HM Hp Hq) as (e & Hget & He).
  destruct (set2_Ok _ _ _ _ _ _ _ (e - y)%float HM Hp Hq) as (M' & Hset & HM' & Hch).
  exists M'. unfold isub2. rewrite Hget. simpl. split; [exact Hset|].
  split; [exact HM'|]. intros i' j'. rewrite Hch.
  case_decide as Hd; [|done]. destruct Hd as [-> ->]. by rewrite He.
Qed.

(** Whatever their outcome, the array statements keep the shape. *)
Lemma set2_shape (rows cols : nat) (M M' : matrix) (i j : Z) (x : float) :
  has_shape rows cols M -> set2 M i j x = Ok M' -> has_shape rows cols M'.
Proof.
  intros [Hlen Hrows]. unfold set2.
  destruct (norm_index (length M) i) as [p|]; [|discriminate].
  destruct (M !! p) as [row|] eqn:Hrow; [|discriminate].
  destruct (norm_index (length row) j) as [q|]; [|discriminate].
  intros [= <-]. split; [by rewrite length_insert|].
  apply Forall_insert; [exact Hrows|]. rewrite length_insert.
  rewrite Forall_lookup in Hrows. eauto.
Qed.

Lemma iadd2_shape (rows cols : nat) (M M' : matrix) (i j : Z) (y : float) :
  has_shape rows cols M -> iadd2 M i j y = Ok M' -> has_shape rows cols M'.
Proof.
  intros HM. unfold iadd2. destruct (get2 M i j) as [e|]; [|discriminate].
  simpl. apply set2_shape. exact HM.
Qed.

Lemma isub2_shape (rows cols : nat) (M M' : matrix) (i j : Z) (y : float) :
  has_shape rows cols M -> isub2 M i j y = Ok M' -> has_shape rows cols M'.
Proof.
  intros HM. unfold isub2. destruct (get2 M i j) as [e|]; [|discriminate].
  simpl. apply set2_shape. exact HM.
Qed.

(** ** The resistor stamp *)

Lemma zero_test_is_false (v : string) :
  float_truth (float_of_bool (str_eq_int v 0)) = false.
Proof. reflexivity. Qed.

Lemma conductance_Ok (v : string) (x : float) :
  py_float v = Some x -> PrimFloat.eqb x 0 = false ->
  try_except (x ← float_of v; py_recip x)
    (fun _ => Raise (TypeError "Malformed circuit file")) = Ok (1 / x)%float.
Proof.
  intros Hv Hx. unfold float_of, py_recip. rewrite Hv. simpl. rewrite Hx.
  reflexivity.
Qed.

Lemma node_row (n : nat) (a : Z) :
  1 <= a <= Z.of_nat n ->
  exists p, a = Z.of_nat p + 1 /\ norm_index n (a - 1) = Some p.
Proof.
  intros Ha. exists (Z.to_nat (a - 1)). split; [lia|].
  apply norm_index_nonneg. lia.
Qed.

(** Settles an entry-by-entry comparison once the changes of the statements
    have been rewritten into the goal. *)
Ltac compare_entries :=
  match goal with
  | |- context [cell ?M ?i ?j] => destruct (cell M i j); simpl
  end;
  repeat case_decide; try reflexivity; exfalso;
  repeat match goal with
         | H : has_shape _ _ _ |- _ => clear H
         | H : cell_changed _ _ _ _ _ |- _ => clear H
         end;
  lia.


(** X20. A resistor with both terminals on ground and a non-zero value is
    stamped through the index [-1], which the branch for equal terminals
    does not guard: when the matrix has at least one row, its conductance is
    added to the entry in the last row and last column and no other entry
    changes; when the matrix is empty, the statement raises IndexError. *)
Theorem grounded_resistor_stamp (n : nat) (M : matrix) (R : component)
    (x : float) :
  has_shape n n M ->
  py_int (n1 R) = Some 0 -> py_int (n2 R) = Some 0 ->
  py_float (value R) = Some x -> PrimFloat.eqb x 0 = false ->
  match n with
  | O => stamp_resistor M R = Raise IndexError
  | S k =>
      exists M',
        stamp_resistor M R = Ok M' /\ has_shape n n M' /\
        cell_changed (fun e => (e + 1 / x)%float) k k M M'
  end.
Proof.
  intros HM Ha Hb Hv Hx.
  unfold stamp_resistor, int_of.
  rewrite Ha, Hb, zero_test_is_false, (conductance_Ok _ _ Hv Hx). simpl.
  destruct n as [|k].
  - destruct HM as [Hlen _]. destruct M; [|discriminate]. reflexivity.
  - assert (Hk : norm_index (S k) (-1) = Some k).
    { rewrite norm_index_negative by lia. f_equal. lia. }
    destruct (iadd2_Ok (S k) (S k) M _ _ _ _ (1 / x)%float HM Hk Hk)
      as (M1 & HM1 & Hshape & Hch).
    exists M1. change (0 - 1) with (-1). done.
Qed.

(** ** The voltage-source stamp and the size of the system *)

Lemma bind_Ok_inv {A B} (m : result A) (f : A -> result B) (b : B) :
  m ≫= f = Ok b -> exists a, m = Ok a /\ f a = Ok b.
Proof. destruct m as [a|e]; simpl; [eauto|discriminate]. Qed.

Lemma for_each_invariant {A S} (P : S -> Prop) (body : S -> A -> result S)
    (items : list A) :
  (forall s x s', P s -> body s x = Ok s' -> P s') ->
  forall s s', P s -> for_each body s items = Ok s' -> P s'.
Proof.
  intros Hbody. induction items as [|x items IH]; intros s s' Hs Hrun.
  - simpl in Hrun. by injection Hrun as <-.
  - simpl in Hrun. apply bind_Ok_inv in Hrun as (s1 & Hx & Hrest).
    eapply IH; [|exact Hrest]. eapply Hbody; eauto.
Qed.

Lemma for_each_app {A S} (body : S -> A -> result S) (s : S)
    (l1 l2 : list A) :
  for_each body s (l1 ++ l2) = s' ← for_each body s l1; for_each body s' l2.
Proof.
  revert s. induction l1 as [|x l1 IH]; intros s; simpl; [done|].
  destruct (body s x) as [s1|e]; simpl; [apply IH|done].
Qed.

Lemma np_zeros_shape (rows cols : Z) (M : matrix) :
  np_zeros rows cols = Ok M -> has_shape (Z.to_nat rows) (Z.to_nat cols) M.
Proof.
  unfold np_zeros. destruct (_ || _); [discriminate|]. intros [= <-].
  split; [apply length_replicate|].
  apply Forall_replicate, length_replicate.
Qed.

Lemma stamp_resistor_shape (rows cols : nat) (M M' : matrix) (R : component) :
  has_shape rows cols M -> stamp_resistor M R = Ok M' -> has_shape rows cols M'.
Proof.
  intros HM. unfold stamp_resistor.
  intros (a & _ & H)%bind_Ok_inv. apply bind_Ok_inv in H as (b & _ & H).
  rewrite zero_test_is_false in H. apply bind_Ok_inv in H as (Y & _ & H).
  destruct (decide (a ≠ b)); [|by eapply iadd2_shape].
  apply bind_Ok_inv in H as (M1 & H1 & H).
  apply bind_Ok_inv in H as (M2 & H2 & H).
  assert (HM1 : has_shape rows cols M1).
  { destruct (decide (a ≠ 0)); [by eapply iadd2_shape|by injection H1 as <-]. }
  assert (HM2 : has_shape rows cols M2).
  { destruct (decide (b ≠ 0)); [by eapply iadd2_shape|by injection H2 as <-]. }
  destruct (decide (a ≠ 0 /\ b ≠ 0)); [|by injection H as <-].
  apply bind_Ok_inv in H as (M3 & H3 & H).
  eapply isub2_shape; [|exact H]. by eapply isub2_shape.
Qed.

Lemma stamp_current_shape (rows cols : nat) (M M' : matrix) (C : component) :
  has_shape rows cols M -> stamp_current M C = Ok M' -> has_shape rows cols M'.
Proof.
  intros HM. unfold stamp_current.
  intros (a & _ & H)%bind_Ok_inv. apply bind_Ok_inv in H as (b & _ & H).
  apply bind_Ok_inv in H as (I & _ & H).
  apply bind_Ok_inv in H as (M1 & H1 & H).
  assert (HM1 : has_shape rows cols M1).
  { destruct (decide (a ≠ 0)); [by eapply isub2_shape|by injection H1 as <-]. }
  destruct (decide (b ≠ 0)); [by eapply iadd2_shape|by injection H as <-].
Qed.

Lemma stamp_voltage_shape (d : nat) (tn : Z) (sys sys' : matrix * matrix)
    (item : Z * component) :
  has_shape d d sys.1 /\ has_shape d 1 sys.2 ->
  stamp_voltage tn sys item = Ok sys' ->
  has_shape d d sys'.1 /\ has_shape d 1 sys'.2.
Proof.
  destruct sys as [M Mr], item as [i V]. simpl. intros [HM HMr].
  intros (a & _ & H)%bind_Ok_inv. apply bind_Ok_inv in H as (b & _ & H).
  apply bind_Ok_inv in H as (v & _ & H).
  apply bind_Ok_inv in H as (M1 & H1 & H).
  apply bind_Ok_inv in H as (M2 & H2 & H).
  apply bind_Ok_inv in H as (Mr1 & H3 & H). injection H as <-. simpl.
  assert (HM1 : has_shape d d M1).
  { destruct (decide (a ≠ 0)); [|by injection H1 as <-].
    apply bind_Ok_inv in H1 as (M' & H' & H1).
    eapply set2_shape; [|exact H1]. by eapply set2_shape. }
  split; [|by eapply set2_shape].
  destruct (decide (b ≠ 0)); [|by injection H2 as <-].
  apply bind_Ok_inv in H2 as (M' & H' & H2).
  eapply set2_shape; [|exact H2]. by eapply set2_shape.
Qed.

(** The assembled system is square, of size [node_count - 1] plus the number
    of voltage sources, with a one-column right-hand side. *)
Lemma matrix_formation_shape (Rs Vs Is : list component)
    (nm : gmap string Z) (nc : Z) (M Mr : matrix) :
  matrix_formation Rs Vs Is nm nc = Ok (M, Mr) ->
  let d := Z.to_nat (nc - 1 + Z.of_nat (length Vs)) in
  has_shape d d M /\ has_shape d 1 Mr.
Proof.
  intros H d. unfold matrix_formation in H.
  apply bind_Ok_inv in H as (M0 & HM0%np_zeros_shape & H).
  apply bind_Ok_inv in H as (Mr0 & HMr0%np_zeros_shape & H).
  apply bind_Ok_inv in H as (M1 & HM1 & H).
  apply bind_Ok_inv in H as (Mr1 & HMr1 & H).
  refine (for_each_invariant
            (fun sys => has_shape d d sys.1 /\ has_shape d 1 sys.2)
            _ _ _ (M1, Mr1) (M, Mr) _ H).
  { intros s x s'. apply stamp_voltage_shape. }
  simpl. split.
  - eapply (for_each_invariant (has_shape d d)); [|exact HM0|exact HM1].
    intros s x s'. apply stamp_resistor_shape.
  - eapply (for_each_invariant (has_shape d 1)); [|exact HMr0|exact HMr1].
    intros s x s'. apply stamp_current_shape.
Qed.

Lemma source_value_Ok (v : string) (x : float) :
  py_float v = Some x ->
  try_except (float_of v)
    (fun _ => Raise (TypeError "Malformed circuit file")) = Ok x.
Proof. intros Hv. unfold float_of. rewrite Hv. reflexivity. Qed.

Lemma extra_row_index (nc : Z) (nv i : nat) :
  1 <= nc -> (i < nv)%nat ->
  exists r, Z.of_nat r = extra_row nc i /\
            norm_index (system_size nc nv) (extra_row nc i) = Some r.
Proof.
  intros Hnc Hi. exists (Z.to_nat (extra_row nc i)).
  unfold extra_row, system_size. split; [lia|].
  apply norm_index_nonneg. lia.
Qed.

Lemma node_column (nc : Z) (nv : nat) (a : Z) :
  1 <= a < nc ->
  exists p, a = Z.of_nat p + 1 /\
            norm_index (system_size nc nv) (a - 1) = Some p.
Proof. intros Ha. apply node_row. unfold system_size. lia. Qed.


(** ** The parser, line by line *)

Lemma getitem_cons_0 {A} (x : A) (l : list A) : getitem (x :: l) 0 = Ok x.
Proof. exact (getitem_nat (x :: l) 0). Qed.

Lemma getitem_cons_S {A} (x : A) (l : list A) (k : nat) :
  getitem (x :: l) (Z.of_nat (S k)) = getitem l (Z.of_nat k).
Proof. rewrite !getitem_nat. reflexivity. Qed.

Lemma kind_letter_inj (k k' : kind) : kind_letter k = kind_letter k' -> k = k'.
Proof. destruct k, k'; simpl; intros H; first [reflexivity|discriminate H]. Qed.

Lemma starts_with_letter_unique (k k' : kind) (w : string) :
  starts_with_letter k w -> starts_with_letter k' w -> k = k'.
Proof.
  intros (c & r & -> & Hc) (c' & r' & [= <- <-] & Hc').
  apply kind_letter_inj. congruence.
Qed.

(** What the loop body does with a row of at least three tokens whose name
    begins with the letter of the kind [k]. *)
Lemma parse_element_eq (k : kind) (st : parse_state) (w0 w1 w2 : string)
    (rest : list string) :
  starts_with_letter k w0 ->
  parse_element st (w0 :: w1 :: w2 :: rest) =
  let '(i1, nm, nc) := mapping_nodes w1 (node_mapping st) (node_counter st) in
  let '(i2, nm, nc) := mapping_nodes w2 nm nc in
  if decide (w0 ∈ names_of k st) then Raise (duplicate_name k)
  else if (length (w0 :: w1 :: w2 :: rest) <? required_tokens k)%nat then
    Raise (insufficient_data k)
  else
    v ← getitem (w0 :: w1 :: w2 :: rest) (Z.of_nat (required_tokens k) - 1);
    Ok (record_element k (Component w0 (py_str i1) (py_str i2) v) nm nc st).
Proof.
  intros (c & r & -> & Hc). unfold parse_element.
  rewrite getitem_cons_0. cbn [mbind result_bind].
  change 1 with (Z.of_nat 1). change 2 with (Z.of_nat 2).
  rewrite !getitem_cons_S, !getitem_cons_0. cbn [mbind result_bind].
  destruct (mapping_nodes w1 (node_mapping st) (node_counter st))
    as [[i1 nm1] nc1].
  destruct (mapping_nodes w2 nm1 nc1) as [[i2 nm2] nc2].
  change (first_char (String c r)) with (Ok (A := ascii) c).
  cbn [mbind result_bind]. rewrite Hc. destruct k; simpl kind_letter; simpl names_of;
    simpl required_tokens; simpl duplicate_name; simpl insufficient_data.
  - rewrite decide_True by done. repeat case_decide; try done.
  - rewrite decide_False by done. rewrite decide_True by done.
    repeat case_decide; try done.
  - rewrite decide_False by done. rewrite decide_False by done.
    rewrite decide_True by done.
    repeat case_decide; try done.
Qed.

Lemma parse_line_circuit (st : parse_state) (l : string) :
  strip l = ".circuit" -> parse_line st l = Ok (set_Junk false st).
Proof. intros H. unfold parse_line. by rewrite decide_True. Qed.

Lemma parse_line_end (st : parse_state) (l : string) :
  strip l = ".end" -> parse_line st l = Ok (set_Junk true st).
Proof.
  intros H. unfold parse_line. rewrite H.
  rewrite decide_False by discriminate. by rewrite decide_True.
Qed.

Lemma parse_line_row (st : parse_state) (l : string) :
  ~ is_marker l -> Junk st = false ->
  parse_line st l =
  match split l with
  | [] => Ok st
  | words => parse_element st words
  end.
Proof.
  intros Hm Hj. unfold parse_line, is_marker in *.
  rewrite decide_False by tauto. rewrite decide_False by tauto.
  rewrite Hj. simpl. by destruct (split l).
Qed.

Lemma parse_line_junk (st : parse_state) (l : string) :
  ~ is_marker l -> Junk st = true -> parse_line st l = Ok st.
Proof.
  intros Hm Hj. unfold parse_line, is_marker in *.
  rewrite decide_False by tauto. rewrite decide_False by tauto.
  by rewrite Hj.
Qed.

Lemma set_Junk_same (st : parse_state) : set_Junk (Junk st) st = st.
Proof. by destruct st. Qed.

(** A row that is accepted has at least three tokens, a name of one of the
    three kinds that is new for its kind, and is recorded under that kind. *)
Lemma parse_element_Ok_inv (st st1 : parse_state) (words : list string) :
  parse_element st words = Ok st1 ->
  exists k w0 w1 w2 rest v i1 nm1 nc1 i2 nm2 nc2,
    words = w0 :: w1 :: w2 :: rest /\
    starts_with_letter k w0 /\ (w0 ∉ names_of k st) /\
    (required_tokens k <= length words)%nat /\
    mapping_nodes w1 (node_mapping st) (node_counter st) = (i1, nm1, nc1) /\
    mapping_nodes w2 nm1 nc1 = (i2, nm2, nc2) /\
    st1 = record_element k (Component w0 (py_str i1) (py_str i2) v) nm2 nc2 st.
Proof.
  destruct words as [|w0 [|w1 [|w2 rest]]].
  - discriminate.
  - unfold parse_element. rewrite getitem_cons_0. destruct w0; discriminate.
  - unfold parse_element. rewrite getitem_cons_0. destruct w0; discriminate.
  - destruct w0 as [|c r].
    { unfold parse_element. rewrite getitem_cons_0. discriminate. }
    assert (Hk : (exists k, upper c = kind_letter k) \/
                 parse_element st (String c r :: w1 :: w2 :: rest) =
                 Raise (ValueError "Only V, I, R elements are permitted")).
    { destruct (decide (upper c = "R"%char)); [left; by exists KResistor|].
      destruct (decide (upper c = "V"%char)); [left; by exists KVoltage|].
      destruct (decide (upper c = "I"%char)); [left; by exists KCurrent|].
      right. unfold parse_element. rewrite getitem_cons_0.
      cbn [mbind result_bind].
      change (first_char (String c r)) with (Ok (A := ascii) c).
      cbn [mbind result_bind].
      change 1 with (Z.of_nat 1). change 2 with (Z.of_nat 2).
      rewrite !getitem_cons_S, !getitem_cons_0. cbn [mbind result_bind].
      destruct (mapping_nodes w1 _ _) as [[i1 nm1] nc1].
      destruct (mapping_nodes w2 nm1 nc1) as [[i2 nm2] nc2].
      rewrite (decide_False (P := upper c = "R"%char)) by done.
      rewrite (decide_False (P := upper c = "V"%char)) by done.
      by rewrite (decide_False (P := upper c = "I"%char)) by done. }
    destruct Hk as [[k Hk]|Hk]; [|by rewrite Hk].
    assert (Hs : starts_with_letter k (String c r)) by (by exists c, r).
    rewrite (parse_element_eq k) by done.
    destruct (mapping_nodes w1 _ _) as [[i1 nm1] nc1] eqn:Hm1.
    destruct (mapping_nodes w2 nm1 nc1) as [[i2 nm2] nc2] eqn:Hm2.
    case_decide; [discriminate|].
    destruct (_ <? _)%nat eqn:Hlen; [discriminate|].
    apply Nat.ltb_ge in Hlen.
    intros (v & _ & [= <-])%bind_Ok_inv.
    by exists k, (String c r), w1, w2, rest, v, i1, nm1, nc1, i2, nm2, nc2.
Qed.

Lemma mapping_nodes_dom (w : string) (nm nm' : gmap string Z) (nc nc' i : Z) :
  mapping_nodes w nm nc = (i, nm', nc') -> dom nm' = {[ w ]} ∪ dom nm.
Proof.
  unfold mapping_nodes. destruct (nm !! w) as [j|] eqn:Hw; intros [= <- <- <-].
  - apply elem_of_dom_2 in Hw. set_solver.
  - apply dom_insert_L.
Qed.

Lemma mapping_nodes_range (w : string) (nm nm' : gmap string Z) (nc nc' i : Z) :
  mapping_nodes w nm nc = (i, nm', nc') ->
  indices_in_range nm nc -> indices_in_range nm' nc'.
Proof.
  unfold mapping_nodes, indices_in_range.
  destruct (nm !! w) as [j|] eqn:Hw; intros [= <- <- <-] [Hg Hr]; [done|].
  split.
  - rewrite lookup_insert_ne; [done|]. intros Heq. subst. congruence.
  - intros node j. rewrite lookup_insert. case_decide.
    + intros [= <-]. specialize (Hr _ _ Hg). lia.
    + intros Hj. specialize (Hr _ _ Hj). lia.
Qed.

Lemma names_of_record (k k' : kind) (c : component) (nm : gmap string Z)
    (nc : Z) (st : parse_state) :
  names_of k (record_element k' c nm nc st) =
  if decide (k = k') then {[ name c ]} ∪ names_of k st else names_of k st.
Proof. by destruct k, k'. Qed.

Lemma rows_not_marker (junk : bool) (lines : list string) :
  Forall (fun l => ~ is_marker l) (block_rows_from junk lines).
Proof.
  revert junk. induction lines as [|l lines IH]; intros junk; simpl; [done|].
  repeat case_decide; try apply IH.
  destruct junk; [apply IH|]. constructor; [|apply IH].
  unfold is_marker. tauto.
Qed.

(** What a row inside a block does to the state when it is accepted. *)
Lemma parse_row_inv (st st1 : parse_state) (row : string) :
  ~ is_marker row -> Junk st = false -> parse_line st row = Ok st1 ->
  Junk st1 = false /\
  ((split row = [] /\ st1 = st) \/
   exists k w0 w1 w2 rest v i1 nm1 nc1 i2 nm2 nc2,
     split row = w0 :: w1 :: w2 :: rest /\
     starts_with_letter k w0 /\ (w0 ∉ names_of k st) /\
     (required_tokens k <= length (split row))%nat /\
     mapping_nodes w1 (node_mapping st) (node_counter st) = (i1, nm1, nc1) /\
     mapping_nodes w2 nm1 nc1 = (i2, nm2, nc2) /\
     st1 = record_element k (Component w0 (py_str i1) (py_str i2) v) nm2 nc2 st).
Proof.
  intros Hm Hj. rewrite parse_line_row by done.
  destruct (split row) as [|w ws] eqn:Hsplit.
  - intros [= <-]. auto.
  - intros H. apply parse_element_Ok_inv in H
      as (k & w0 & w1 & w2 & rest & v & i1 & nm1 & nc1 & i2 & nm2 & nc2
          & Hw & Hk & Hnew & Hlen & Hm1 & Hm2 & ->).
    split; [exact Hj|]. right.
    rewrite Hw in *.
    by exists k, w0, w1, w2, rest, v, i1, nm1, nc1, i2, nm2, nc2.
Qed.

(** The parser reads a file as it reads the rows of its blocks alone. *)
Lemma parse_lines_rows (lines : list string) (st : parse_state) :
  close_block (for_each parse_line st lines) =
  close_block (for_each parse_line (set_Junk false st)
                 (block_rows_from (Junk st) lines)).
Proof.
  revert st. induction lines as [|l lines IH]; intros st; [done|].
  cbn [for_each block_rows_from].
  destruct (decide (strip l = ".circuit")) as [Hc|Hc].
  { rewrite parse_line_circuit by done. cbn [mbind result_bind].
    rewrite IH. by destruct st. }
  destruct (decide (strip l = ".end")) as [He|He].
  { rewrite parse_line_end by done. cbn [mbind result_bind].
    rewrite IH. by destruct st. }
  assert (Hm : ~ is_marker l) by (unfold is_marker; tauto).
  destruct (Junk st) eqn:Hj.
  { rewrite parse_line_junk by done. cbn [mbind result_bind].
    rewrite IH. by rewrite Hj. }
  cbn [for_each]. rewrite <- Hj, set_Junk_same.
  destruct (parse_line st l) as [st1|e] eqn:Hl; [|done].
  cbn [mbind result_bind].
  destruct (parse_row_inv _ _ _ Hm Hj Hl) as [Hj1 _].
  rewrite IH, Hj1. rewrite <- Hj1 at 1. by rewrite set_Junk_same, Hj.
Qed.

Lemma close_block_Ok_inv (r : result parse_state) (st : parse_state) :
  close_block r = Ok st -> exists st0, r = Ok st0 /\ st = set_Junk true st0.
Proof. destruct r as [st0|e]; [|discriminate]. intros [= <-]. eauto. Qed.

(** Induction over the rows of a successful run. *)
Lemma parse_rows_ind (Q : parse_state -> list string -> parse_state -> Prop) :
  (forall st, Q st [] st) ->
  (forall st row rows st1 st',
     ~ is_marker row -> Junk st = false -> parse_line st row = Ok st1 ->
     Junk st1 = false -> Q st1 rows st' -> Q st (row :: rows) st') ->
  forall rows st st',
    Forall (fun l => ~ is_marker l) rows -> Junk st = false ->
    for_each parse_line st rows = Ok st' -> Q st rows st'.
Proof.
  intros Hnil Hcons. induction rows as [|row rows IH]; intros st st' Hm Hj Hrun.
  - injection Hrun as <-. apply Hnil.
  - apply Forall_cons in Hm as [Hrow Hrows].
    simpl in Hrun. apply bind_Ok_inv in Hrun as (st1 & Hl & Hrun).
    destruct (parse_row_inv _ _ _ Hrow Hj Hl) as [Hj1 _].
    eapply Hcons; eauto.
Qed.

Lemma rows_names (rows : list string) (st st' : parse_state) :
  Forall (fun l => ~ is_marker l) rows -> Junk st = false ->
  for_each parse_line st rows = Ok st' ->
  forall k w,
    w ∈ names_of k st' <->
    w ∈ names_of k st \/
    (starts_with_letter k w /\ exists r, r ∈ rows /\ row_name r = Some w).
Proof.
  revert rows st st'. apply (parse_rows_ind (fun st rows st' => forall k w,
    w ∈ names_of k st' <->
    w ∈ names_of k st \/
    (starts_with_letter k w /\ exists r, r ∈ rows /\ row_name r = Some w))).
  - intros st k w. split; [auto|]. intros [H|(_ & r & Hr & _)]; [done|].
    by apply elem_of_nil in Hr.
  - intros st row rows st1 st' Hm Hj Hl Hj1 IH k w. rewrite IH. clear IH.
    destruct (parse_row_inv _ _ _ Hm Hj Hl) as [_ [[Hsplit ->]|H]].
    + split; [intros [H|(Hk & r & Hr & Hn)]|intros [H|(Hk & r & Hr & Hn)]];
        auto; right; (split; [done|]).
      * exists r. split; [by apply list_elem_of_further|done].
      * apply elem_of_cons in Hr as [->|Hr]; [|by exists r].
        unfold row_name in Hn. by rewrite Hsplit in Hn.
    + destruct H as (k' & w0 & w1 & w2 & rest & v & i1 & nm1 & nc1 & i2 & nm2
                     & nc2 & Hsplit & Hk' & Hnew & Hlen & Hm1 & Hm2 & ->).
      rewrite names_of_record. simpl name.
      assert (Hrow : row_name row = Some w0).
      { unfold row_name. by rewrite Hsplit. }
      split.
      * intros [H|(Hk & r & Hr & Hn)].
        -- case_decide as Hkk; [|auto]. subst k'.
           apply elem_of_union in H as [->%elem_of_singleton|H]; [|auto].
           right. split; [done|]. exists row. split; [left|done].
        -- right. split; [done|]. exists r. split; [by right|done].
      * intros [H|(Hk & r & Hr & Hn)].
        -- left. case_decide; [set_solver|done].
        -- apply elem_of_cons in Hr as [->|Hr].
           ++ left. rewrite Hrow in Hn. injection Hn as <-.
              rewrite (starts_with_letter_unique _ _ _ Hk Hk').
              rewrite decide_True by done. set_solver.
           ++ right. split; [done|]. by exists r.
Qed.

Lemma rows_dom (rows : list string) (st st' : parse_state) :
  Forall (fun l => ~ is_marker l) rows -> Junk st = false ->
  for_each parse_line st rows = Ok st' ->
  dom (node_mapping st') =
  dom (node_mapping st) ∪ list_to_set (rows ≫= row_nodes).
Proof.
  revert rows st st'. apply (parse_rows_ind (fun st rows st' =>
    dom (node_mapping st') =
    dom (node_mapping st) ∪ list_to_set (rows ≫= row_nodes))).
  - intros st. simpl. set_solver.
  - intros st row rows st1 st' Hm Hj Hl Hj1 IH. rewrite IH. clear IH.
    rewrite bind_cons, list_to_set_app_L.
    destruct (parse_row_inv _ _ _ Hm Hj Hl) as [_ [[Hsplit ->]|H]].
    + unfold row_nodes. rewrite Hsplit. set_solver.
    + destruct H as (k' & w0 & w1 & w2 & rest & v & i1 & nm1 & nc1 & i2 & nm2
                     & nc2 & Hsplit & Hk' & Hnew & Hlen & Hm1 & Hm2 & ->).
      unfold row_nodes. rewrite Hsplit. simpl node_mapping.
      rewrite (mapping_nodes_dom _ _ _ _ _ _ Hm2).
      rewrite (mapping_nodes_dom _ _ _ _ _ _ Hm1). set_solver.
Qed.

Lemma rows_range (rows : list string) (st st' : parse_state) :
  Forall (fun l => ~ is_marker l) rows -> Junk st = false ->
  for_each parse_line st rows = Ok st' ->
  indices_in_range (node_mapping st) (node_counter st) ->
  indices_in_range (node_mapping st') (node_counter st').
Proof.
  revert rows st st'. apply (parse_rows_ind (fun st rows st' =>
    indices_in_range (node_mapping st) (node_counter st) ->
    indices_in_range (node_mapping st') (node_counter st'))).
  - done.
  - intros st row rows st1 st' Hm Hj Hl Hj1 IH Hst. apply IH. clear IH.
    destruct (parse_row_inv _ _ _ Hm Hj Hl) as [_ [[Hsplit ->]|H]]; [done|].
    destruct H as (k' & w0 & w1 & w2 & rest & v & i1 & nm1 & nc1 & i2 & nm2
                   & nc2 & Hsplit & Hk' & Hnew & Hlen & Hm1 & Hm2 & ->).
    simpl. eapply mapping_nodes_range; [exact Hm2|].
    eapply mapping_nodes_range; [exact Hm1|done].
Qed.

(** A successful run over a file is a successful run over the rows of its
    blocks, with the same state but for the flag. *)
Lemma file_run_rows (lines : list string) (st st' : parse_state) :
  for_each parse_line st lines = Ok st' ->
  exists st0,
    for_each parse_line (set_Junk false st) (block_rows_from (Junk st) lines)
    = Ok st0 /\ set_Junk true st0 = set_Junk true st'.
Proof.
  intros Hrun. pose proof (parse_lines_rows lines st) as H.
  rewrite Hrun in H. simpl in H. symmetry in H.
  apply close_block_Ok_inv in H as (st0 & H0 & Heq). eauto.
Qed.

Lemma set_Junk_fields (b : bool) (st1 st2 : parse_state) :
  set_Junk b st1 = set_Junk b st2 ->
  node_mapping st1 = node_mapping st2 /\ node_counter st1 = node_counter st2 /\
  Resistors st1 = Resistors st2 /\ Voltage_sources st1 = Voltage_sources st2 /\
  Current_sources st1 = Current_sources st2 /\
  forall k, names_of k st1 = names_of k st2.
Proof.
  destruct st1, st2. unfold set_Junk. simpl. intros [= -> -> -> -> -> -> -> ->].
  repeat split.
Qed.

Lemma parsed_names (lines : list string) (st : parse_state) (k : kind)
    (w : string) :
  for_each parse_line initial_state lines = Ok st ->
  w ∈ names_of k st <-> starts_with_letter k w /\ name_used w lines.
Proof.
  intros (st0 & Hrows & Heq)%file_run_rows.
  apply set_Junk_fields in Heq as (_ & _ & _ & _ & _ & Hnames).
  rewrite <- Hnames.
  rewrite (rows_names _ (set_Junk false initial_state) _
             (rows_not_marker _ _) eq_refl Hrows).
  unfold name_used, block_rows. simpl Junk.
  split; [intros [H|H]; [|done]|by right].
  destruct k; by apply elem_of_empty in H.
Qed.

Lemma parsed_dom (lines : list string) (st : parse_state) :
  for_each parse_line initial_state lines = Ok st ->
  dom (node_mapping st) = netlist_nodes lines.
Proof.
  intros (st0 & Hrows & Heq)%file_run_rows.
  apply set_Junk_fields in Heq as (<- & _).
  rewrite (rows_dom _ (set_Junk false initial_state) _
             (rows_not_marker _ _) eq_refl Hrows).
  unfold netlist_nodes, block_rows. simpl. by rewrite dom_singleton_L.
Qed.

Lemma parsed_range (lines : list string) (st : parse_state) :
  for_each parse_line initial_state lines = Ok st ->
  indices_in_range (node_mapping st) (node_counter st).
Proof.
  intros (st0 & Hrows & Heq)%file_run_rows.
  apply set_Junk_fields in Heq as (<- & <- & _).
  apply (rows_range _ (set_Junk false initial_state) _
           (rows_not_marker _ _) eq_refl Hrows).
  split; [done|]. simpl. intros node i.
  rewrite lookup_singleton_Some. intros [_ <-]. lia.
Qed.

(** ** The presence scans *)

Lemma count_not_cons (marker l : string) (lines : list string) :
  count_not marker (l :: lines) =
  if decide (strip l = marker) then count_not marker lines
  else S (count_not marker lines).
Proof.
  unfold count_not. rewrite filter_cons.
  destruct (decide (strip l = marker)).
  - by rewrite decide_False by tauto.
  - by rewrite decide_True.
Qed.

Lemma count_not_le (marker : string) (lines : list string) :
  (count_not marker lines <= length lines)%nat.
Proof. apply length_filter. Qed.

Lemma count_not_all (marker : string) (lines : list string) :
  count_not marker lines = length lines <-> ~ has_marker marker lines.
Proof.
  unfold has_marker. induction lines as [|l lines IH].
  - split; [|done]. intros _ (l & Hl & _). by apply elem_of_nil in Hl.
  - rewrite count_not_cons. pose proof (count_not_le marker lines).
    case_decide as Hl; simpl.
    + split; [lia|]. intros H'. exfalso. apply H'. exists l. split; [left|done].
    + split.
      * intros [= Hc]. apply IH in Hc. intros (l' & Hin & Hs).
        apply elem_of_cons in Hin as [->|Hin]; [done|]. apply Hc. eauto.
      * intros Hno. f_equal. apply IH. intros (l' & Hin & Hs).
        apply Hno. exists l'. split; [by right|done].
Qed.

Lemma parsing_marked (lines : list string) :
  has_marker ".circuit" lines -> has_marker ".end" lines ->
  parsing (Some lines) =
  st ← for_each parse_line initial_state lines;
  Ok (Resistors st, Voltage_sources st, Current_sources st,
      node_mapping st, node_counter st).
Proof.
  intros Hc He. unfold parsing.
  rewrite decide_False by (rewrite count_not_all; tauto).
  rewrite decide_False by (rewrite count_not_all; tauto). done.
Qed.

Lemma has_marker_app (marker : string) (l1 l2 : list string) :
  has_marker marker (l1 ++ l2) <-> has_marker marker l1 \/ has_marker marker l2.
Proof.
  unfold has_marker. split.
  - intros (l & [H|H]%elem_of_app & Hs); eauto.
  - intros [(l & H & Hs)|(l & H & Hs)]; exists l; rewrite elem_of_app; auto.
Qed.

Lemma has_marker_cons (marker l : string) (lines : list string) :
  has_marker marker (l :: lines) <-> strip l = marker \/ has_marker marker lines.
Proof.
  unfold has_marker. split.
  - intros (l' & [->|H]%elem_of_cons & Hs); eauto.
  - intros [H|(l' & H & Hs)]; [exists l|exists l']; rewrite elem_of_cons; auto.
Qed.

(** A run that starts outside a block and ends inside one has met a
    [.circuit] line. *)
Lemma in_block_opened (pre : list string) (st0 st : parse_state) :
  for_each parse_line st0 pre = Ok st -> Junk st0 = true -> Junk st = false ->
  has_marker ".circuit" pre.
Proof.
  revert st0. induction pre as [|l pre IH]; intros st0 Hrun Hj0 Hj.
  - injection Hrun as <-. congruence.
  - rewrite has_marker_cons.
    destruct (decide (strip l = ".circuit")) as [Hc|Hc]; [by left|right].
    simpl in Hrun. apply bind_Ok_inv in Hrun as (st1 & Hl & Hrun).
    apply (IH st1); [done| |done].
    destruct (decide (strip l = ".end")) as [He|He].
    + rewrite parse_line_end in Hl by done. by injection Hl as <-.
    + rewrite parse_line_junk in Hl; [by injection Hl as <-| |done].
      unfold is_marker. tauto.
Qed.

Lemma parsing_raises_at (pre post : list string) (row : string)
    (st : parse_state) (e : exception) :
  for_each parse_line initial_state pre = Ok st -> Junk st = false ->
  ~ is_marker row -> has_marker ".end" (pre ++ post) ->
  parse_line st row = Raise e ->
  parsing (Some (pre ++ row :: post)) = Raise e.
Proof.
  intros Hpre Hj Hm Hend Hrow.
  rewrite parsing_marked.
  - rewrite for_each_app, Hpre. simpl. by rewrite Hrow.
  - apply has_marker_app. left. by eapply in_block_opened.
  - apply has_marker_app. rewrite has_marker_cons.
    apply has_marker_app in Hend. tauto.
Qed.

(** ** Stripping and splitting *)

Lemma append_cons (x : ascii) (a b : string) :
  String x a +:+ b = String x (a +:+ b).
Proof. reflexivity. Qed.

Lemma append_assoc_str (a b c : string) : (a +:+ b) +:+ c = a +:+ (b +:+ c).
Proof.
  induction a as [|x a IH]; [done|]. by rewrite !append_cons, IH.
Qed.

Lemma append_empty_r (a : string) : a +:+ "" = a.
Proof. induction a as [|x a IH]; [done|]. by rewrite append_cons, IH. Qed.

Lemma rev_app_append (s acc : string) :
  String.rev_app s acc = String.rev s +:+ acc.
Proof.
  unfold String.rev. revert acc. induction s as [|c s IH]; intros acc; simpl.
  - done.
  - rewrite (IH (String c acc)), (IH (String c "")).
    by rewrite append_assoc_str.
Qed.

Lemma rev_cons (c : ascii) (s : string) :
  String.rev (String c s) = String.rev s +:+ String c "".
Proof. unfold String.rev at 1. simpl. apply rev_app_append. Qed.

Lemma rev_append (a b : string) :
  String.rev (a +:+ b) = String.rev b +:+ String.rev a.
Proof.
  induction a as [|c a IH].
  - by rewrite append_empty_r.
  - by rewrite append_cons, !rev_cons, IH, append_assoc_str.
Qed.

Lemma rev_involutive (s : string) : String.rev (String.rev s) = s.
Proof.
  induction s as [|c s IH]; [done|].
  by rewrite rev_cons, rev_append, IH.
Qed.

Lemma split_lstrip (s : string) : split (lstrip s) = split s.
Proof.
  unfold split. induction s as [|c s IH]; simpl; [done|].
  destruct (isspace c) eqn:Hc; [exact IH|]. simpl. by rewrite Hc.
Qed.

Lemma split_aux_trailing_space (cur s : string) (c : ascii) :
  isspace c = true -> split_aux cur (s +:+ String c "") = split_aux cur s.
Proof.
  intros Hc. revert cur. induction s as [|x s IH]; intros cur.
  - simpl. rewrite Hc. apply app_nil_r.
  - rewrite append_cons. simpl. destruct (isspace x); by rewrite IH.
Qed.

Lemma split_rev_lstrip (t : string) :
  split (String.rev (lstrip t)) = split (String.rev t).
Proof.
  induction t as [|c t IH]; simpl; [done|].
  destruct (isspace c) eqn:Hc; [|done].
  rewrite rev_cons. unfold split at 2.
  by rewrite split_aux_trailing_space.
Qed.

(** Splitting ignores the whitespace that [strip] removes. *)
Lemma split_strip (s : string) : split (strip s) = split s.
Proof.
  unfold strip, rstrip. rewrite split_rev_lstrip, rev_involutive.
  apply split_lstrip.
Qed.

(** A marker line has one token. *)
Lemma marker_one_token (line : string) :
  is_marker line -> length (split line) = 1%nat.
Proof. intros [H|H]; rewrite <- split_strip, H; reflexivity. Qed.

Lemma row_not_marker (row w0 w1 : string) (rest : list string) :
  split row = w0 :: w1 :: rest -> ~ is_marker row.
Proof. intros Hsplit Hm%marker_one_token. by rewrite Hsplit in Hm. Qed.

(** ** Printing an index and reading it back *)

Lemma scan_digits_step (c : ascii) (s' : string) (k : Z) :
  digit_val c = Some k ->
  (forall s'', s' <> String "_"%char s'') ->
  scan_digits (String c s') = (k :: (scan_digits s').1, (scan_digits s').2).
Proof.
  intros Hc Hs. cbn [scan_digits]. rewrite Hc.
  destruct s' as [|c' s'']; [done|].
  destruct c' as [[] [] [] [] [] [] [] []];
    try (by destruct (scan_digits (String _ s'')));
    by destruct (Hs s'').
Qed.

Lemma scan_digits_uint (d : Decimal.uint) :
  scan_digits (NilEmpty.string_of_uint d) = (uint_digits d, "").
Proof.
  induction d as [|d IH|d IH|d IH|d IH|d IH|d IH|d IH|d IH|d IH|d IH];
    [done|..];
    cbn [NilEmpty.string_of_uint uint_digits];
    (erewrite scan_digits_step; [by rewrite IH|reflexivity|by destruct d]).
Qed.

Lemma digits_value_revapp (d e : Decimal.uint) :
  foldl (fun acc x => 10 * acc + x) (Z.of_N (DecimalPos.Unsigned.of_lu e))
        (uint_digits d)
  = Z.of_N (DecimalPos.Unsigned.of_lu (Decimal.revapp d e)).
Proof.
  revert e.
  induction d as [|d IH|d IH|d IH|d IH|d IH|d IH|d IH|d IH|d IH|d IH];
    intros e; [done|..];
    cbn [uint_digits foldl Decimal.revapp]; rewrite <- IH; f_equal;
    cbn [DecimalPos.Unsigned.of_lu]; lia.
Qed.

Lemma digits_value_uint (d : Decimal.uint) :
  digits_value (uint_digits d) = Z.of_uint d.
Proof.
  unfold digits_value, Z.of_uint.
  rewrite DecimalPos.Unsigned.of_uint_alt.
  exact (digits_value_revapp d Decimal.Nil).
Qed.

Lemma to_int_nonneg (z : Z) :
  0 <= z ->
  exists d, Z.to_int z = Decimal.Pos d /\ d <> Decimal.Nil /\ Z.of_uint d = z.
Proof.
  destruct z as [|p|p]; intros Hz; [| |lia].
  - exists Decimal.zero. done.
  - exists (Pos.to_uint p). split; [done|].
    split; [apply DecimalPos.Unsigned.to_uint_nonnil|].
    unfold Z.of_uint. by rewrite DecimalPos.Unsigned.of_to.
Qed.

Lemma all_chars_app (P : ascii -> bool) (a b : string) :
  all_chars P (a +:+ b) = all_chars P a && all_chars P b.
Proof.
  induction a as [|c a IH]; [done|].
  rewrite append_cons. simpl. by rewrite IH, andb_assoc.
Qed.

Lemma all_chars_rev (P : ascii -> bool) (s : string) :
  all_chars P (String.rev s) = all_chars P s.
Proof.
  induction s as [|c s IH]; [done|].
  rewrite rev_cons, all_chars_app, IH. simpl.
  by rewrite andb_true_r, andb_comm.
Qed.

Lemma all_chars_impl (P Q : ascii -> bool) (s : string) :
  (forall c, P c = true -> Q c = true) ->
  all_chars P s = true -> all_chars Q s = true.
Proof.
  intros HPQ. induction s as [|c s IH]; simpl; [done|].
  intros [Hc Hs]%andb_true_iff. by rewrite (HPQ c Hc), IH.
Qed.

Lemma lstrip_no_space (s : string) :
  all_chars (fun c => negb (isspace c)) s = true -> lstrip s = s.
Proof.
  destruct s as [|c s]; simpl; [done|].
  intros [Hc _]%andb_true_iff. by apply negb_true_iff in Hc as ->.
Qed.

Lemma strip_no_space (s : string) :
  all_chars (fun c => negb (isspace c)) s = true -> strip s = s.
Proof.
  intros Hs. unfold strip, rstrip. rewrite (lstrip_no_space s Hs).
  rewrite lstrip_no_space by (by rewrite all_chars_rev).
  apply rev_involutive.
Qed.

Lemma digit_not_space (c : ascii) : is_digit c = true -> negb (isspace c) = true.
Proof. destruct c as [[] [] [] [] [] [] [] []]; by vm_compute. Qed.

Lemma string_of_uint_digits (d : Decimal.uint) :
  all_chars is_digit (NilEmpty.string_of_uint d) = true.
Proof. induction d; simpl; done. Qed.

(** [int(str(z))] is [z] for an index. *)
Lemma py_int_py_str (z : Z) : 0 <= z -> py_int (py_str z) = Some z.
Proof.
  intros (d & Hd & Hnil & Hz)%to_int_nonneg.
  unfold py_int, py_str. rewrite Hd. simpl NilZero.string_of_int.
  assert (Hs : NilZero.string_of_uint d = NilEmpty.string_of_uint d)
    by (by destruct d).
  rewrite Hs, strip_no_space.
  2: { eapply all_chars_impl; [apply digit_not_space|].
       apply string_of_uint_digits. }
  assert (Hsign : scan_sign (NilEmpty.string_of_uint d)
                  = (false, NilEmpty.string_of_uint d)) by (by destruct d).
  rewrite Hsign, scan_digits_uint.
  destruct (uint_digits d) as [|x ds] eqn:Hds; [by destruct d|].
  by rewrite <- Hds, digits_value_uint, Hz.
Qed.

(** ** The components the parser hands to the builder *)

Lemma mapping_nodes_index (w : string) (nm nm' : gmap string Z)
    (nc nc' i : Z) :
  mapping_nodes w nm nc = (i, nm', nc') -> indices_in_range nm nc ->
  0 <= i < nc' /\ nc <= nc'.
Proof.
  unfold mapping_nodes. intros H [Hg Hr].
  destruct (nm !! w) as [j|] eqn:Hw; injection H as <- <- <-.
  - specialize (Hr _ _ Hw). lia.
  - specialize (Hr _ _ Hg). lia.
Qed.

Lemma component_indexed_mono (nc nc' : Z) (c : component) :
  nc <= nc' -> component_indexed nc c -> component_indexed nc' c.
Proof.
  intros Hle (a & b & Ha & Hb & Hra & Hrb). exists a, b.
  repeat split; try done; lia.
Qed.

Lemma all_components_record (k : kind) (c x : component)
    (nm : gmap string Z) (nc : Z) (st : parse_state) :
  x ∈ all_components (record_element k c nm nc st) ->
  x ∈ all_components st \/ x = c.
Proof.
  unfold all_components. destruct k; simpl; set_solver.
Qed.

Lemma rows_components (rows : list string) (st st' : parse_state) :
  Forall (fun l => ~ is_marker l) rows -> Junk st = false ->
  for_each parse_line st rows = Ok st' ->
  indices_in_range (node_mapping st) (node_counter st) ->
  Forall (component_indexed (node_counter st)) (all_components st) ->
  Forall (component_indexed (node_counter st')) (all_components st').
Proof.
  revert rows st st'. apply (parse_rows_ind (fun st rows st' =>
    indices_in_range (node_mapping st) (node_counter st) ->
    Forall (component_indexed (node_counter st)) (all_components st) ->
    Forall (component_indexed (node_counter st')) (all_components st'))).
  - done.
  - intros st row rows st1 st' Hm Hj Hl Hj1 IH Hrange Hcomp.
    destruct (parse_row_inv _ _ _ Hm Hj Hl) as [_ [[Hsplit ->]|H]]; [auto|].
    destruct H as (k' & w0 & w1 & w2 & rest & v & i1 & nm1 & nc1 & i2 & nm2
                   & nc2 & Hsplit & Hk' & Hnew & Hlen & Hm1 & Hm2 & ->).
    pose proof (mapping_nodes_range _ _ _ _ _ _ Hm1 Hrange) as Hrange1.
    pose proof (mapping_nodes_range _ _ _ _ _ _ Hm2 Hrange1) as Hrange2.
    destruct (mapping_nodes_index _ _ _ _ _ _ Hm1 Hrange) as [Hi1 Hle1].
    destruct (mapping_nodes_index _ _ _ _ _ _ Hm2 Hrange1) as [Hi2 Hle2].
    apply IH; [exact Hrange2|]. simpl node_counter.
    apply Forall_forall. intros x [Hx| ->]%all_components_record.
    + apply (component_indexed_mono (node_counter st)); [lia|].
      rewrite Forall_forall in Hcomp. auto.
    + exists i1, i2. simpl.
      rewrite !py_int_py_str by lia. repeat split; try done; lia.
Qed.

(** Every component of a parsed netlist has terminals that read back as node
    indices below the node count. *)
Lemma parsed_components_indexed (lines : list string) (st : parse_state) :
  for_each parse_line initial_state lines = Ok st ->
  Forall (component_indexed (node_counter st)) (all_components st).
Proof.
  intros (st0 & Hrows & Heq)%file_run_rows.
  apply set_Junk_fields in Heq as (_ & <- & HR & HV & HI & _).
  unfold all_components. rewrite <- HR, <- HV, <- HI.
  apply (rows_components _ (set_Junk false initial_state) _
           (rows_not_marker _ _) eq_refl Hrows).
  - split; [done|]. simpl. intros node i.
    rewrite lookup_singleton_Some. intros [_ <-]. lia.
  - constructor.
Qed.

(** The loop body is run on every item of a loop that completes. *)
Lemma for_each_visits {A S} (P : S -> Prop) (body : S -> A -> result S)
    (items : list A) (s s' : S) (i : nat) (x : A) :
  (forall s x s', P s -> body s x = Ok s' -> P s') ->
  P s -> for_each body s items = Ok s' -> items !! i = Some x ->
  exists s0 s1, P s0 /\ body s0 x = Ok s1.
Proof.
  intros Hbody. revert s i.
  induction items as [|y items IH]; intros s i Hs Hrun Hi; [done|].
  simpl in Hrun. apply bind_Ok_inv in Hrun as (s1 & Hy & Hrun).
  destruct i as [|i]; simpl in Hi.
  - injection Hi as ->. eauto.
  - eapply (IH s1); eauto.
Qed.

(** ** Rows that are too short, and repeated names *)

Lemma value_token_present (k : kind) (words : list string) :
  (required_tokens k <= length words)%nat ->
  exists v, getitem words (Z.of_nat (required_tokens k) - 1) = Ok v.
Proof.
  intros Hlen.
  replace (Z.of_nat (required_tokens k) - 1)
    with (Z.of_nat (required_tokens k - 1)) by (destruct k; simpl; lia).
  rewrite getitem_nat.
  destruct (lookup_lt_is_Some_2 words (required_tokens k - 1)) as [v ->];
    [destruct k; simpl in *; lia|eauto].
Qed.

(** X19. A row inside a block that the parser reaches, whose name begins
    with R, V or I (in either case) and which has at least three tokens but
    fewer than its kind requires (four for a resistor, five for a source),
    makes [parsing] fail: with the insufficient-data error of its kind when
    its name has not been used by an earlier row, and with the
    duplicate-name error of its kind when it has, since the name is checked
    before the number of tokens. *)
Theorem short_row_rejected (k : kind) (pre post : list string) (row : string)
    (st : parse_state) (w0 w1 w2 : string) (rest : list string) :
  for_each parse_line initial_state pre = Ok st -> Junk st = false ->
  has_marker ".end" (pre ++ post) ->
  split row = w0 :: w1 :: w2 :: rest -> starts_with_letter k w0 ->
  (length (split row) < required_tokens k)%nat ->
  (~ name_used w0 pre ->
   parsing (Some (pre ++ row :: post)) = Raise (insufficient_data k)) /\
  (name_used w0 pre ->
   parsing (Some (pre ++ row :: post)) = Raise (duplicate_name k)).
Proof.
  intros Hpre Hj Hend Hsplit Hk Hlen.
  pose proof (row_not_marker _ _ _ _ Hsplit) as Hm.
  pose proof (parsed_names pre st k w0 Hpre) as Hnames.
  assert (Hrow : parse_line st row =
                 Raise (if decide (w0 ∈ names_of k st) then duplicate_name k
                        else insufficient_data k)).
  { rewrite parse_line_row by done. rewrite Hsplit in *.
    rewrite (parse_element_eq k) by done.
    destruct (mapping_nodes w1 _ _) as [[i1 nm1] nc1].
    destruct (mapping_nodes w2 nm1 nc1) as [[i2 nm2] nc2].
    case_decide; [done|].
    apply Nat.ltb_lt in Hlen. by rewrite Hlen. }
  split; intros Hused.
  - rewrite decide_False in Hrow by tauto. by eapply parsing_raises_at.
  - rewrite decide_True in Hrow by tauto. by eapply parsing_raises_at.
Qed.

(** C6. A row of at least three tokens whose name begins with the letter of
    the kind [k] raises the duplicate-name error of [k] exactly when its name
    is among the names recorded for [k], that is, when an earlier row of the
    blocks carries the same name token; the names recorded for the other two
    kinds play no part. In that case [parsing] fails with that error: two
    resistors named alike are rejected. *)
Theorem duplicate_name_rejected (k : kind) (pre post : list string)
    (row : string) (st : parse_state) (w0 w1 w2 : string)
    (rest : list string) :
  for_each parse_line initial_state pre = Ok st -> Junk st = false ->
  has_marker ".end" (pre ++ post) ->
  split row = w0 :: w1 :: w2 :: rest -> starts_with_letter k w0 ->
  (parse_line st row = Raise (duplicate_name k) <-> w0 ∈ names_of k st) /\
  (w0 ∈ names_of k st <-> name_used w0 pre) /\
  (name_used w0 pre ->
   parsing (Some (pre ++ row :: post)) = Raise (duplicate_name k)).
Proof.
  intros Hpre Hj Hend Hsplit Hk.
  pose proof (row_not_marker _ _ _ _ Hsplit) as Hm.
  pose proof (parsed_names pre st k w0 Hpre) as Hnames.
  assert (Hrow : parse_line st row = Raise (duplicate_name k) <->
                 w0 ∈ names_of k st).
  { rewrite parse_line_row by done. rewrite Hsplit.
    rewrite (parse_element_eq k) by done.
    destruct (mapping_nodes w1 _ _) as [[i1 nm1] nc1].
    destruct (mapping_nodes w2 nm1 nc1) as [[i2 nm2] nc2].
    case_decide as Hin; [done|]. split; [|done].
    destruct (_ <? _)%nat eqn:Hlen.
    - destruct k; simpl; intros H; discriminate H.
    - apply Nat.ltb_ge in Hlen.
      destruct (value_token_present k _ Hlen) as [v ->]. discriminate. }
  split; [exact Hrow|]. split; [tauto|].
  intros Hused. eapply parsing_raises_at; try done. apply Hrow. tauto.
Qed.

(** ** Several blocks *)


(** ** The solver returns one value per equation *)

Lemma lu_reduce_length (n : nat) (rows U : list aug_row) :
  lu_reduce n rows = Some U -> length U = n.
Proof.
  revert rows U. induction n as [|n IH]; intros rows U; simpl.
  - by intros [= <-].
  - destruct (swap_rows _ _ _) as [|prow rest]; [discriminate|].
    destruct (head_coeff prow =? 0)%float; [discriminate|].
    destruct (lu_reduce n _) as [U'|] eqn:HU; [|discriminate].
    simpl. intros [= <-]. simpl. f_equal. by eapply IH.
Qed.

Lemma back_subst_length (U : list aug_row) :
  length (back_subst U) = length U.
Proof. induction U as [|row U IH]; simpl; [done|]. by rewrite IH. Qed.

Lemma np_linalg_solve_length (a b x : matrix) :
  np_linalg_solve a b = Ok x -> length x = length a.
Proof.
  unfold np_linalg_solve.
  destruct (lu_reduce _ _) as [U|] eqn:HU; [|discriminate].
  intros [= <-]. rewrite length_fmap, back_subst_length.
  by eapply lu_reduce_length.
Qed.

(** ** The result dictionaries *)

Lemma voltage_loop_ground (solution : matrix) (items : list (string * Z))
    (v0 v : gmap string pynum) :
  for_each (voltage_step solution) v0 items = Ok v ->
  v0 !! "GND" = Some (PyInt 0) \/ "GND" ∈ items.*1 ->
  v !! "GND" = Some (PyInt 0).
Proof.
  revert v0. induction items as [|[node i] items IH]; intros v0 Hrun Hg.
  - injection Hrun as <-. destruct Hg as [Hg|Hg]; [done|].
    by apply elem_of_nil in Hg.
  - simpl in Hrun. apply bind_Ok_inv in Hrun as (v1 & Hstep & Hrun).
    apply (IH v1 Hrun). unfold voltage_step in Hstep.
    destruct (decide (node = "GND")) as [->|Hne].
    + injection Hstep as <-. left. apply lookup_insert_eq.
    + assert (Hkeep : v1 !! "GND" = v0 !! "GND").
      { destruct (i <=? _); [|by injection Hstep as <-].
        apply bind_Ok_inv in Hstep as (x & _ & [= <-]).
        by apply lookup_insert_ne. }
      rewrite Hkeep. destruct Hg as [Hg|Hg]; [by left|right].
      rewrite fmap_cons in Hg. apply elem_of_cons in Hg as [Hg|Hg]; [|done].
      simpl in Hg. congruence.
Qed.

Lemma voltage_loop_dom (solution : matrix) (items : list (string * Z))
    (v0 v : gmap string pynum) :
  for_each (voltage_step solution) v0 items = Ok v ->
  (forall node i, (node, i) ∈ items ->
                  node = "GND" \/ i <= Z.of_nat (length solution)) ->
  dom v = dom v0 ∪ list_to_set items.*1.
Proof.
  revert v0. induction items as [|[node i] items IH]; intros v0 Hrun Hin.
  - injection Hrun as <-. simpl. set_solver.
  - simpl in Hrun. apply bind_Ok_inv in Hrun as (v1 & Hstep & Hrun).
    rewrite (IH v1 Hrun).
    2: { intros node' i' H'. apply Hin. by right. }
    assert (Hv1 : dom v1 = {[ node ]} ∪ dom v0).
    { unfold voltage_step in Hstep.
      destruct (decide (node = "GND")) as [->|Hne].
      - injection Hstep as <-. apply dom_insert_L.
      - destruct (Hin node i) as [?|Hle]; [left|done|].
        apply Z.leb_le in Hle. rewrite Hle in Hstep.
        apply bind_Ok_inv in Hstep as (x & _ & [= <-]). apply dom_insert_L. }
    rewrite Hv1. rewrite fmap_cons. simpl. set_solver.
Qed.

(** The stages of a successful evaluation. *)
Lemma evalSpice_Ok_inv (file : option (list string))
    (voltages currents : gmap string pynum) :
  evalSpice file = Ok (voltages, currents) ->
  exists lines st M Mr solution,
    file = Some lines /\
    for_each parse_line initial_state lines = Ok st /\
    matrix_formation (Resistors st) (Voltage_sources st) (Current_sources st)
      (node_mapping st) (node_counter st) = Ok (M, Mr) /\
    np_linalg_solve M Mr = Ok solution /\
    for_each (voltage_step solution) ∅ (map_to_list (node_mapping st))
    = Ok voltages.
Proof.
  unfold evalSpice. intros H.
  apply bind_Ok_inv in H as ([[[[Rs Vs] Is] nm] nc] & Hparse & H).
  apply bind_Ok_inv in H as ([M Mr] & Hform & H).
  apply bind_Ok_inv in H as (solution & Hsolve & H).
  apply bind_Ok_inv in H as (v & Hv & H).
  apply bind_Ok_inv in H as ([c idx] & Hc & H). injection H as -> ->.
  destruct file as [lines|]; [|discriminate].
  unfold parsing in Hparse. repeat case_decide; try discriminate.
  apply bind_Ok_inv in Hparse as (st & Hst & [= <- <- <- <- <-]).
  exists lines, st, M, Mr, solution. repeat split; try done.
  unfold try_except in Hsolve.
  destruct (np_linalg_solve M Mr) as [x|[]]; try discriminate. done.
Qed.

Lemma solution_length (st : parse_state) (M Mr solution : matrix) :
  indices_in_range (node_mapping st) (node_counter st) ->
  matrix_formation (Resistors st) (Voltage_sources st) (Current_sources st)
    (node_mapping st) (node_counter st) = Ok (M, Mr) ->
  np_linalg_solve M Mr = Ok solution ->
  Z.of_nat (length solution) =
  node_counter st - 1 + Z.of_nat (length (Voltage_sources st)).
Proof.
  intros [Hg Hr] Hform Hsolve. specialize (Hr _ _ Hg).
  apply matrix_formation_shape in Hform as [[HM _] _].
  apply np_linalg_solve_length in Hsolve. rewrite Hsolve, HM. lia.
Qed.

(** C4. Whenever [evalSpice] returns, the voltages it returns give ground
    the int 0. *)
Theorem ground_voltage_zero (file : option (list string))
    (voltages currents : gmap string pynum) :
  evalSpice file = Ok (voltages, currents) ->
  voltages !! "GND" = Some (PyInt 0).
Proof.
  intros (lines & st & M & Mr & solution & -> & Hst & Hform & Hsolve & Hv)
    %evalSpice_Ok_inv.
  apply (voltage_loop_ground _ _ _ _ Hv). right.
  destruct (parsed_range _ _ Hst) as [Hg _].
  apply list_elem_of_fmap. exists ("GND", 0). split; [done|].
  by apply elem_of_map_to_list.
Qed.

(** C5. Whenever [evalSpice] returns, the voltages it returns have one entry
    per distinct node name of the netlist, ground included. *)
Theorem voltages_count_nodes (lines : list string)
    (voltages currents : gmap string pynum) :
  evalSpice (Some lines) = Ok (voltages, currents) ->
  size voltages = size (netlist_nodes lines).
Proof.
  intros (lines' & st & M & Mr & solution & [= <-] & Hst & Hform & Hsolve & Hv)
    %evalSpice_Ok_inv.
  pose proof (parsed_range _ _ Hst) as Hrange.
  pose proof (solution_length _ _ _ _ Hrange Hform Hsolve) as Hlen.
  rewrite <- (parsed_dom _ _ Hst), <- size_dom. f_equal.
  rewrite (voltage_loop_dom _ _ _ _ Hv).
  - rewrite dom_empty_L, union_empty_l_L.
    apply set_eq. intros node.
    rewrite elem_of_list_to_set, elem_of_dom, list_elem_of_fmap.
    split.
    + intros ([node' i] & -> & Hin%elem_of_map_to_list). by exists i.
    + intros [i Hi]. exists (node, i). split; [done|].
      by apply elem_of_map_to_list.
  - intros node i Hin%elem_of_map_to_list. right.
    destruct Hrange as [_ Hr]. specialize (Hr _ _ Hin). lia.
Qed.

(** ** Zero and non-numeric resistor values *)

Lemma not_zero_division_bind {A B} (m : result A) (f : A -> result B) :
  not_zero_division m -> (forall a, not_zero_division (f a)) ->
  not_zero_division (m ≫= f).
Proof. destruct m as [a|e]; simpl; [auto|]. intros H _ [= ->]. by apply H. Qed.

Lemma not_zero_division_for_each {A S} (body : S -> A -> result S) (s : S)
    (items : list A) :
  (forall s x, not_zero_division (body s x)) ->
  not_zero_division (for_each body s items).
Proof.
  intros Hbody. revert s. induction items as [|x items IH]; intros s; simpl.
  - discriminate.
  - apply not_zero_division_bind; auto.
Qed.

Lemma not_zero_division_getitem {A} (l : list A) (i : Z) :
  not_zero_division (getitem l i).
Proof.
  unfold getitem. destruct (norm_index _ _); [|discriminate].
  destruct (_ !! _); discriminate.
Qed.

(** Goals of the form [not_zero_division e], by the structure of [e]. *)
Ltac no_zero_division :=
  repeat first
    [ apply not_zero_division_getitem
    | apply not_zero_division_for_each; intros
    | apply not_zero_division_bind; [|intros]
    | match goal with
      | |- not_zero_division (Ok _) => discriminate
      | |- not_zero_division (Raise _) => discriminate
      | |- not_zero_division (if ?c then _ else _) => destruct c
      | |- not_zero_division (match ?x with _ => _ end) => destruct x
      | |- not_zero_division (let '(_, _) := ?x in _) => destruct x
      end ].

Lemma not_zero_division_get2 (M : matrix) (i j : Z) :
  not_zero_division (get2 M i j).
Proof. unfold get2. no_zero_division. Qed.

Lemma not_zero_division_set2 (M : matrix) (i j : Z) (x : float) :
  not_zero_division (set2 M i j x).
Proof. unfold set2. no_zero_division. Qed.

Lemma not_zero_division_iadd2 (M : matrix) (i j : Z) (y : float) :
  not_zero_division (iadd2 M i j y).
Proof.
  unfold iadd2. apply not_zero_division_bind;
    [apply not_zero_division_get2|intros; apply not_zero_division_set2].
Qed.

Lemma not_zero_division_isub2 (M : matrix) (i j : Z) (y : float) :
  not_zero_division (isub2 M i j y).
Proof.
  unfold isub2. apply not_zero_division_bind;
    [apply not_zero_division_get2|intros; apply not_zero_division_set2].
Qed.

Lemma not_zero_division_malformed {A} (body : result A) :
  not_zero_division
    (try_except body (fun _ => Raise (TypeError "Malformed circuit file"))).
Proof. destruct body; discriminate. Qed.

Ltac no_zero_division_array :=
  repeat first
    [ apply not_zero_division_iadd2 | apply not_zero_division_isub2
    | apply not_zero_division_set2 | apply not_zero_division_malformed
    | apply not_zero_division_bind; [|intros]
    | match goal with
      | |- not_zero_division (int_of _) => unfold int_of
      | |- not_zero_division (Ok _) => discriminate
      | |- not_zero_division (Raise _) => discriminate
      | |- not_zero_division (if ?c then _ else _) => destruct c
      | |- not_zero_division (match ?x with _ => _ end) => destruct x
      end ].

(** The loop body for a resistor never raises ZeroDivisionError: the test
    that would raise it compares the value text with the int 0, which is
    false for every text, and the division by zero inside the [try] is
    turned into TypeError by the bare [except]. *)
Lemma stamp_resistor_not_zero_division (M : matrix) (R : component) :
  not_zero_division (stamp_resistor M R).
Proof.
  unfold stamp_resistor. rewrite zero_test_is_false. no_zero_division_array.
Qed.

Lemma stamp_resistor_zero_value (M : matrix) (R : component) (a b : Z)
    (x : float) :
  py_int (n1 R) = Some a -> py_int (n2 R) = Some b ->
  py_float (value R) = Some x -> PrimFloat.eqb x 0 = true ->
  stamp_resistor M R = Raise (TypeError "Malformed circuit file").
Proof.
  intros Ha Hb Hv Hx. unfold stamp_resistor, int_of, float_of, py_recip.
  rewrite Ha, Hb, Hv, zero_test_is_false. simpl. by rewrite Hx.
Qed.

Lemma stamp_resistor_non_numeric (M : matrix) (R : component) (a b : Z) :
  py_int (n1 R) = Some a -> py_int (n2 R) = Some b ->
  py_float (value R) = None ->
  stamp_resistor M R = Raise (TypeError "Malformed circuit file").
Proof.
  intros Ha Hb Hv. unfold stamp_resistor, int_of, float_of.
  by rewrite Ha, Hb, Hv, zero_test_is_false.
Qed.

Lemma matrix_formation_not_zero_division (Rs Vs Is : list component)
    (nm : gmap string Z) (nc : Z) :
  not_zero_division (matrix_formation Rs Vs Is nm nc).
Proof.
  unfold matrix_formation.
  apply not_zero_division_bind; [unfold np_zeros; no_zero_division|intros M].
  apply not_zero_division_bind; [unfold np_zeros; no_zero_division|intros Mr].
  apply not_zero_division_bind; [|intros M1].
  { apply not_zero_division_for_each. intros.
    apply stamp_resistor_not_zero_division. }
  apply not_zero_division_bind; [|intros Mr1].
  { apply not_zero_division_for_each. intros s x. unfold stamp_current.
    no_zero_division_array. }
  apply not_zero_division_for_each. intros [M2 Mr2] [i V].
  unfold stamp_voltage. no_zero_division_array.
Qed.

Lemma parse_line_not_zero_division (st : parse_state) (line : string) :
  not_zero_division (parse_line st line).
Proof.
  unfold parse_line. repeat case_decide; try discriminate.
  destruct (negb (Junk st)); [|discriminate].
  destruct (0 <? _)%nat; [|discriminate].
  unfold parse_element.
  apply not_zero_division_bind; [apply not_zero_division_getitem|intros w0].
  apply not_zero_division_bind; [destruct w0; discriminate|intros c0].
  apply not_zero_division_bind; [apply not_zero_division_getitem|intros w1].
  apply not_zero_division_bind; [apply not_zero_division_getitem|intros w2].
  destruct (mapping_nodes w1 _ _) as [[i1 nm1] nc1].
  destruct (mapping_nodes w2 nm1 nc1) as [[i2 nm2] nc2].
  no_zero_division.
Qed.

Lemma parsing_not_zero_division (file : option (list string)) :
  not_zero_division (parsing file).
Proof.
  unfold parsing. destruct file as [lines|]; [|discriminate].
  repeat case_decide; try discriminate.
  apply not_zero_division_bind; [|discriminate].
  apply not_zero_division_for_each. apply parse_line_not_zero_division.
Qed.

(** No evaluation ends with ZeroDivisionError. *)
Lemma evalSpice_not_zero_division (file : option (list string)) :
  not_zero_division (evalSpice file).
Proof.
  unfold evalSpice.
  apply not_zero_division_bind;
    [apply parsing_not_zero_division|intros [[[[Rs Vs] Is] nm] nc]].
  apply not_zero_division_bind;
    [apply matrix_formation_not_zero_division|intros [M Mr]].
  apply not_zero_division_bind; [|intros solution].
  { unfold np_linalg_solve. destruct (lu_reduce _ _); discriminate. }
  apply not_zero_division_bind; [|intros voltages].
  { apply not_zero_division_for_each. intros v [node i]. unfold voltage_step.
    case_decide; [discriminate|]. destruct (_ <=? _); [|discriminate].
    apply not_zero_division_bind; [apply not_zero_division_get2|discriminate]. }
  apply not_zero_division_bind; [|intros [c idx]; discriminate].
  apply not_zero_division_for_each. intros [c idx] V. unfold current_step.
  apply not_zero_division_bind; [|discriminate].
  destruct (_ <? _); [|discriminate].
  apply not_zero_division_bind; [apply not_zero_division_get2|discriminate].
Qed.

(** C2 (the code departs from the claim). A resistor of value 0 makes the
    evaluation fail with TypeError, the malformed-value error, and no netlist
    at all makes it fail with ZeroDivisionError. *)
Theorem zero_resistance_raises_TypeError :
  evalSpice (Some (file_lines [".circuit"; "R1 1 GND 0"; ".end"]))
  = Raise (TypeError "Malformed circuit file") /\
  forall file, evalSpice file <> Raise ZeroDivisionError.
Proof.
  split; [vm_compute; reflexivity|]. exact evalSpice_not_zero_division.
Qed.

Lemma example_evaluates :
  evalSpice (Some (file_lines example_rows)) =
  Ok ({[ "GND" := PyInt 0; "1" := PyFloat 10 ]}, {[ "V1" := PyFloat (-2) ]}).
Proof. vm_compute. reflexivity. Qed.

Lemma claimed_example_not_accepted :
  ~ exists voltages currents,
      evalSpice (Some (file_lines [".circuit"; "V1 1 0 10"; "R1 1 0 5"; ".end"]))
      = Ok (voltages, currents) /\
      voltages !! "GND" = Some (PyInt 0) /\
      voltages !! "1" = Some (PyFloat 10) /\
      currents !! "V1" = Some (PyFloat (-2)).
Proof. intros (v & c & H & _). vm_compute in H. discriminate H. Qed.

Lemma ground_voltage_zero_witness :
  evalSpice (Some (file_lines example_rows)) =
  Ok ({[ "GND" := PyInt 0; "1" := PyFloat 10 ]}, {[ "V1" := PyFloat (-2) ]}) /\
  ({[ "GND" := PyInt 0; "1" := PyFloat 10 ]} : gmap string pynum) !! "GND"
  = Some (PyInt 0).
Proof.
  split; [exact example_evaluates|].
  exact (ground_voltage_zero _ _ _ example_evaluates).
Defined.

Lemma voltages_count_nodes_witness :
  evalSpice (Some (file_lines example_rows)) =
  Ok ({[ "GND" := PyInt 0; "1" := PyFloat 10 ]}, {[ "V1" := PyFloat (-2) ]}) /\
  size ({[ "GND" := PyInt 0; "1" := PyFloat 10 ]} : gmap string pynum)
  = size (netlist_nodes (file_lines example_rows)).
Proof.
  split; [exact example_evaluates|].
  exact (voltages_count_nodes _ _ _ example_evaluates).
Defined.

(** ** The end-to-end example *)

(** C1 (amended). With the source-type token that a voltage-source row needs
    before its value, and ground written GND, the example evaluates to node
    1 at 10 volts and a current of -2 through V1; the netlist as the claim
    gives it is rejected, because its voltage-source row has four tokens. *)
Theorem example_end_to_end :
  evalSpice (Some (file_lines [".circuit"; "V1 1 GND dc 10"; "R1 1 GND 5"; ".end"]))
  = Ok ({[ "GND" := PyInt 0; "1" := PyFloat 10 ]}, {[ "V1" := PyFloat (-2) ]}) /\
  evalSpice (Some (file_lines [".circuit"; "V1 1 0 10"; "R1 1 0 5"; ".end"]))
  = Raise (insufficient_data KVoltage).
Proof. split; vm_compute; reflexivity. Qed.

(** ** Concrete rows *)

Lemma end_marker_last (pre : list string) :
  has_marker ".end" (pre ++ file_lines [".end"]).
Proof.
  apply has_marker_app. right. exists (".end" +:+ newline).
  split; [left|reflexivity].
Qed.

(** A resistor row with three tokens and a new name. *)
Lemma short_row_rejected_witness :
  parsing (Some (file_lines [".circuit"; "R1 1 2"; ".end"]))
  = Raise (insufficient_data KResistor).
Proof.
  refine (proj1 (short_row_rejected KResistor (file_lines [".circuit"])
                   (file_lines [".end"]) ("R1 1 2" +:+ newline)
                   (set_Junk false initial_state) "R1" "1" "2" []
                   _ _ _ _ _ _) _).
  - reflexivity.
  - reflexivity.
  - apply end_marker_last.
  - reflexivity.
  - exists "R"%char, "1". split; reflexivity.
  - vm_compute. lia.
  - intros (r & Hr & _). vm_compute in Hr. by apply elem_of_nil in Hr.
Defined.

(** The same short row after a resistor of the same name: the duplicate-name
    error comes first. *)
Lemma short_row_duplicate_first :
  parsing (Some (file_lines [".circuit"; "R1 1 2 5"; "R1 1 2"; ".end"]))
  = Raise (ValueError "Duplicate resistor name found.") /\
  parsing (Some (file_lines [".circuit"; "R1 1 2 5"; "R1 1 2"; ".end"]))
  <> Raise (ValueError "Insufficient data to access resistor value.").
Proof. split; vm_compute; [reflexivity|discriminate]. Qed.

(** C3 (the code departs from the claim). A resistor row of one token and
    a voltage-source row of two tokens do not end in the insufficient-data
    error of their kind: the node names [words[1]] and [words[2]] are read
    before the number of tokens is checked, and the run ends with
    IndexError. *)
Theorem row_without_nodes :
  parsing (Some (file_lines [".circuit"; "R1"; ".end"])) = Raise IndexError /\
  parsing (Some (file_lines [".circuit"; "V1 1"; ".end"])) = Raise IndexError.
Proof. split; vm_compute; reflexivity. Qed.

(** Two resistors named R1. *)
Lemma duplicate_name_rejected_witness :
  parsing (Some (file_lines [".circuit"; "R1 1 2 5"; "R1 3 4 6"; ".end"]))
  = Raise (duplicate_name KResistor).
Proof.
  refine (proj2 (proj2 (duplicate_name_rejected KResistor
                   (file_lines [".circuit"; "R1 1 2 5"])
                   (file_lines [".end"]) ("R1 3 4 6" +:+ newline)
                   _ "R1" "3" "4" ["6"] _ _ _ _ _)) _).
  - vm_compute. reflexivity.
  - reflexivity.
  - apply end_marker_last.
  - reflexivity.
  - exists "R"%char, "1". split; reflexivity.
  - exists ("R1 1 2 5" +:+ newline). split; [|reflexivity].
    vm_compute. left.
Defined.



(** ** A resistor from ground to ground *)

(** C9 (the code departs from the claim). For the netlist that holds a
    resistor from ground to ground and nothing else, the system is empty and
    the stamp through the index [-1] raises IndexError: no conductance is
    added to any entry. *)
Theorem grounded_resistor_alone :
  parsing (Some (file_lines [".circuit"; "R1 GND GND 5"; ".end"]))
  = Ok ([Component "R1" "0" "0" "5"], [], [], {[ "GND" := 0 ]}, 1) /\
  matrix_formation [Component "R1" "0" "0" "5"] [] [] {[ "GND" := 0 ]} 1
  = Raise IndexError.
Proof. split; vm_compute; reflexivity. Qed.

(** Next to a voltage source the conductance lands on the diagonal entry of
    the source's row. *)
Lemma grounded_resistor_beside_source :
  matrix_formation [Component "R1" "1" "0" "5"; Component "R2" "0" "0" "4"]
    [Component "V1" "1" "0" "10"] [] {[ "GND" := 0; "1" := 1 ]} 2
  = Ok ([[0.2; 1]; [1; 0.25]]%float, [[0]; [10]]%float).
Proof. vm_compute. reflexivity. Qed.

Lemma grounded_resistor_stamp_witness :
  exists M',
    stamp_resistor [[0]]%float (Component "R1" "0" "0" "5") = Ok M' /\
    has_shape 1 1 M' /\
    cell_changed (fun e => (e + 1 / 5)%float) 0 0 [[0]]%float M'.
Proof.
  apply (grounded_resistor_stamp 1 [[0]]%float (Component "R1" "0" "0" "5")
           5%float).
  - split; [reflexivity|]. repeat constructor.
  - reflexivity.
  - reflexivity.
  - vm_compute. reflexivity.
  - reflexivity.
Defined.

(** ** Two blocks in one file *)

Lemma two_blocks_parsed :
  parsing (Some two_blocks)
  = Ok ([Component "R1" "1" "0" "5"], [Component "V1" "1" "0" "10"], [],
        {[ "GND" := 0; "1" := 1 ]}, 2).
Proof. vm_compute. reflexivity. Qed.


(** * Further properties of the code *)

(** ** Which exceptions a stage can raise *)

Lemma not_raised_bind {A B} (e : exception) (m : result A)
    (f : A -> result B) :
  m <> Raise e -> (forall a, f a <> Raise e) -> m ≫= f <> Raise e.
Proof. destruct m as [a|e']; simpl; [auto|]. intros H _ [= ->]. by apply H. Qed.

Lemma not_raised_for_each {A S} (e : exception) (body : S -> A -> result S)
    (s : S) (items : list A) :
  (forall s x, body s x <> Raise e) -> for_each body s items <> Raise e.
Proof.
  intros Hbody. revert s. induction items as [|x items IH]; intros s; simpl.
  - discriminate.
  - apply not_raised_bind; auto.
Qed.

Lemma not_raised_getitem {A} (e : exception) (l : list A) (i : Z) :
  e <> IndexError -> getitem l i <> Raise e.
Proof.
  intros He. unfold getitem. destruct (norm_index _ _); [|congruence].
  destruct (_ !! _); [discriminate|congruence].
Qed.

(** Goals [r <> Raise e] for a given [e], by the structure of [r]. *)
Ltac not_raised :=
  repeat first
    [ apply not_raised_getitem; discriminate
    | apply not_raised_for_each; intros
    | apply not_raised_bind; [|intros]
    | match goal with
      | |- Ok _ <> Raise _ => discriminate
      | |- Raise _ <> Raise _ => discriminate
      | |- (if ?c then _ else _) <> Raise _ => destruct c
      | |- (match ?x with _ => _ end) <> Raise _ => destruct x
      end ].

Lemma parse_line_not_malformed (st : parse_state) (line : string) :
  parse_line st line <> Raise (ValueError "Malformed circuit file").
Proof.
  unfold parse_line. repeat case_decide; try discriminate.
  destruct (negb (Junk st)); [|discriminate].
  destruct (0 <? _)%nat; [|discriminate].
  unfold parse_element.
  apply not_raised_bind; [apply not_raised_getitem; discriminate|intros w0].
  apply not_raised_bind; [destruct w0; discriminate|intros c0].
  apply not_raised_bind; [apply not_raised_getitem; discriminate|intros w1].
  apply not_raised_bind; [apply not_raised_getitem; discriminate|intros w2].
  destruct (mapping_nodes w1 _ _) as [[i1 nm1] nc1].
  destruct (mapping_nodes w2 nm1 nc1) as [[i2 nm2] nc2].
  not_raised.
Qed.

(** ** The presence scans, seen from outside *)

(** X1. [parsing] raises the malformed-file error exactly when the file has
    no line that strips to [.circuit] or no line that strips to [.end]: the
    two scans reject such a file whatever else it holds, and nothing after
    the scans raises that error. *)
Theorem malformed_iff_marker_missing (lines : list string) :
  parsing (Some lines) = Raise (ValueError "Malformed circuit file") <->
  ~ has_marker ".circuit" lines \/ ~ has_marker ".end" lines.
Proof.
  unfold parsing.
  destruct (decide (count_not ".circuit" lines = length lines)) as [Hc|Hc].
  { apply count_not_all in Hc. tauto. }
  destruct (decide (count_not ".end" lines = length lines)) as [He|He].
  { apply count_not_all in He. tauto. }
  rewrite count_not_all in Hc, He. split; [|tauto]. intros H. exfalso.
  revert H. apply not_raised_bind; [|discriminate].
  apply not_raised_for_each. apply parse_line_not_malformed.
Qed.

(** ** Rows the parser refuses *)

Lemma rev_empty (s : string) : String.rev s = "" -> s = "".
Proof. intros H. by rewrite <- (rev_involutive s), H. Qed.

Lemma split_aux_nonempty (cur s : string) :
  Forall (fun w => w <> "") (split_aux cur s).
Proof.
  assert (Hflush : forall cur, Forall (fun w => w <> "") (flush cur)).
  { intros [|c t]; simpl; [constructor|].
    constructor; [|constructor]. intros H%rev_empty. discriminate. }
  revert cur. induction s as [|c s IH]; intros cur; simpl; [apply Hflush|].
  destruct (isspace c); [|apply IH].
  apply Forall_app. split; [apply Hflush|apply IH].
Qed.

(** A token of a line is never the empty text. *)
Lemma split_nonempty (s w : string) (ws : list string) :
  split s = w :: ws -> exists c r, w = String c r.
Proof.
  intros Hs. pose proof (split_aux_nonempty "" s) as H.
  fold (split s) in H. rewrite Hs in H. apply Forall_cons in H as [Hw _].
  destruct w as [|c r]; [done|eauto].
Qed.

(** X2. A row inside a block that the parser reaches, with at least three
    tokens and a first character that is none of R, V, I in either case,
    makes [parsing] fail with the unsupported-element error. *)
Theorem unsupported_element_rejected (pre post : list string) (row : string)
    (st : parse_state) (c : ascii) (r w1 w2 : string) (rest : list string) :
  for_each parse_line initial_state pre = Ok st -> Junk st = false ->
  has_marker ".end" (pre ++ post) ->
  split row = String c r :: w1 :: w2 :: rest ->
  (forall k, upper c <> kind_letter k) ->
  parsing (Some (pre ++ row :: post))
  = Raise (ValueError "Only V, I, R elements are permitted").
Proof.
  intros Hpre Hj Hend Hsplit Hc.
  pose proof (row_not_marker _ _ _ _ Hsplit) as Hm.
  eapply parsing_raises_at; try done.
  rewrite parse_line_row by done. rewrite Hsplit.
  unfold parse_element. rewrite getitem_cons_0. cbn [mbind result_bind].
  change (first_char (String c r)) with (Ok (A := ascii) c).
  cbn [mbind result_bind].
  change 1 with (Z.of_nat 1). change 2 with (Z.of_nat 2).
  rewrite !getitem_cons_S, !getitem_cons_0. cbn [mbind result_bind].
  destruct (mapping_nodes w1 _ _) as [[i1 nm1] nc1].
  destruct (mapping_nodes w2 nm1 nc1) as [[i2 nm2] nc2].
  rewrite (decide_False (P := upper c = "R"%char)) by apply (Hc KResistor).
  rewrite (decide_False (P := upper c = "V"%char)) by apply (Hc KVoltage).
  by rewrite (decide_False (P := upper c = "I"%char)) by apply (Hc KCurrent).
Qed.

Lemma unsupported_element_rejected_witness :
  parsing (Some (file_lines [".circuit"; "C1 1 GND 5"; ".end"]))
  = Raise (ValueError "Only V, I, R elements are permitted").
Proof.
  refine (unsupported_element_rejected (file_lines [".circuit"])
            (file_lines [".end"]) ("C1 1 GND 5" +:+ newline)
            (set_Junk false initial_state) "C" "1" "1" "GND" ["5"]
            _ _ _ _ _).
  - reflexivity.
  - reflexivity.
  - apply end_marker_last.
  - reflexivity.
  - intros []; vm_compute; discriminate.
Defined.

(** X3. A row inside a block that the parser reaches, with one or two tokens
    and not a marker line, makes [parsing] fail with IndexError: the node
    names are read before any check of the number of tokens. *)
Theorem row_without_nodes_raises_IndexError (pre post : list string)
    (row : string) (st : parse_state) (w0 : string) (ws : list string) :
  for_each parse_line initial_state pre = Ok st -> Junk st = false ->
  has_marker ".end" (pre ++ post) ->
  ~ is_marker row -> split row = w0 :: ws -> (length ws < 2)%nat ->
  parsing (Some (pre ++ row :: post)) = Raise IndexError.
Proof.
  intros Hpre Hj Hend Hm Hsplit Hlen.
  eapply parsing_raises_at; try done.
  rewrite parse_line_row by done. rewrite Hsplit.
  destruct (split_nonempty _ _ _ Hsplit) as (c & r & ->).
  unfold parse_element. rewrite getitem_cons_0. cbn [mbind result_bind].
  change (first_char (String c r)) with (Ok (A := ascii) c).
  cbn [mbind result_bind].
  destruct ws as [|w1 [|w2 ws]]; [done|done|simpl in Hlen; lia].
Qed.

Lemma row_without_nodes_raises_IndexError_witness :
  parsing (Some (file_lines [".circuit"; "R1 1"; ".end"])) = Raise IndexError.
Proof.
  refine (row_without_nodes_raises_IndexError (file_lines [".circuit"])
            (file_lines [".end"]) ("R1 1" +:+ newline)
            (set_Junk false initial_state) "R1" ["1"] _ _ _ _ _ _).
  - reflexivity.
  - reflexivity.
  - apply end_marker_last.
  - eapply row_not_marker. reflexivity.
  - reflexivity.
  - simpl. lia.
Defined.

(** X4. A line without any token, wherever it stands in the file, changes
    nothing: the file parses as it does without that line. *)
Theorem blank_line_ignored (pre post : list string) (l : string) :
  split l = [] ->
  parsing (Some (pre ++ l :: post)) = parsing (Some (pre ++ post)).
Proof.
  intros Hl.
  assert (Hm : ~ is_marker l).
  { intros H%marker_one_token. by rewrite Hl in H. }
  assert (Hcount : forall m, m = ".circuit" \/ m = ".end" ->
            count_not m (pre ++ l :: post) = length (pre ++ l :: post) <->
            count_not m (pre ++ post) = length (pre ++ post)).
  { intros m Hmk. rewrite !count_not_all, !has_marker_app, has_marker_cons.
    assert (strip l <> m) by (unfold is_marker in Hm; destruct Hmk; subst; tauto).
    tauto. }
  assert (Hrun : for_each parse_line initial_state (pre ++ l :: post)
                 = for_each parse_line initial_state (pre ++ post)).
  { rewrite !for_each_app.
    destruct (for_each parse_line initial_state pre) as [st|e]; [|done].
    cbn [mbind result_bind for_each].
    assert (Hst : parse_line st l = Ok st).
    { destruct (Junk st) eqn:Hj; [by apply parse_line_junk|].
      rewrite parse_line_row by done. by rewrite Hl. }
    by rewrite Hst. }
  unfold parsing. rewrite Hrun.
  destruct (decide (count_not ".circuit" (pre ++ l :: post) = _)) as [H|H];
    destruct (decide (count_not ".circuit" (pre ++ post) = _)) as [H'|H'];
    try done; try (apply Hcount in H; [done|by left]);
    try (apply Hcount in H'; [done|by left]).
  destruct (decide (count_not ".end" (pre ++ l :: post) = _)) as [H1|H1];
    destruct (decide (count_not ".end" (pre ++ post) = _)) as [H1'|H1'];
    try done; try (apply Hcount in H1; [done|by right]);
    try (apply Hcount in H1'; [done|by right]).
Qed.

Lemma blank_line_ignored_witness :
  parsing (Some (file_lines [".circuit"; "R1 1 GND 5"; "   "; ".end"]))
  = parsing (Some (file_lines [".circuit"; "R1 1 GND 5"; ".end"])).
Proof.
  apply (blank_line_ignored (file_lines [".circuit"; "R1 1 GND 5"])
           (file_lines [".end"]) ("   " +:+ newline)).
  reflexivity.
Defined.

(** ** The node table *)

(** X5. [mapping_nodes] gives a name the index the table holds for it after
    the call; asking again gives the same index and changes nothing; the
    entries the table had are kept; and the counter moves by one exactly
    when the name was new. *)
Theorem mapping_nodes_lookup (w : string) (nm : gmap string Z) (nc : Z) :
  let '(i, nm', nc') := mapping_nodes w nm nc in
  nm' !! w = Some i /\
  mapping_nodes w nm' nc' = (i, nm', nc') /\
  (forall k j, nm !! k = Some j -> nm' !! k = Some j) /\
  nc' = (if decide (w ∈ dom nm) then nc else nc + 1).
Proof.
  unfold mapping_nodes. destruct (nm !! w) as [j|] eqn:Hw.
  - split; [done|]. split; [by rewrite Hw|]. split; [done|].
    rewrite decide_True; [done|]. by apply elem_of_dom_2 in Hw.
  - split; [apply lookup_insert_eq|].
    split; [by rewrite lookup_insert_eq|]. split.
    + intros k j' Hk. rewrite lookup_insert_ne; [done|]. congruence.
    + rewrite decide_False; [done|]. by apply not_elem_of_dom.
Qed.

Lemma mapping_nodes_extends (w : string) (nm nm' : gmap string Z)
    (nc nc' i : Z) :
  mapping_nodes w nm nc = (i, nm', nc') -> nm' !! w = Some i /\ nm ⊆ nm'.
Proof.
  unfold mapping_nodes. destruct (nm !! w) as [j|] eqn:Hw; intros [= <- <- <-].
  - done.
  - split; [apply lookup_insert_eq|]. by apply insert_subseteq.
Qed.

Lemma parsing_Ok_inv (lines : list string) (Rs Vs Is : list component)
    (nm : gmap string Z) (nc : Z) :
  parsing (Some lines) = Ok (Rs, Vs, Is, nm, nc) ->
  exists st,
    for_each parse_line initial_state lines = Ok st /\
    Rs = Resistors st /\ Vs = Voltage_sources st /\
    Is = Current_sources st /\ nm = node_mapping st /\ nc = node_counter st.
Proof.
  unfold parsing. repeat case_decide; try discriminate.
  intros (st & Hst & [= <- <- <- <- <-])%bind_Ok_inv. by exists st.
Qed.

Lemma mapping_nodes_table (w : string) (nm nm' : gmap string Z)
    (nc nc' i : Z) :
  mapping_nodes w nm nc = (i, nm', nc') ->
  indices_in_range nm nc -> Z.of_nat (size nm) = nc ->
  (forall k k' j, nm !! k = Some j -> nm !! k' = Some j -> k = k') ->
  Z.of_nat (size nm') = nc' /\
  (forall k k' j, nm' !! k = Some j -> nm' !! k' = Some j -> k = k').
Proof.
  unfold mapping_nodes. intros H [Hg Hr] Hsize Hinj.
  destruct (nm !! w) as [j|] eqn:Hw; injection H as <- <- <-; [done|].
  split.
  - rewrite map_size_insert_None by done. lia.
  - intros k k' j. rewrite !lookup_insert.
    repeat case_decide; subst; try done.
    + intros [= <-] Hk'. specialize (Hr _ _ Hk'). lia.
    + intros Hk [= <-]. specialize (Hr _ _ Hk). lia.
    + apply Hinj.
Qed.

Lemma rows_table (rows : list string) (st st' : parse_state) :
  Forall (fun l => ~ is_marker l) rows -> Junk st = false ->
  for_each parse_line st rows = Ok st' ->
  indices_in_range (node_mapping st) (node_counter st) ->
  Z.of_nat (size (node_mapping st)) = node_counter st ->
  (forall k k' j, node_mapping st !! k = Some j ->
                  node_mapping st !! k' = Some j -> k = k') ->
  Z.of_nat (size (node_mapping st')) = node_counter st' /\
  (forall k k' j, node_mapping st' !! k = Some j ->
                  node_mapping st' !! k' = Some j -> k = k').
Proof.
  revert rows st st'. apply (parse_rows_ind (fun st rows st' =>
    indices_in_range (node_mapping st) (node_counter st) ->
    Z.of_nat (size (node_mapping st)) = node_counter st ->
    (forall k k' j, node_mapping st !! k = Some j ->
                    node_mapping st !! k' = Some j -> k = k') ->
    Z.of_nat (size (node_mapping st')) = node_counter st' /\
    (forall k k' j, node_mapping st' !! k = Some j ->
                    node_mapping st' !! k' = Some j -> k = k'))).
  - done.
  - intros st row rows st1 st' Hm Hj Hl Hj1 IH Hrange Hsize Hinj.
    destruct (parse_row_inv _ _ _ Hm Hj Hl) as [_ [[Hsplit ->]|H]]; [auto|].
    destruct H as (k' & w0 & w1 & w2 & rest & v & i1 & nm1 & nc1 & i2 & nm2
                   & nc2 & Hsplit & Hk' & Hnew & Hlen & Hm1 & Hm2 & ->).
    pose proof (mapping_nodes_range _ _ _ _ _ _ Hm1 Hrange) as Hrange1.
    pose proof (mapping_nodes_range _ _ _ _ _ _ Hm2 Hrange1) as Hrange2.
    destruct (mapping_nodes_table _ _ _ _ _ _ Hm1 Hrange Hsize Hinj)
      as [Hsize1 Hinj1].
    destruct (mapping_nodes_table _ _ _ _ _ _ Hm2 Hrange1 Hsize1 Hinj1)
      as [Hsize2 Hinj2].
    by apply IH.
Qed.

(** X6. The node table a successful parse returns maps ground to 0, has
    exactly the node names of the netlist as keys, gives distinct names
    distinct indices, all of them from 0 up to the node count excluded, and
    the node count is the number of its entries. *)
Theorem parsed_node_table (lines : list string) (Rs Vs Is : list component)
    (nm : gmap string Z) (nc : Z) :
  parsing (Some lines) = Ok (Rs, Vs, Is, nm, nc) ->
  nm !! "GND" = Some 0 /\
  dom nm = netlist_nodes lines /\
  nc = Z.of_nat (size nm) /\
  (forall k i, nm !! k = Some i -> 0 <= i < nc) /\
  (forall k k' i, nm !! k = Some i -> nm !! k' = Some i -> k = k').
Proof.
  intros (st & Hst & _ & _ & _ & -> & ->)%parsing_Ok_inv.
  destruct (parsed_range _ _ Hst) as [Hg Hr].
  split; [done|]. split; [by apply parsed_dom|].
  apply file_run_rows in Hst as (st0 & Hrows & Heq).
  apply set_Junk_fields in Heq as (Hnm & Hnc & _).
  destruct (rows_table _ (set_Junk false initial_state) _
              (rows_not_marker _ _) eq_refl Hrows) as [Hsize Hinj];
    [..|rewrite Hnm, Hnc in Hsize; rewrite Hnm in Hinj].
  - split; [done|]. simpl. intros node i.
    rewrite lookup_singleton_Some. intros [_ <-]. lia.
  - simpl. by rewrite map_size_singleton.
  - simpl. intros k k' j. rewrite !lookup_singleton_Some. by intros [<- _] [<- _].
  - split; [by symmetry|]. split; [exact Hr|exact Hinj].
Qed.

Lemma example_parsed :
  parsing (Some (file_lines example_rows))
  = Ok ([Component "R1" "1" "0" "5"], [Component "V1" "1" "0" "10"], [],
        {[ "GND" := 0; "1" := 1 ]}, 2).
Proof. vm_compute. reflexivity. Qed.

Lemma parsed_node_table_witness :
  ({[ "GND" := 0; "1" := 1 ]} : gmap string Z) !! "GND" = Some 0 /\
  2 = Z.of_nat (size ({[ "GND" := 0; "1" := 1 ]} : gmap string Z)).
Proof.
  destruct (parsed_node_table _ _ _ _ _ _ example_parsed)
    as (Hg & _ & Hsize & _). by split.
Defined.

(** ** The components of a parse *)

Lemma value_token_lookup (k : kind) (w0 w1 w2 : string) (rest : list string) :
  getitem (w0 :: w1 :: w2 :: rest) (Z.of_nat (required_tokens k) - 1)
  = match rest !! (required_tokens k - 4)%nat with
    | Some v => Ok v
    | None => Raise IndexError
    end.
Proof.
  replace (Z.of_nat (required_tokens k) - 1)
    with (Z.of_nat (S (S (S (required_tokens k - 4)))))
    by (destruct k; simpl; lia).
  rewrite !getitem_cons_S. apply getitem_nat.
Qed.

Lemma short_iff_no_value (k : kind) (w0 w1 w2 : string) (rest : list string) :
  (length (w0 :: w1 :: w2 :: rest) <? required_tokens k)%nat = true <->
  rest !! (required_tokens k - 4)%nat = None.
Proof.
  rewrite Nat.ltb_lt, lookup_ge_None. destruct k; simpl; lia.
Qed.

(** X7. On a row with at least three tokens the loop body reads nothing but
    the name, the two node names and the value token: two rows that agree on
    these (or both lack the value token) are treated alike, so tokens after
    the value and the fourth token of a source row are ignored. *)
Theorem unread_tokens_ignored (k : kind) (st : parse_state)
    (w0 w1 w2 : string) (rest rest' : list string) :
  starts_with_letter k w0 ->
  rest !! (required_tokens k - 4)%nat = rest' !! (required_tokens k - 4)%nat ->
  parse_element st (w0 :: w1 :: w2 :: rest)
  = parse_element st (w0 :: w1 :: w2 :: rest').
Proof.
  intros Hk Hv. rewrite !(parse_element_eq k) by done.
  destruct (mapping_nodes w1 _ _) as [[i1 nm1] nc1].
  destruct (mapping_nodes w2 nm1 nc1) as [[i2 nm2] nc2].
  case_decide; [done|]. rewrite !value_token_lookup.
  destruct (rest !! _) as [v|] eqn:E1; symmetry in Hv; rewrite Hv.
  - assert (H1 : (length (w0 :: w1 :: w2 :: rest) <? required_tokens k)%nat
                 = false).
    { apply not_true_iff_false. rewrite short_iff_no_value. congruence. }
    assert (H2 : (length (w0 :: w1 :: w2 :: rest') <? required_tokens k)%nat
                 = false).
    { apply not_true_iff_false. rewrite short_iff_no_value. congruence. }
    by rewrite H1, H2.
  - pose proof (proj2 (short_iff_no_value k w0 w1 w2 rest) E1) as H1.
    pose proof (proj2 (short_iff_no_value k w0 w1 w2 rest') Hv) as H2.
    by rewrite H1, H2.
Qed.

Lemma unread_tokens_ignored_witness :
  parse_element (set_Junk false initial_state)
    ["V1"; "1"; "GND"; "dc"; "10"; "volts"]
  = parse_element (set_Junk false initial_state) ["V1"; "1"; "GND"; "ac"; "10"].
Proof.
  apply (unread_tokens_ignored KVoltage).
  - exists "V"%char, "1". split; reflexivity.
  - reflexivity.
Defined.

Lemma has_letter_spec (k : kind) (w : string) :
  has_letter k w = true <-> starts_with_letter k w.
Proof.
  unfold has_letter, starts_with_letter. destruct w as [|c r].
  - split; [done|]. by intros (c & r & H & _).
  - rewrite bool_decide_eq_true. split; [by exists c, r|].
    by intros (c' & r' & [= <- <-] & H).
Qed.

Lemma components_of_record (k k' : kind) (c : component)
    (nm : gmap string Z) (nc : Z) (st : parse_state) :
  components_of k (record_element k' c nm nc st) =
  if decide (k = k') then components_of k st ++ [c] else components_of k st.
Proof. by destruct k, k'. Qed.

(** An accepted row, with the token its value comes from. *)
Lemma parse_row_value (st st1 : parse_state) (row : string) :
  ~ is_marker row -> Junk st = false -> parse_line st row = Ok st1 ->
  (split row = [] /\ st1 = st) \/
  exists k w0 w1 w2 rest v i1 nm1 nc1 i2 nm2 nc2,
    split row = w0 :: w1 :: w2 :: rest /\
    starts_with_letter k w0 /\ (w0 ∉ names_of k st) /\
    rest !! (required_tokens k - 4)%nat = Some v /\
    mapping_nodes w1 (node_mapping st) (node_counter st) = (i1, nm1, nc1) /\
    mapping_nodes w2 nm1 nc1 = (i2, nm2, nc2) /\
    st1 = record_element k (Component w0 (py_str i1) (py_str i2) v) nm2 nc2 st.
Proof.
  intros Hm Hj Hl.
  destruct (parse_row_inv _ _ _ Hm Hj Hl) as [_ [H|H]]; [by left|right].
  destruct H as (k & w0 & w1 & w2 & rest & v & i1 & nm1 & nc1 & i2 & nm2
                 & nc2 & Hsplit & Hk & Hnew & Hlen & Hm1 & Hm2 & Hst).
  rewrite parse_line_row in Hl by done. rewrite Hsplit in Hl.
  rewrite (parse_element_eq k) in Hl by done. rewrite Hm1, Hm2 in Hl.
  rewrite decide_False in Hl by done.
  destruct (_ <? _)%nat; [discriminate|].
  rewrite value_token_lookup in Hl.
  destruct (rest !! _) as [v'|] eqn:Hv; [|discriminate].
  injection Hl as Hl.
  by exists k, w0, w1, w2, rest, v', i1, nm1, nc1, i2, nm2, nc2.
Qed.

Lemma rows_components_of (rows : list string) (st st' : parse_state) :
  Forall (fun l => ~ is_marker l) rows -> Junk st = false ->
  for_each parse_line st rows = Ok st' ->
  node_mapping st ⊆ node_mapping st' /\
  forall k,
    components_of k st' =
    components_of k st ++ omap (row_component (node_mapping st') k) rows.
Proof.
  revert rows st st'. apply (parse_rows_ind (fun st rows st' =>
    node_mapping st ⊆ node_mapping st' /\
    forall k,
      components_of k st' =
      components_of k st ++ omap (row_component (node_mapping st') k) rows)).
  - intros st. split; [done|]. intros k. simpl. by rewrite app_nil_r.
  - intros st row rows st1 st' Hm Hj Hl Hj1 [Hsub IH].
    destruct (parse_row_value _ _ _ Hm Hj Hl) as [[Hsplit ->]|H].
    { split; [done|]. intros k. rewrite IH. simpl.
      unfold row_component at 2. by rewrite Hsplit. }
    destruct H as (k' & w0 & w1 & w2 & rest & v & i1 & nm1 & nc1 & i2 & nm2
                   & nc2 & Hsplit & Hk' & Hnew & Hv & Hm1 & Hm2 & ->).
    simpl node_mapping in Hsub.
    destruct (mapping_nodes_extends _ _ _ _ _ _ Hm1) as [Hw1 Hsub1].
    destruct (mapping_nodes_extends _ _ _ _ _ _ Hm2) as [Hw2 Hsub2].
    split; [by etrans; [|etrans]|].
    intros k. rewrite IH, components_of_record. simpl omap.
    unfold row_component at 2. rewrite Hsplit.
    destruct (decide (k = k')) as [->|Hne].
    + rewrite (proj2 (has_letter_spec k' w0) Hk'), Hv. simpl.
      rewrite (lookup_weaken _ _ _ _ Hw1) by (by etrans).
      rewrite (lookup_weaken _ _ _ _ Hw2 Hsub). simpl.
      by rewrite <- app_assoc.
    + destruct (has_letter k w0) eqn:Hl'; [|done].
      apply has_letter_spec in Hl'.
      by destruct Hne; eapply starts_with_letter_unique.
Qed.

(** X8. The three lists a successful parse returns hold, in the order of the
    file, one component for every row of the blocks whose name begins with
    the letter of the kind: its name is the first token, its terminals are
    the decimal texts of the indices the returned node table gives to the
    second and third tokens, and its value is the fourth token of a resistor
    row and the fifth of a source row, as text. *)
Theorem parsed_components (lines : list string) (Rs Vs Is : list component)
    (nm : gmap string Z) (nc : Z) :
  parsing (Some lines) = Ok (Rs, Vs, Is, nm, nc) ->
  Rs = omap (row_component nm KResistor) (block_rows lines) /\
  Vs = omap (row_component nm KVoltage) (block_rows lines) /\
  Is = omap (row_component nm KCurrent) (block_rows lines).
Proof.
  intros (st & Hst & -> & -> & -> & -> & ->)%parsing_Ok_inv.
  apply file_run_rows in Hst as (st0 & Hrows & Heq).
  apply set_Junk_fields in Heq as (<- & _ & <- & <- & <- & _).
  destruct (rows_components_of _ (set_Junk false initial_state) _
              (rows_not_marker _ _) eq_refl Hrows) as [_ H].
  split; [exact (H KResistor)|]. split; [exact (H KVoltage)|exact (H KCurrent)].
Qed.

Lemma parsed_components_witness :
  [Component "R1" "1" "0" "5"]
  = omap (row_component {[ "GND" := 0; "1" := 1 ]} KResistor)
         (block_rows (file_lines example_rows)).
Proof. exact (proj1 (parsed_components _ _ _ _ _ _ example_parsed)). Defined.

Lemma rows_names_distinct (rows : list string) (st st' : parse_state) :
  Forall (fun l => ~ is_marker l) rows -> Junk st = false ->
  for_each parse_line st rows = Ok st' ->
  (forall k, NoDup (name <$> components_of k st) /\
             forall c, c ∈ components_of k st ->
                       name c ∈ names_of k st /\
                       starts_with_letter k (name c)) ->
  forall k, NoDup (name <$> components_of k st') /\
            forall c, c ∈ components_of k st' ->
                      name c ∈ names_of k st' /\
                      starts_with_letter k (name c).
Proof.
  revert rows st st'. apply (parse_rows_ind (fun st rows st' =>
    (forall k, NoDup (name <$> components_of k st) /\
               forall c, c ∈ components_of k st ->
                         name c ∈ names_of k st /\
                         starts_with_letter k (name c)) ->
    forall k, NoDup (name <$> components_of k st') /\
              forall c, c ∈ components_of k st' ->
                        name c ∈ names_of k st' /\
                        starts_with_letter k (name c))).
  - done.
  - intros st row rows st1 st' Hm Hj Hl Hj1 IH Hst. apply IH. clear IH.
    destruct (parse_row_inv _ _ _ Hm Hj Hl) as [_ [[Hsplit ->]|H]]; [done|].
    destruct H as (k' & w0 & w1 & w2 & rest & v & i1 & nm1 & nc1 & i2 & nm2
                   & nc2 & Hsplit & Hk' & Hnew & Hlen & Hm1 & Hm2 & ->).
    intros k. destruct (Hst k) as [Hnd Hin].
    rewrite components_of_record, names_of_record. simpl name.
    destruct (decide (k = k')) as [->|Hne]; [|done]. split.
    + rewrite fmap_app. apply NoDup_app. split; [done|].
      split; [|apply NoDup_singleton].
      intros x Hx Hx'. simpl in Hx'. apply list_elem_of_singleton in Hx'.
      subst x. apply list_elem_of_fmap in Hx as (c & Hc1 & Hc).
      apply Hnew. rewrite Hc1. by apply Hin.
    + intros c [Hc| ->%list_elem_of_singleton]%elem_of_app.
      * destruct (Hin c Hc). split; [set_solver|done].
      * simpl. split; [set_solver|done].
Qed.

(** X9. In each of the three lists a successful parse returns the names are
    pairwise distinct, and every name begins with the letter of its kind, in
    either case. *)
Theorem parsed_names_distinct (lines : list string) (Rs Vs Is : list component)
    (nm : gmap string Z) (nc : Z) :
  parsing (Some lines) = Ok (Rs, Vs, Is, nm, nc) ->
  (NoDup (name <$> Rs) /\ NoDup (name <$> Vs) /\ NoDup (name <$> Is)) /\
  Forall (fun c => starts_with_letter KResistor (name c)) Rs /\
  Forall (fun c => starts_with_letter KVoltage (name c)) Vs /\
  Forall (fun c => starts_with_letter KCurrent (name c)) Is.
Proof.
  intros (st & Hst & -> & -> & -> & -> & ->)%parsing_Ok_inv.
  apply file_run_rows in Hst as (st0 & Hrows & Heq).
  apply set_Junk_fields in Heq as (_ & _ & <- & <- & <- & _).
  pose proof (rows_names_distinct _ (set_Junk false initial_state) _
                (rows_not_marker _ _) eq_refl Hrows) as H.
  assert (H0 : forall k,
             NoDup (name <$> components_of k (set_Junk false initial_state)) /\
             forall c, c ∈ components_of k (set_Junk false initial_state) ->
                       name c ∈ names_of k (set_Junk false initial_state) /\
                       starts_with_letter k (name c)).
  { intros []; (split; [constructor|]); intros c Hc; by apply elem_of_nil in Hc. }
  specialize (H H0).
  split; [split; [apply (H KResistor)|split; [apply (H KVoltage)|apply (H KCurrent)]]|].
  repeat split; apply Forall_forall; intros c Hc.
  - by apply (H KResistor).
  - by apply (H KVoltage).
  - by apply (H KCurrent).
Qed.

Lemma parsed_names_distinct_witness :
  NoDup (name <$> [Component "R1" "1" "0" "5"]).
Proof.
  exact (proj1 (proj1 (parsed_names_distinct _ _ _ _ _ _ example_parsed))).
Defined.

(** ** The current-source stamp *)

(** X10. A current source of value [x] between the nodes [a] and [b] of a
    system with [n] rows is stamped on the right-hand side only: [x] is
    subtracted at row [a-1] when [a] is not ground, then added at row [b-1]
    when [b] is not ground, and no other row changes. *)
Theorem current_stamp (n : nat) (Mr : matrix) (C : component) (a b : Z)
    (x : float) :
  has_shape n 1 Mr ->
  py_int (n1 C) = Some a -> py_int (n2 C) = Some b ->
  py_float (value C) = Some x ->
  0 <= a <= Z.of_nat n -> 0 <= b <= Z.of_nat n ->
  exists Mr',
    stamp_current Mr C = Ok Mr' /\ has_shape n 1 Mr' /\
    forall i, cell Mr' i 0 = current_stamp_spec a b x i <$> cell Mr i 0.
Proof.
  intros HM Ha Hb Hv Hra Hrb.
  assert (Hcol : norm_index 1 0 = Some 0%nat) by reflexivity.
  unfold stamp_current, int_of.
  rewrite Ha, Hb, (source_value_Ok _ _ Hv). simpl.
  clear Ha Hb Hv.
  destruct (decide (a ≠ 0)) as [Ha0|Ha0]; destruct (decide (b ≠ 0)) as [Hb0|Hb0].
  - destruct (node_row n a) as (p & -> & Hp); [lia|].
    destruct (node_row n b) as (q & -> & Hq); [lia|].
    destruct (isub2_Ok n 1 Mr _ _ _ _ x HM Hp Hcol) as (M1 & -> & HM1 & H1).
    simpl.
    destruct (iadd2_Ok n 1 M1 _ _ _ _ x HM1 Hq Hcol) as (M2 & -> & HM2 & H2).
    exists M2. split; [done|]. split; [done|]. intros i.
    rewrite H2, H1. unfold current_stamp_spec. compare_entries.
  - destruct (node_row n a) as (p & -> & Hp); [lia|].
    destruct (isub2_Ok n 1 Mr _ _ _ _ x HM Hp Hcol) as (M1 & -> & HM1 & H1).
    simpl.
    exists M1. split; [done|]. split; [done|]. intros i.
    rewrite H1. unfold current_stamp_spec. compare_entries.
  - simpl. destruct (node_row n b) as (q & -> & Hq); [lia|].
    destruct (iadd2_Ok n 1 Mr _ _ _ _ x HM Hq Hcol) as (M2 & -> & HM2 & H2).
    exists M2. split; [done|]. split; [done|]. intros i.
    rewrite H2. unfold current_stamp_spec. compare_entries.
  - simpl. exists Mr. split; [done|]. split; [done|]. intros i.
    unfold current_stamp_spec. compare_entries.
Qed.

Lemma current_stamp_witness :
  exists Mr',
    stamp_current [[0]; [0]]%float (Component "I1" "1" "2" "3") = Ok Mr' /\
    cell Mr' 0 0 = Some (0 - 3)%float /\ cell Mr' 1 0 = Some (0 + 3)%float.
Proof.
  destruct (current_stamp 2 [[0]; [0]]%float (Component "I1" "1" "2" "3")
              1 2 3%float) as (Mr' & Hrun & _ & Hcells).
  - split; [reflexivity|]. repeat constructor.
  - reflexivity.
  - reflexivity.
  - vm_compute. reflexivity.
  - lia.
  - lia.
  - exists Mr'. split; [exact Hrun|].
    rewrite (Hcells 0%nat), (Hcells 1%nat). split; reflexivity.
Defined.

(** ** What the builder receives and how it ends *)

(** X11. Every component a successful parse returns has terminals that
    [int] reads back as node indices from 0 up to the node count excluded. *)
Theorem parsed_terminals_read_back (lines : list string)
    (Rs Vs Is : list component) (nm : gmap string Z) (nc : Z) :
  parsing (Some lines) = Ok (Rs, Vs, Is, nm, nc) ->
  Forall (component_indexed nc) (Rs ++ Vs ++ Is).
Proof.
  intros (st & Hst & -> & -> & -> & -> & ->)%parsing_Ok_inv.
  exact (parsed_components_indexed _ _ Hst).
Qed.

Lemma parsed_terminals_read_back_witness :
  Forall (component_indexed 2)
    ([Component "R1" "1" "0" "5"] ++ [Component "V1" "1" "0" "10"] ++ []).
Proof. exact (parsed_terminals_read_back _ _ _ _ _ _ example_parsed). Defined.

Lemma any_node_row (n : nat) (a : Z) :
  (1 <= n)%nat -> 0 <= a <= Z.of_nat n ->
  exists p, norm_index n (a - 1) = Some p.
Proof.
  intros Hn Ha. destruct (decide (a = 0)) as [->|Ha0].
  - eexists. apply norm_index_negative. lia.
  - eexists. apply norm_index_nonneg. lia.
Qed.

Lemma for_each_outcome {A S} (P : S -> Prop) (good : A -> bool)
    (e : exception) (body : S -> A -> result S) (items : list A) (s : S) :
  P s ->
  (forall s x, P s -> x ∈ items ->
     if good x then exists s', body s x = Ok s' /\ P s'
     else body s x = Raise e) ->
  if forallb good items then exists s', for_each body s items = Ok s' /\ P s'
  else for_each body s items = Raise e.
Proof.
  revert s. induction items as [|x items IH]; intros s Hs Hbody; simpl.
  { eauto. }
  pose proof (Hbody s x Hs ltac:(left)) as Hx.
  destruct (good x); simpl.
  - destruct Hx as (s1 & -> & Hs1). simpl. apply IH; [done|].
    intros s2 y Hs2 Hy. apply Hbody; [done|by right].
  - by rewrite Hx.
Qed.

Lemma stamp_resistor_outcome (n : nat) (M : matrix) (R : component) :
  has_shape n n M -> (1 <= n)%nat -> component_indexed (Z.of_nat n + 1) R ->
  if resistor_value_good R
  then exists M', stamp_resistor M R = Ok M' /\ has_shape n n M'
  else stamp_resistor M R = Raise (TypeError "Malformed circuit file").
Proof.
  intros HM Hn (a & b & Ha & Hb & Hra & Hrb). unfold resistor_value_good.
  destruct (py_float (value R)) as [x|] eqn:Hv;
    [|by eapply stamp_resistor_non_numeric].
  destruct (PrimFloat.eqb x 0) eqn:Hx; simpl;
    [by eapply stamp_resistor_zero_value|].
  destruct (any_node_row n a Hn) as [p Hp]; [lia|].
  destruct (any_node_row n b Hn) as [q Hq]; [lia|].
  unfold stamp_resistor, int_of.
  rewrite Ha, Hb, zero_test_is_false, (conductance_Ok _ _ Hv Hx). simpl.
  generalize (1 / x)%float. intros Y.
  destruct (decide (a ≠ b)).
  - assert (H1 : exists M1,
               (if decide (a ≠ 0) then iadd2 M (a - 1) (a - 1) Y else Ok M)
               = Ok M1 /\ has_shape n n M1).
    { case_decide; [|eauto].
      destruct (iadd2_Ok n n M _ _ _ _ Y HM Hp Hp) as (M1 & ? & ? & _). eauto. }
    destruct H1 as (M1 & -> & HM1). simpl.
    assert (H2 : exists M2,
               (if decide (b ≠ 0) then iadd2 M1 (b - 1) (b - 1) Y else Ok M1)
               = Ok M2 /\ has_shape n n M2).
    { case_decide; [|eauto].
      destruct (iadd2_Ok n n M1 _ _ _ _ Y HM1 Hq Hq) as (M2 & ? & ? & _). eauto. }
    destruct H2 as (M2 & -> & HM2). simpl.
    case_decide; [|eauto].
    destruct (isub2_Ok n n M2 _ _ _ _ Y HM2 Hp Hq) as (M3 & -> & HM3 & _).
    simpl.
    destruct (isub2_Ok n n M3 _ _ _ _ Y HM3 Hq Hp) as (M4 & -> & HM4 & _).
    eauto.
  - destruct (iadd2_Ok n n M _ _ _ _ Y HM Hp Hp) as (M1 & ? & ? & _). eauto.
Qed.

Lemma stamp_current_outcome (n : nat) (Mr : matrix) (C : component) :
  has_shape n 1 Mr -> component_indexed (Z.of_nat n + 1) C ->
  if source_value_good C
  then exists Mr', stamp_current Mr C = Ok Mr' /\ has_shape n 1 Mr'
  else stamp_current Mr C = Raise (TypeError "Malformed circuit file").
Proof.
  intros HM (a & b & Ha & Hb & Hra & Hrb). unfold source_value_good.
  assert (Hcol : norm_index 1 0 = Some 0%nat) by reflexivity.
  unfold stamp_current, int_of. rewrite Ha, Hb. simpl.
  destruct (py_float (value C)) as [x|] eqn:Hv.
  2: { unfold float_of. by rewrite Hv. }
  rewrite (source_value_Ok _ _ Hv). simpl.
  assert (H1 : exists M1,
             (if decide (a ≠ 0) then isub2 Mr (a - 1) 0 x else Ok Mr)
             = Ok M1 /\ has_shape n 1 M1).
  { case_decide; [|eauto].
    destruct (node_row n a) as (p & _ & Hp); [lia|].
    destruct (isub2_Ok n 1 Mr _ _ _ _ x HM Hp Hcol) as (M1 & ? & ? & _). eauto. }
  destruct H1 as (M1 & -> & HM1). simpl.
  case_decide; [|eauto].
  destruct (node_row n b) as (q & _ & Hq); [lia|].
  destruct (iadd2_Ok n 1 M1 _ _ _ _ x HM1 Hq Hcol) as (M2 & ? & ? & _). eauto.
Qed.

Lemma stamp_voltage_outcome (nc : Z) (nv i : nat) (M Mr : matrix)
    (V : component) :
  has_shape (system_size nc nv) (system_size nc nv) M ->
  has_shape (system_size nc nv) 1 Mr ->
  1 <= nc -> (i < nv)%nat -> component_indexed nc V ->
  if source_value_good V
  then exists sys', stamp_voltage (nc - 1) (M, Mr) (Z.of_nat i, V) = Ok sys' /\
                    has_shape (system_size nc nv) (system_size nc nv) sys'.1 /\
                    has_shape (system_size nc nv) 1 sys'.2
  else stamp_voltage (nc - 1) (M, Mr) (Z.of_nat i, V)
       = Raise (TypeError "Malformed circuit file").
Proof.
  intros HM HMr Hnc Hi (a & b & Ha & Hb & Hra & Hrb). unfold source_value_good.
  assert (Hcol : norm_index 1 0 = Some 0%nat) by reflexivity.
  destruct (extra_row_index nc nv i Hnc Hi) as (r & _ & Hr).
  unfold extra_row in Hr. set (d := system_size nc nv) in *.
  unfold stamp_voltage, int_of. rewrite Ha, Hb. simpl.
  destruct (py_float (value V)) as [x|] eqn:Hv.
  2: { unfold float_of. by rewrite Hv. }
  rewrite (source_value_Ok _ _ Hv). simpl.
  assert (H1 : exists M1,
             (if decide (a ≠ 0) then
                M0 ← set2 M (nc - 1 + Z.of_nat i) (a - 1) 1%float;
                set2 M0 (a - 1) (nc - 1 + Z.of_nat i) 1%float
              else Ok M) = Ok M1 /\ has_shape d d M1).
  { case_decide; [|eauto].
    destruct (node_column nc nv a) as (p & _ & Hp); [lia|]. fold d in Hp.
    destruct (set2_Ok d d M _ _ _ _ 1%float HM Hr Hp) as (N1 & -> & HN1 & _).
    simpl.
    destruct (set2_Ok d d N1 _ _ _ _ 1%float HN1 Hp Hr) as (N2 & ? & ? & _).
    eauto. }
  destruct H1 as (M1 & -> & HM1). simpl.
  assert (H2 : exists M2,
             (if decide (b ≠ 0) then
                M0 ← set2 M1 (nc - 1 + Z.of_nat i) (b - 1) (-1)%float;
                set2 M0 (b - 1) (nc - 1 + Z.of_nat i) (-1)%float
              else Ok M1) = Ok M2 /\ has_shape d d M2).
  { case_decide; [|eauto].
    destruct (node_column nc nv b) as (p & _ & Hp); [lia|]. fold d in Hp.
    destruct (set2_Ok d d M1 _ _ _ _ (-1)%float HM1 Hr Hp) as (N1 & -> & HN1 & _).
    simpl.
    destruct (set2_Ok d d N1 _ _ _ _ (-1)%float HN1 Hp Hr) as (N2 & ? & ? & _).
    eauto. }
  destruct H2 as (M2 & -> & HM2). simpl.
  destruct (set2_Ok d 1 Mr _ _ _ _ x HMr Hr Hcol) as (Mr1 & -> & HMr1 & _).
  simpl. by exists (M2, Mr1).
Qed.

Lemma np_zeros_Ok (rows cols : Z) :
  0 <= rows -> 0 <= cols ->
  exists M, np_zeros rows cols = Ok M /\
            has_shape (Z.to_nat rows) (Z.to_nat cols) M.
Proof.
  intros Hr Hc. unfold np_zeros.
  destruct (Z.ltb_spec rows 0); [lia|]. destruct (Z.ltb_spec cols 0); [lia|].
  simpl. eexists. split; [done|]. by apply np_zeros_shape; unfold np_zeros;
    destruct (Z.ltb_spec rows 0); [lia|]; destruct (Z.ltb_spec cols 0); [lia|].
Qed.

(** X12. On the components of a parsed netlist whose system has at least one
    row, [matrix_formation] either returns a system or raises the
    malformed-value TypeError, and nothing else: it returns exactly when
    every resistor value is a number other than zero and every source value
    is a number. *)
Theorem builder_outcome (lines : list string) (Rs Vs Is : list component)
    (nm : gmap string Z) (nc : Z) :
  parsing (Some lines) = Ok (Rs, Vs, Is, nm, nc) ->
  (1 <= system_size nc (length Vs))%nat ->
  if forallb resistor_value_good Rs && forallb source_value_good Is
     && forallb source_value_good Vs
  then exists M Mr, matrix_formation Rs Vs Is nm nc = Ok (M, Mr)
  else matrix_formation Rs Vs Is nm nc
       = Raise (TypeError "Malformed circuit file").
Proof.
  intros Hparse Hsize.
  pose proof Hparse as (st & Hst & -> & -> & -> & -> & ->)%parsing_Ok_inv.
  pose proof (parsed_components_indexed _ _ Hst) as Hcomp.
  unfold all_components in Hcomp.
  apply Forall_app in Hcomp as [HRs Hcomp].
  apply Forall_app in Hcomp as [HVs HIs].
  destruct (parsed_range _ _ Hst) as [Hg Hr]. specialize (Hr _ _ Hg).
  set (nc := node_counter st) in *. set (Vs := Voltage_sources st) in *.
  set (d := system_size nc (length Vs)) in *.
  assert (Hd : Z.of_nat d = nc - 1 + Z.of_nat (length Vs))
    by (unfold d, system_size; lia).
  assert (Hwide : forall c, component_indexed nc c ->
                            component_indexed (Z.of_nat d + 1) c).
  { intros c. apply component_indexed_mono. lia. }
  unfold matrix_formation.
  destruct (np_zeros_Ok (nc - 1 + Z.of_nat (length Vs))
              (nc - 1 + Z.of_nat (length Vs))) as (M0 & -> & HM0); [lia|lia|].
  destruct (np_zeros_Ok (nc - 1 + Z.of_nat (length Vs)) 1)
    as (Mr0 & -> & HMr0); [lia|lia|].
  fold (system_size nc (length Vs)) in HM0, HMr0. fold d in HM0, HMr0.
  change (Z.to_nat 1) with 1%nat in HMr0.
  cbn [mbind result_bind].
  pose proof (for_each_outcome (has_shape d d) resistor_value_good
                (TypeError "Malformed circuit file") stamp_resistor
                (Resistors st) M0 HM0) as HR.
  destruct (forallb resistor_value_good (Resistors st)).
  2: { simpl. rewrite HR; [done|]. intros s x Hs Hx.
       apply stamp_resistor_outcome; [done|done|].
       apply Hwide. rewrite Forall_forall in HRs. auto. }
  destruct HR as (M1 & -> & HM1).
  { intros s x Hs Hx. apply stamp_resistor_outcome; [done|done|].
    apply Hwide. rewrite Forall_forall in HRs. auto. }
  cbn [mbind result_bind andb].
  pose proof (for_each_outcome (has_shape d 1) source_value_good
                (TypeError "Malformed circuit file") stamp_current
                (Current_sources st) Mr0 HMr0) as HI.
  destruct (forallb source_value_good (Current_sources st)).
  2: { simpl. rewrite HI; [done|]. intros s x Hs Hx.
       apply stamp_current_outcome; [done|].
       apply Hwide. rewrite Forall_forall in HIs. auto. }
  destruct HI as (Mr1 & -> & HMr1).
  { intros s x Hs Hx. apply stamp_current_outcome; [done|].
    apply Hwide. rewrite Forall_forall in HIs. auto. }
  cbn [mbind result_bind andb].
  pose proof (for_each_outcome
                (fun sys => has_shape d d sys.1 /\ has_shape d 1 sys.2)
                (fun item => source_value_good item.2)
                (TypeError "Malformed circuit file")
                (stamp_voltage (nc - 1)) (enumerate Vs) (M1, Mr1)
                (conj HM1 HMr1)) as HV.
  assert (Hgood : forallb (fun item : Z * component => source_value_good item.2)
                    (enumerate Vs) = forallb source_value_good Vs).
  { unfold enumerate. clearbody Vs.
    assert (Hf : forall (i : nat) (x : component),
               ((fun (i : nat) (x : component) => (Z.of_nat i, x)) i x).2 = x)
      by done.
    revert Hf.
    generalize (fun (i : nat) (x : component) => (Z.of_nat i, x)) as f.
    clear. induction Vs as [|v vs IH]; intros f Hf; simpl; [done|].
    rewrite Hf. f_equal. apply IH. intros i x. apply Hf. }
  rewrite Hgood in HV.
  assert (Hstep : forall (s : matrix * matrix) (x : Z * component),
             has_shape d d s.1 /\ has_shape d 1 s.2 -> x ∈ enumerate Vs ->
             if source_value_good x.2
             then exists s', stamp_voltage (nc - 1) s x = Ok s' /\
                             has_shape d d s'.1 /\ has_shape d 1 s'.2
             else stamp_voltage (nc - 1) s x
                  = Raise (TypeError "Malformed circuit file")).
  { intros [M Mr] [j V] [HM HMr] Hin.
    apply list_elem_of_lookup in Hin as [k Hk].
    unfold enumerate in Hk. rewrite list_lookup_imap in Hk.
    destruct (Vs !! k) as [V'|] eqn:HV'; [|discriminate].
    injection Hk as <- <-. simpl.
    apply stamp_voltage_outcome; try done; [lia| |].
    - apply lookup_lt_is_Some. eauto.
    - rewrite Forall_forall in HVs. apply HVs.
      apply list_elem_of_lookup. eauto. }
  destruct (forallb source_value_good Vs).
  - destruct (HV Hstep) as ([M Mr] & -> & _). eauto.
  - by rewrite (HV Hstep).
Qed.

Lemma builder_outcome_witness :
  exists M Mr,
    matrix_formation [Component "R1" "1" "0" "5"] [Component "V1" "1" "0" "10"]
      [] {[ "GND" := 0; "1" := 1 ]} 2 = Ok (M, Mr).
Proof.
  refine (builder_outcome _ _ _ _ _ _ example_parsed _). vm_compute. lia.
Defined.

(** ** Symmetry of the coefficient matrix *)

Lemma set2_inv (rows cols : nat) (M M' : matrix) (i j : Z) (x : float) :
  has_shape rows cols M -> set2 M i j x = Ok M' ->
  exists p q, norm_index rows i = Some p /\ norm_index cols j = Some q /\
              has_shape rows cols M' /\ cell_changed (fun _ => x) p q M M'.
Proof.
  intros HM Hset. pose proof HM as [Hlen Hrows].
  assert (Hpq : exists p q, norm_index rows i = Some p /\
                            norm_index cols j = Some q).
  { unfold set2 in Hset. rewrite Hlen in Hset.
    destruct (norm_index rows i) as [p|]; [|discriminate].
    destruct (M !! p) as [row|] eqn:Hrow; [|discriminate].
    rewrite Forall_lookup in Hrows. rewrite (Hrows _ _ Hrow) in Hset.
    destruct (norm_index cols j) as [q|]; [|discriminate]. eauto. }
  destruct Hpq as (p & q & Hp & Hq). exists p, q.
  destruct (set2_Ok rows cols M i j p q x HM Hp Hq) as (M2 & HM2 & Hs & Hc).
  rewrite Hset in HM2. injection HM2 as <-. done.
Qed.

Lemma iadd2_inv (rows cols : nat) (M M' : matrix) (i j : Z) (y : float) :
  has_shape rows cols M -> iadd2 M i j y = Ok M' ->
  exists p q, norm_index rows i = Some p /\ norm_index cols j = Some q /\
              has_shape rows cols M' /\
              cell_changed (fun e => (e + y)%float) p q M M'.
Proof.
  intros HM Hadd. pose proof Hadd as Hadd'. unfold iadd2 in Hadd'.
  apply bind_Ok_inv in Hadd' as (e & _ & Hset).
  destruct (set2_inv _ _ _ _ _ _ _ HM Hset) as (p & q & Hp & Hq & _).
  exists p, q.
  destruct (iadd2_Ok rows cols M i j p q y HM Hp Hq) as (M2 & HM2 & Hs & Hc).
  rewrite Hadd in HM2. injection HM2 as <-. done.
Qed.

Lemma isub2_inv (rows cols : nat) (M M' : matrix) (i j : Z) (y : float) :
  has_shape rows cols M -> isub2 M i j y = Ok M' ->
  exists p q, norm_index rows i = Some p /\ norm_index cols j = Some q /\
              has_shape rows cols M' /\
              cell_changed (fun e => (e - y)%float) p q M M'.
Proof.
  intros HM Hsub. pose proof Hsub as Hsub'. unfold isub2 in Hsub'.
  apply bind_Ok_inv in Hsub' as (e & _ & Hset).
  destruct (set2_inv _ _ _ _ _ _ _ HM Hset) as (p & q & Hp & Hq & _).
  exists p, q.
  destruct (isub2_Ok rows cols M i j p q y HM Hp Hq) as (M2 & HM2 & Hs & Hc).
  rewrite Hsub in HM2. injection HM2 as <-. done.
Qed.

Lemma symmetric_diagonal (f : float -> float) (p : nat) (M M' : matrix) :
  symmetric M -> cell_changed f p p M M' -> symmetric M'.
Proof.
  intros Hsym Hc i j. rewrite (Hc i j), (Hc j i), (Hsym i j).
  repeat case_decide; try done; lia.
Qed.

Lemma symmetric_pair (f : float -> float) (p q : nat) (M M1 M2 : matrix) :
  symmetric M -> cell_changed f p q M M1 -> cell_changed f q p M1 M2 ->
  symmetric M2.
Proof.
  intros Hsym H1 H2 i j.
  rewrite (H2 i j), (H2 j i), (H1 i j), (H1 j i), (Hsym i j).
  repeat case_decide; try done; lia.
Qed.

Lemma cell_replicate (n m : nat) (x : float) (i j : nat) :
  cell (replicate n (replicate m x)) i j
  = if decide (i < n /\ j < m)%nat then Some x else None.
Proof.
  unfold cell. destruct (decide (i < n)%nat) as [Hi|Hi].
  - rewrite (lookup_replicate_2 _ _ _ Hi). simpl.
    destruct (decide (j < m)%nat) as [Hj|Hj].
    + rewrite (lookup_replicate_2 _ _ _ Hj). by rewrite decide_True.
    + assert (Hn : replicate m x !! j = None)
        by (apply lookup_replicate_None; lia).
      rewrite Hn. rewrite decide_False; [done|]. intros []. lia.
  - assert (Hn : replicate n (replicate m x) !! i = None)
      by (apply lookup_replicate_None; lia).
    rewrite Hn. simpl. rewrite decide_False; [done|]. intros []. lia.
Qed.

Lemma np_zeros_symmetric (n : Z) (M : matrix) :
  np_zeros n n = Ok M -> symmetric M.
Proof.
  unfold np_zeros. destruct ((n <? 0) || (n <? 0)); [discriminate|].
  intros [= <-] i j. rewrite !cell_replicate.
  repeat case_decide; try done; lia.
Qed.

Lemma stamp_resistor_symmetric (d : nat) (M M' : matrix) (R : component) :
  has_shape d d M /\ symmetric M -> stamp_resistor M R = Ok M' ->
  has_shape d d M' /\ symmetric M'.
Proof.
  intros [HM Hsym]. unfold stamp_resistor.
  intros (a & _ & H)%bind_Ok_inv. apply bind_Ok_inv in H as (b & _ & H).
  rewrite zero_test_is_false in H. apply bind_Ok_inv in H as (Y & _ & H).
  assert (Hdiag : forall (N N' : matrix) (c : Z),
             has_shape d d N /\ symmetric N ->
             iadd2 N (c - 1) (c - 1) Y = Ok N' ->
             has_shape d d N' /\ symmetric N').
  { intros N N' c [HN HsN] Hadd.
    destruct (iadd2_inv _ _ _ _ _ _ _ HN Hadd) as (p & q & Hp & Hq & HN' & Hc).
    assert (q = p) as -> by congruence.
    split; [done|]. by eapply symmetric_diagonal. }
  destruct (decide (a ≠ b)); [|by eapply Hdiag].
  apply bind_Ok_inv in H as (M1 & H1 & H).
  apply bind_Ok_inv in H as (M2 & H2 & H).
  assert (HM1 : has_shape d d M1 /\ symmetric M1).
  { destruct (decide (a ≠ 0)); [by eapply Hdiag|by injection H1 as <-]. }
  assert (HM2 : has_shape d d M2 /\ symmetric M2).
  { destruct (decide (b ≠ 0)); [by eapply Hdiag|by injection H2 as <-]. }
  destruct (decide (a ≠ 0 /\ b ≠ 0)); [|by injection H as <-].
  apply bind_Ok_inv in H as (M3 & H3 & H). destruct HM2 as [HM2 Hs2].
  destruct (isub2_inv _ _ _ _ _ _ _ HM2 H3) as (p & q & Hp & Hq & HM3 & Hc3).
  destruct (isub2_inv _ _ _ _ _ _ _ HM3 H) as (q' & p' & Hq' & Hp' & HM4 & Hc4).
  assert (q' = q) as -> by congruence. assert (p' = p) as -> by congruence.
  split; [done|]. by eapply symmetric_pair.
Qed.

Lemma stamp_voltage_symmetric (d : nat) (tn : Z) (sys sys' : matrix * matrix)
    (item : Z * component) :
  has_shape d d sys.1 /\ symmetric sys.1 ->
  stamp_voltage tn sys item = Ok sys' ->
  has_shape d d sys'.1 /\ symmetric sys'.1.
Proof.
  destruct sys as [M Mr], item as [i V]. simpl. intros HM.
  intros (a & _ & H)%bind_Ok_inv. apply bind_Ok_inv in H as (b & _ & H).
  apply bind_Ok_inv in H as (v & _ & H).
  apply bind_Ok_inv in H as (M1 & H1 & H).
  apply bind_Ok_inv in H as (M2 & H2 & H).
  apply bind_Ok_inv in H as (Mr1 & H3 & H). injection H as <-. simpl.
  assert (Hpair : forall (N N' : matrix) (c : Z) (x : float),
             has_shape d d N /\ symmetric N ->
             (N0 ← set2 N (tn + i) (c - 1) x; set2 N0 (c - 1) (tn + i) x)
             = Ok N' ->
             has_shape d d N' /\ symmetric N').
  { intros N N' c x [HN HsN] Hset.
    apply bind_Ok_inv in Hset as (N0 & Hs1 & Hs2).
    destruct (set2_inv _ _ _ _ _ _ _ HN Hs1) as (p & q & Hp & Hq & HN0 & Hc1).
    destruct (set2_inv _ _ _ _ _ _ _ HN0 Hs2)
      as (q' & p' & Hq' & Hp' & HN' & Hc2).
    assert (q' = q) as -> by congruence. assert (p' = p) as -> by congruence.
    split; [done|]. by eapply symmetric_pair. }
  assert (HM1 : has_shape d d M1 /\ symmetric M1).
  { destruct (decide (a ≠ 0)); [by eapply Hpair|by injection H1 as <-]. }
  destruct (decide (b ≠ 0)); [by eapply Hpair|by injection H2 as <-].
Qed.

(** X13. The coefficient matrix [matrix_formation] returns is symmetric:
    its entry at row [i] and column [j] is its entry at row [j] and column
    [i], whatever the components are. *)
Theorem coefficient_matrix_symmetric (Rs Vs Is : list component)
    (nm : gmap string Z) (nc : Z) (M Mr : matrix) :
  matrix_formation Rs Vs Is nm nc = Ok (M, Mr) -> symmetric M.
Proof.
  intros H. unfold matrix_formation in H.
  set (d := Z.to_nat (nc - 1 + Z.of_nat (length Vs))).
  apply bind_Ok_inv in H as (M0 & HM0 & H).
  apply bind_Ok_inv in H as (Mr0 & _ & H).
  apply bind_Ok_inv in H as (M1 & HM1 & H).
  apply bind_Ok_inv in H as (Mr1 & _ & H).
  assert (H0 : has_shape d d M0 /\ symmetric M0).
  { split; [by apply np_zeros_shape|by eapply np_zeros_symmetric]. }
  assert (H1 : has_shape d d M1 /\ symmetric M1).
  { refine (for_each_invariant (fun N => has_shape d d N /\ symmetric N)
              _ _ _ M0 M1 H0 HM1).
    intros s x s'. apply stamp_resistor_symmetric. }
  refine (proj2 (for_each_invariant
            (fun sys => has_shape d d sys.1 /\ symmetric sys.1)
            _ _ _ (M1, Mr1) (M, Mr) H1 H)).
  intros s x s'. apply stamp_voltage_symmetric.
Qed.

Lemma coefficient_matrix_symmetric_witness :
  exists M Mr,
    matrix_formation [Component "R1" "1" "2" "5"] [Component "V1" "1" "0" "10"]
      [] ({[ "GND" := 0; "1" := 1; "2" := 2 ]}) 3 = Ok (M, Mr) /\
    symmetric M /\ cell M 0 2 = Some 1%float.
Proof.
  eexists _, _. split; [vm_compute; reflexivity|]. split.
  - eapply (coefficient_matrix_symmetric [Component "R1" "1" "2" "5"]
              [Component "V1" "1" "0" "10"] []
              ({[ "GND" := 0; "1" := 1; "2" := 2 ]}) 3).
    vm_compute. reflexivity.
  - reflexivity.
Defined.

(** ** The right-hand side of the returned system *)

Lemma enumerate_snoc {A} (l : list A) (x : A) :
  enumerate (l ++ [x]) = enumerate l ++ [(Z.of_nat (length l), x)].
Proof.
  unfold enumerate. rewrite imap_app. simpl. by rewrite Nat.add_0_r.
Qed.

Lemma norm_index_nonneg_inv (len : nat) (i : Z) (p : nat) :
  0 <= i -> norm_index len i = Some p -> p = Z.to_nat i.
Proof.
  intros Hi. unfold norm_index.
  destruct (Z.leb_spec 0 i); [|lia]. simpl.
  destruct (i <? Z.of_nat len); simpl; [by intros [= <-]|].
  destruct (Z.ltb_spec i 0); [lia|]. rewrite andb_false_r. discriminate.
Qed.

Lemma voltage_loop_rhs (d : nat) (tn : Z) (Vs : list component)
    (sys sys' : matrix * matrix) :
  0 <= tn -> has_shape d d sys.1 /\ has_shape d 1 sys.2 ->
  for_each (stamp_voltage tn) sys (enumerate Vs) = Ok sys' ->
  forall i V, Vs !! i = Some V ->
    exists v, py_float (value V) = Some v /\
              cell sys'.2 (Z.to_nat tn + i) 0 = Some v.
Proof.
  intros Htn Hsys. revert sys'.
  induction Vs as [|V0 Vs IH] using rev_ind; intros sys' Hrun i V Hi.
  { done. }
  rewrite enumerate_snoc, for_each_app in Hrun.
  apply bind_Ok_inv in Hrun as (sys1 & Hpre & Hlast).
  simpl in Hlast. apply bind_Ok_inv in Hlast as (sys2 & Hstep & [= ->]).
  assert (Hshape : has_shape d d sys1.1 /\ has_shape d 1 sys1.2).
  { refine (for_each_invariant
              (fun s => has_shape d d s.1 /\ has_shape d 1 s.2)
              _ _ _ sys sys1 Hsys Hpre).
    intros s x s'. apply stamp_voltage_shape. }
  specialize (IH sys1 Hpre).
  destruct sys1 as [M1 Mr1]. simpl in Hstep, Hshape, IH.
  apply bind_Ok_inv in Hstep as (a & _ & H).
  apply bind_Ok_inv in H as (b & _ & H).
  apply bind_Ok_inv in H as (v & Hv & H).
  apply bind_Ok_inv in H as (M2 & _ & H).
  apply bind_Ok_inv in H as (M3 & _ & H).
  apply bind_Ok_inv in H as (Mr2 & Hset & [= <-]). simpl.
  destruct (set2_inv _ _ _ _ _ _ _ (proj2 Hshape) Hset)
    as (p & q & Hp & Hq & HMr2 & Hcell).
  injection Hq as <-.
  pose proof (norm_index_lt _ _ _ Hp) as Hpd.
  apply norm_index_nonneg_inv in Hp; [|lia].
  rewrite Hcell.
  destruct (decide (i = length Vs)) as [->|Hne].
  - rewrite lookup_app_r, Nat.sub_diag in Hi by done. injection Hi as <-.
    exists v. split.
    { unfold float_of in Hv. destruct (py_float (value V0)); [|discriminate].
      by injection Hv as ->. }
    rewrite decide_True by (split; [lia|done]).
    destruct (proj2 (cell_Some_iff d 1 Mr1 (Z.to_nat tn + length Vs) 0
                       (proj2 Hshape)) ltac:(lia)) as [e He].
    by rewrite He.
  - assert (Hlt : (i < length Vs)%nat).
    { apply lookup_lt_Some in Hi. rewrite length_app in Hi. simpl in Hi. lia. }
    rewrite lookup_app_l in Hi by done.
    rewrite decide_False by lia. by apply IH.
Qed.

(** X14. In the system [matrix_formation] returns for a node count of at
    least 1, the right-hand side holds, in the row [node_count - 1 + i] of
    the voltage source numbered [i], the value of that source. *)
Theorem rhs_source_rows (Rs Vs Is : list component) (nm : gmap string Z)
    (nc : Z) (M Mr : matrix) :
  1 <= nc -> matrix_formation Rs Vs Is nm nc = Ok (M, Mr) ->
  forall i V, Vs !! i = Some V ->
    exists v, py_float (value V) = Some v /\
              cell Mr (Z.to_nat (nc - 1) + i) 0 = Some v.
Proof.
  intros Hnc H. unfold matrix_formation in H.
  set (d := Z.to_nat (nc - 1 + Z.of_nat (length Vs))).
  apply bind_Ok_inv in H as (M0 & HM0%np_zeros_shape & H).
  apply bind_Ok_inv in H as (Mr0 & HMr0%np_zeros_shape & H).
  apply bind_Ok_inv in H as (M1 & HM1 & H).
  apply bind_Ok_inv in H as (Mr1 & HMr1 & H).
  refine (voltage_loop_rhs d (nc - 1) Vs (M1, Mr1) (M, Mr) _ _ H); [lia|].
  simpl. split.
  - eapply (for_each_invariant (has_shape d d)); [|exact HM0|exact HM1].
    intros s x s'. apply stamp_resistor_shape.
  - eapply (for_each_invariant (has_shape d 1)); [|exact HMr0|exact HMr1].
    intros s x s'. apply stamp_current_shape.
Qed.

Lemma rhs_source_rows_witness :
  exists M Mr,
    matrix_formation [Component "R1" "1" "0" "5"] [Component "V1" "1" "0" "10"]
      [] ({[ "GND" := 0; "1" := 1 ]}) 2 = Ok (M, Mr) /\
    exists v, py_float "10" = Some v /\ cell Mr 1 0 = Some v.
Proof.
  eexists _, _. split; [vm_compute; reflexivity|].
  refine (rhs_source_rows [Component "R1" "1" "0" "5"]
            [Component "V1" "1" "0" "10"] [] ({[ "GND" := 0; "1" := 1 ]}) 2
            _ _ _ _ 0%nat (Component "V1" "1" "0" "10") eq_refl);
    [lia|vm_compute; reflexivity].
Defined.

(** ** The result dictionaries *)

Lemma parsed_table_injective (lines : list string) (st : parse_state) :
  for_each parse_line initial_state lines = Ok st ->
  forall k k' j, node_mapping st !! k = Some j ->
                 node_mapping st !! k' = Some j -> k = k'.
Proof.
  intros Hst.
  apply file_run_rows in Hst as (st0 & Hrows & Heq).
  apply set_Junk_fields in Heq as (Hnm & Hnc & _).
  destruct (rows_table _ (set_Junk false initial_state) _
              (rows_not_marker _ _) eq_refl Hrows) as [_ Hinj];
    [..|by rewrite Hnm in Hinj].
  - split; [done|]. simpl. intros node i.
    rewrite lookup_singleton_Some. intros [_ <-]. lia.
  - simpl. by rewrite map_size_singleton.
  - simpl. intros k k' j. rewrite !lookup_singleton_Some. by intros [<- _] [<- _].
Qed.

Lemma parsed_source_names_distinct (lines : list string) (st : parse_state) :
  for_each parse_line initial_state lines = Ok st ->
  NoDup (name <$> Voltage_sources st).
Proof.
  intros Hst.
  apply file_run_rows in Hst as (st0 & Hrows & Heq).
  apply set_Junk_fields in Heq as (_ & _ & _ & HV & _).
  pose proof (rows_names_distinct _ (set_Junk false initial_state) _
                (rows_not_marker _ _) eq_refl Hrows) as H.
  rewrite <- HV. apply (H ltac:(intros []; (split; [constructor|]);
                                intros c Hc; by apply elem_of_nil in Hc)
                         KVoltage).
Qed.

Lemma np_linalg_solve_shape (a b x : matrix) :
  np_linalg_solve a b = Ok x -> has_shape (length a) 1 x.
Proof.
  intros H. split; [by eapply np_linalg_solve_length|].
  unfold np_linalg_solve in H. destruct (lu_reduce _ _); [|discriminate].
  injection H as <-. apply Forall_fmap, Forall_forall. done.
Qed.

Lemma get2_column (n : nat) (sol : matrix) (i : Z) :
  has_shape n 1 sol -> 0 <= i < Z.of_nat n ->
  exists x, get2 sol i 0 = Ok x /\ cell sol (Z.to_nat i) 0 = Some x.
Proof.
  intros Hsol Hi. eapply get2_Ok; [exact Hsol| |reflexivity].
  by apply norm_index_nonneg.
Qed.

Lemma voltage_loop_frame (solution : matrix) (items : list (string * Z))
    (v0 v : gmap string pynum) (node : string) :
  for_each (voltage_step solution) v0 items = Ok v ->
  node ∉ items.*1 -> v !! node = v0 !! node.
Proof.
  revert v0. induction items as [|[w k] items IH]; intros v0; simpl.
  { by intros [= <-]. }
  intros (v1 & Hstep & Hrest)%bind_Ok_inv Hnot.
  apply not_elem_of_cons in Hnot as [Hne Hnot].
  rewrite (IH _ Hrest Hnot). clear IH Hrest.
  destruct (decide (w = "GND")).
  { injection Hstep as <-. by rewrite lookup_insert_ne. }
  destruct (k <=? Z.of_nat (length solution)); [|by injection Hstep as <-].
  apply bind_Ok_inv in Hstep as (x & _ & [= <-]). by rewrite lookup_insert_ne.
Qed.

Lemma voltage_loop_values (n : nat) (solution : matrix)
    (items : list (string * Z)) (v0 v : gmap string pynum) :
  has_shape n 1 solution -> NoDup items.*1 ->
  (forall node k, (node, k) ∈ items -> node <> "GND" -> 1 <= k <= Z.of_nat n) ->
  for_each (voltage_step solution) v0 items = Ok v ->
  forall node k, (node, k) ∈ items -> node <> "GND" ->
    exists x, cell solution (Z.to_nat (k - 1)) 0 = Some x /\
              v !! node = Some (PyFloat x).
Proof.
  intros Hsol. revert v0.
  induction items as [|[w j] items IH]; intros v0 Hnd Hrange Hrun node k Hin Hne.
  { by apply elem_of_nil in Hin. }
  simpl in Hnd, Hrun. apply NoDup_cons in Hnd as [Hw Hnd].
  apply bind_Ok_inv in Hrun as (v1 & Hstep & Hrest).
  apply elem_of_cons in Hin as [[= -> ->]|Hin].
  - rewrite (voltage_loop_frame _ _ _ _ _ Hrest Hw).
    destruct (Hrange w j ltac:(left) Hne) as [Hj1 Hj2].
    unfold voltage_step in Hstep. rewrite decide_False in Hstep by done.
    destruct Hsol as [Hlen Hrows]. rewrite Hlen in Hstep.
    destruct (Z.leb_spec j (Z.of_nat n)); [|lia].
    destruct (get2_column n solution (j - 1) (conj Hlen Hrows) ltac:(lia))
      as (x & Hget & Hcell).
    rewrite Hget in Hstep. injection Hstep as <-.
    exists x. split; [done|]. by rewrite lookup_insert_eq.
  - eapply IH; [done| |exact Hrest|exact Hin|done].
    intros node' k' Hin'. apply Hrange. by right.
Qed.

Lemma voltage_loop_Ok (n : nat) (solution : matrix)
    (items : list (string * Z)) (v0 : gmap string pynum) :
  has_shape n 1 solution ->
  (forall node k, (node, k) ∈ items -> node <> "GND" -> 1 <= k) ->
  exists v, for_each (voltage_step solution) v0 items = Ok v.
Proof.
  intros Hsol. revert v0.
  induction items as [|[w j] items IH]; intros v0 Hrange; cbn [for_each]; [eauto|].
  assert (Hstep : exists v1, voltage_step solution v0 (w, j) = Ok v1).
  { unfold voltage_step. destruct (decide (w = "GND")); [eauto|].
    pose proof (Hrange w j ltac:(left) ltac:(done)) as Hj.
    destruct Hsol as [Hlen Hrows]. rewrite Hlen.
    destruct (Z.leb_spec j (Z.of_nat n)); [|eauto].
    destruct (get2_column n solution (j - 1) (conj Hlen Hrows) ltac:(lia))
      as (x & -> & _).
    simpl. eauto. }
  destruct Hstep as (v1 & ->). cbn [mbind result_bind]. apply IH.
  intros node k Hin. apply Hrange. by right.
Qed.

Lemma current_loop_frame (nc : Z) (solution : matrix) (Vs : list component)
    (c0 c : gmap string pynum) (idx0 idx : Z) (w : string) :
  for_each (current_step nc solution) (c0, idx0) Vs = Ok (c, idx) ->
  w ∉ name <$> Vs -> c !! w = c0 !! w.
Proof.
  revert c0 idx0. induction Vs as [|V Vs IH]; intros c0 idx0; simpl.
  { by intros [= <- <-]. }
  intros ([c1 idx1] & Hstep & Hrest)%bind_Ok_inv Hnot.
  apply not_elem_of_cons in Hnot as [Hne Hnot].
  rewrite (IH _ _ Hrest Hnot). clear IH Hrest.
  unfold current_step in Hstep.
  apply bind_Ok_inv in Hstep as (c' & Hc' & [= <- <-]).
  destruct (_ <? _); [|by injection Hc' as <-].
  apply bind_Ok_inv in Hc' as (x & _ & [= <-]). by rewrite lookup_insert_ne.
Qed.

Lemma current_loop_values (n : nat) (nc : Z) (solution : matrix)
    (Vs : list component) (c0 c : gmap string pynum) (idx0 idx : Z) :
  has_shape n 1 solution -> NoDup (name <$> Vs) ->
  0 <= nc + idx0 - 1 ->
  nc + idx0 - 1 + Z.of_nat (length Vs) <= Z.of_nat n ->
  for_each (current_step nc solution) (c0, idx0) Vs = Ok (c, idx) ->
  forall i V, Vs !! i = Some V ->
    exists x, cell solution (Z.to_nat (nc + idx0 - 1) + i) 0 = Some x /\
              c !! name V = Some (PyFloat x).
Proof.
  intros Hsol. revert c0 idx0.
  induction Vs as [|V0 Vs IH]; intros c0 idx0 Hnd Hlo Hhi Hrun i V Hi.
  { done. }
  simpl in Hnd, Hrun, Hhi. apply NoDup_cons in Hnd as [Hw Hnd].
  apply bind_Ok_inv in Hrun as ([c1 idx1] & Hstep & Hrest).
  unfold current_step in Hstep.
  apply bind_Ok_inv in Hstep as (c' & Hc' & [= <- <-]).
  destruct i as [|i]; simpl in Hi.
  - injection Hi as <-.
    rewrite (current_loop_frame _ _ _ _ _ _ _ _ Hrest Hw).
    pose proof Hsol as [Hlen Hrows]. rewrite Hlen in Hc'.
    destruct (Z.ltb_spec (nc + idx0 - 1) (Z.of_nat n)); [|lia].
    destruct (get2_column n solution (nc + idx0 - 1) Hsol ltac:(lia))
      as (x & Hget & Hcell).
    rewrite Hget in Hc'. injection Hc' as <-.
    exists x. rewrite Nat.add_0_r. split; [done|]. by rewrite lookup_insert_eq.
  - destruct (IH c' (idx0 + 1) Hnd ltac:(lia) ltac:(lia) Hrest i V Hi)
      as (x & Hcell & Hlook).
    exists x. split; [|done].
    replace (Z.to_nat (nc + idx0 - 1) + S i)%nat
      with (Z.to_nat (nc + (idx0 + 1) - 1) + i)%nat by lia. done.
Qed.

Lemma current_loop_dom (nc : Z) (solution : matrix) (Vs : list component)
    (c0 c : gmap string pynum) (idx0 idx : Z) :
  for_each (current_step nc solution) (c0, idx0) Vs = Ok (c, idx) ->
  dom c ⊆ dom c0 ∪ list_to_set (name <$> Vs).
Proof.
  revert c0 idx0. induction Vs as [|V Vs IH]; intros c0 idx0; simpl.
  { intros [= <- <-]. set_solver. }
  intros ([c1 idx1] & Hstep & Hrest)%bind_Ok_inv.
  apply IH in Hrest. unfold current_step in Hstep.
  apply bind_Ok_inv in Hstep as (c' & Hc' & [= <- <-]).
  assert (dom c' ⊆ {[ name V ]} ∪ dom c0); [|set_solver].
  destruct (_ <? _); [|injection Hc' as <-; set_solver].
  apply bind_Ok_inv in Hc' as (x & _ & [= <-]). rewrite dom_insert. set_solver.
Qed.

Lemma current_loop_Ok (n : nat) (nc : Z) (solution : matrix)
    (Vs : list component) (c0 : gmap string pynum) (idx0 : Z) :
  has_shape n 1 solution -> 0 <= nc + idx0 - 1 ->
  exists st, for_each (current_step nc solution) (c0, idx0) Vs = Ok st.
Proof.
  intros Hsol. revert c0 idx0.
  induction Vs as [|V Vs IH]; intros c0 idx0 Hlo; cbn [for_each]; [eauto|].
  assert (Hstep : exists c1,
             current_step nc solution (c0, idx0) V = Ok (c1, idx0 + 1)).
  { unfold current_step. pose proof Hsol as [Hlen Hrows]. rewrite Hlen.
    destruct (Z.ltb_spec (nc + idx0 - 1) (Z.of_nat n)); [|simpl; eauto].
    destruct (get2_column n solution (nc + idx0 - 1) Hsol ltac:(lia))
      as (x & -> & _).
    simpl. eauto. }
  destruct Hstep as (c1 & ->). cbn [mbind result_bind]. apply IH. lia.
Qed.

Lemma evalSpice_stages (lines : list string) (Rs Vs Is : list component)
    (nm : gmap string Z) (nc : Z) (M Mr solution : matrix) :
  parsing (Some lines) = Ok (Rs, Vs, Is, nm, nc) ->
  matrix_formation Rs Vs Is nm nc = Ok (M, Mr) ->
  np_linalg_solve M Mr = Ok solution ->
  evalSpice (Some lines)
  = (voltages ← for_each (voltage_step solution) ∅ (map_to_list nm);
     '(currents, _) ← for_each (current_step nc solution) (∅, 0) Vs;
     Ok (voltages, currents)).
Proof.
  intros H1 H2 H3. unfold evalSpice. rewrite H1. cbn [mbind result_bind].
  rewrite H2. cbn [mbind result_bind]. rewrite H3. reflexivity.
Qed.

(** What the three stages give the result loops: a one-column solution with
    a row for every node but ground and a row for every voltage source. *)
Lemma solved_system (lines : list string) (Rs Vs Is : list component)
    (nm : gmap string Z) (nc : Z) (M Mr solution : matrix) :
  parsing (Some lines) = Ok (Rs, Vs, Is, nm, nc) ->
  matrix_formation Rs Vs Is nm nc = Ok (M, Mr) ->
  np_linalg_solve M Mr = Ok solution ->
  has_shape (system_size nc (length Vs)) 1 solution /\
  1 <= nc /\ NoDup (name <$> Vs) /\
  forall node k, nm !! node = Some k -> node <> "GND" -> 1 <= k < nc.
Proof.
  intros Hparse Hbuild Hsolve.
  pose proof Hparse as (st & Hst & -> & -> & -> & -> & ->)%parsing_Ok_inv.
  destruct (parsed_range _ _ Hst) as [Hg Hr].
  destruct (matrix_formation_shape _ _ _ _ _ _ _ Hbuild) as [[HM _] _].
  split.
  { apply np_linalg_solve_shape in Hsolve. by rewrite HM in Hsolve. }
  split; [specialize (Hr _ _ Hg); lia|].
  split; [by eapply parsed_source_names_distinct|].
  intros node k Hk Hne. pose proof (Hr _ _ Hk) as Hk'.
  destruct (decide (k = 0)) as [->|]; [|lia].
  destruct Hne. by eapply (parsed_table_injective _ _ Hst).
Qed.

Lemma example_solved :
  exists M Mr solution,
    matrix_formation [Component "R1" "1" "0" "5"] [Component "V1" "1" "0" "10"]
      [] ({[ "GND" := 0; "1" := 1 ]}) 2 = Ok (M, Mr) /\
    np_linalg_solve M Mr = Ok solution.
Proof. eexists _, _, _. split; vm_compute; reflexivity. Qed.

(** X15. After a successful run the voltage of every node other than ground
    is the entry of the solution in the row before its index: a node with
    index [k] reads row [k - 1]. *)
Theorem node_voltage_from_solution (lines : list string)
    (Rs Vs Is : list component) (nm : gmap string Z) (nc : Z)
    (M Mr solution : matrix) (voltages currents : gmap string pynum)
    (node : string) (k : Z) :
  parsing (Some lines) = Ok (Rs, Vs, Is, nm, nc) ->
  matrix_formation Rs Vs Is nm nc = Ok (M, Mr) ->
  np_linalg_solve M Mr = Ok solution ->
  evalSpice (Some lines) = Ok (voltages, currents) ->
  nm !! node = Some k -> node <> "GND" ->
  1 <= k /\
  exists x, cell solution (Z.to_nat (k - 1)) 0 = Some x /\
            voltages !! node = Some (PyFloat x).
Proof.
  intros Hparse Hbuild Hsolve Hrun Hk Hne.
  destruct (solved_system _ _ _ _ _ _ _ _ _ Hparse Hbuild Hsolve)
    as (Hsol & Hnc & _ & Hnodes).
  split; [by apply (Hnodes node k)|].
  rewrite (evalSpice_stages _ _ _ _ _ _ _ _ _ Hparse Hbuild Hsolve) in Hrun.
  apply bind_Ok_inv in Hrun as (v & Hv & Hrun).
  apply bind_Ok_inv in Hrun as ([c idx] & _ & [= <- <-]).
  eapply (voltage_loop_values _ _ _ _ _ Hsol); [| |exact Hv| |done].
  - apply NoDup_fst_map_to_list.
  - intros node' k' Hin%elem_of_map_to_list Hne'.
    pose proof (Hnodes _ _ Hin Hne'). unfold system_size. lia.
  - by apply elem_of_map_to_list.
Qed.

Lemma node_voltage_from_solution_witness :
  exists x,
    ({[ "GND" := PyInt 0; "1" := PyFloat 10 ]} : gmap string pynum) !! "1"
    = Some (PyFloat x).
Proof.
  destruct example_solved as (M & Mr & solution & Hbuild & Hsolve).
  destruct (node_voltage_from_solution _ _ _ _ _ _ M Mr solution _ _ "1" 1
              example_parsed Hbuild Hsolve example_evaluates eq_refl
              ltac:(discriminate)) as (_ & x & _ & Hx).
  exists x. exact Hx.
Defined.


(** X16. After a successful run the currents dictionary has one entry for
    each voltage source and no other: the source numbered [i] reads the row
    [node_count - 1 + i] of the solution. *)
Theorem source_current_from_solution (lines : list string)
    (Rs Vs Is : list component) (nm : gmap string Z) (nc : Z)
    (M Mr solution : matrix) (voltages currents : gmap string pynum) :
  parsing (Some lines) = Ok (Rs, Vs, Is, nm, nc) ->
  matrix_formation Rs Vs Is nm nc = Ok (M, Mr) ->
  np_linalg_solve M Mr = Ok solution ->
  evalSpice (Some lines) = Ok (voltages, currents) ->
  dom currents = list_to_set (name <$> Vs) /\
  forall i V, Vs !! i = Some V ->
    exists x, cell solution (Z.to_nat (nc - 1) + i) 0 = Some x /\
              currents !! name V = Some (PyFloat x).
Proof.
  intros Hparse Hbuild Hsolve Hrun.
  destruct (solved_system _ _ _ _ _ _ _ _ _ Hparse Hbuild Hsolve)
    as (Hsol & Hnc & Hnd & _).
  rewrite (evalSpice_stages _ _ _ _ _ _ _ _ _ Hparse Hbuild Hsolve) in Hrun.
  apply bind_Ok_inv in Hrun as (v & _ & Hrun).
  apply bind_Ok_inv in Hrun as ([c idx] & Hc & [= <- <-]).
  assert (Hvalues : forall i V, Vs !! i = Some V ->
            exists x, cell solution (Z.to_nat (nc - 1) + i) 0 = Some x /\
                      c !! name V = Some (PyFloat x)).
  { intros i V Hi.
    assert (Hlo : 0 <= nc + 0 - 1) by lia.
    assert (Hhi : nc + 0 - 1 + Z.of_nat (length Vs)
                  <= Z.of_nat (system_size nc (length Vs)))
      by (unfold system_size; lia).
    destruct (current_loop_values _ nc solution Vs ∅ c 0 idx Hsol Hnd
                Hlo Hhi Hc i V Hi) as (x & Hcell & Hlook).
    exists x. split; [|done].
    by replace (nc - 1) with (nc + 0 - 1) by lia. }
  split; [|exact Hvalues].
  apply set_eq. intros w. split.
  - intros Hw. apply current_loop_dom in Hc. set_solver.
  - intros Hw%elem_of_list_to_set.
    apply list_elem_of_fmap in Hw as (V & -> & HV).
    apply list_elem_of_lookup in HV as [i Hi].
    destruct (Hvalues i V Hi) as (x & _ & Hlook).
    apply elem_of_dom. eauto.
Qed.

Lemma source_current_from_solution_witness :
  dom ({[ "V1" := PyFloat (-2) ]} : gmap string pynum)
  = list_to_set (name <$> [Component "V1" "1" "0" "10"]).
Proof.
  destruct example_solved as (M & Mr & solution & Hbuild & Hsolve).
  exact (proj1 (source_current_from_solution _ _ _ _ _ _ M Mr solution _ _
                  example_parsed Hbuild Hsolve example_evaluates)).
Defined.


(** X17. Once the netlist is parsed, the system built and the solver has
    returned, [evalSpice] returns: neither result loop reads outside the
    solution. *)
Theorem evalSpice_returns (lines : list string)
    (Rs Vs Is : list component) (nm : gmap string Z) (nc : Z)
    (M Mr solution : matrix) :
  parsing (Some lines) = Ok (Rs, Vs, Is, nm, nc) ->
  matrix_formation Rs Vs Is nm nc = Ok (M, Mr) ->
  np_linalg_solve M Mr = Ok solution ->
  exists voltages currents, evalSpice (Some lines) = Ok (voltages, currents).
Proof.
  intros Hparse Hbuild Hsolve.
  destruct (solved_system _ _ _ _ _ _ _ _ _ Hparse Hbuild Hsolve)
    as (Hsol & Hnc & _ & Hnodes).
  rewrite (evalSpice_stages _ _ _ _ _ _ _ _ _ Hparse Hbuild Hsolve).
  destruct (voltage_loop_Ok _ solution (map_to_list nm) ∅ Hsol) as (v & ->).
  { intros node k Hin%elem_of_map_to_list Hne. by apply (Hnodes node k). }
  cbn [mbind result_bind].
  assert (Hlo : 0 <= nc + 0 - 1) by lia.
  destruct (current_loop_Ok _ nc solution Vs ∅ 0 Hsol Hlo) as ([c idx] & ->).
  cbn [mbind result_bind]. eauto.
Qed.

Lemma evalSpice_returns_witness :
  exists voltages currents,
    evalSpice (Some (file_lines example_rows)) = Ok (voltages, currents).
Proof.
  destruct example_solved as (M & Mr & solution & Hbuild & Hsolve).
  exact (evalSpice_returns _ _ _ _ _ _ M Mr solution example_parsed
           Hbuild Hsolve).
Defined.

(** ** The exceptions that leave [evalSpice] *)

Lemma raises_only_Ok {A} (P : exception -> Prop) (a : A) :
  raises_only P (Ok a).
Proof. intros e. discriminate. Qed.

Lemma raises_only_Raise {A} (P : exception -> Prop) (e : exception) :
  P e -> raises_only (A := A) P (Raise e).
Proof. intros He e' [= <-]. exact He. Qed.

Lemma raises_only_bind {A B} (P : exception -> Prop) (m : result A)
    (f : A -> result B) :
  raises_only P m -> (forall a, m = Ok a -> raises_only P (f a)) ->
  raises_only P (m ≫= f).
Proof.
  intros Hm Hf e. destruct m as [a|e']; simpl.
  - by apply Hf.
  - intros [= ->]. by apply Hm.
Qed.

Lemma raises_only_for_each {A S} (P : exception -> Prop)
    (body : S -> A -> result S) (s : S) (items : list A) :
  (forall s x, x ∈ items -> raises_only P (body s x)) ->
  raises_only P (for_each body s items).
Proof.
  revert s. induction items as [|x items IH]; intros s Hbody; simpl.
  - apply raises_only_Ok.
  - apply raises_only_bind; [apply Hbody; left|].
    intros s' _. apply IH. intros s0 y Hy. apply Hbody. by right.
Qed.

Lemma raises_only_getitem {A} (P : exception -> Prop) (l : list A) (i : Z) :
  P IndexError -> raises_only P (getitem l i).
Proof.
  intros HP e. unfold getitem. destruct (norm_index _ _); [|by intros [= <-]].
  destruct (_ !! _); [discriminate|by intros [= <-]].
Qed.

Lemma raises_only_get2 (P : exception -> Prop) (M : matrix) (i j : Z) :
  P IndexError -> raises_only P (get2 M i j).
Proof.
  intros HP. unfold get2. apply raises_only_bind; [|intros row _];
    by apply raises_only_getitem.
Qed.

Lemma raises_only_set2 (P : exception -> Prop) (M : matrix) (i j : Z)
    (x : float) :
  P IndexError -> raises_only P (set2 M i j x).
Proof.
  intros HP e. unfold set2.
  destruct (norm_index _ _); [|by intros [= <-]].
  destruct (_ !! _); [|by intros [= <-]].
  destruct (norm_index _ _); [discriminate|by intros [= <-]].
Qed.

Lemma raises_only_iadd2 (P : exception -> Prop) (M : matrix) (i j : Z)
    (y : float) :
  P IndexError -> raises_only P (iadd2 M i j y).
Proof.
  intros HP. unfold iadd2. apply raises_only_bind;
    [by apply raises_only_get2|intros e _; by apply raises_only_set2].
Qed.

Lemma raises_only_isub2 (P : exception -> Prop) (M : matrix) (i j : Z)
    (y : float) :
  P IndexError -> raises_only P (isub2 M i j y).
Proof.
  intros HP. unfold isub2. apply raises_only_bind;
    [by apply raises_only_get2|intros e _; by apply raises_only_set2].
Qed.

Lemma raises_only_try_except {A} (P : exception -> Prop) (body : result A)
    (e : exception) :
  P e -> raises_only P (try_except body (fun _ => Raise e)).
Proof. intros HP e'. destruct body; simpl; [discriminate|by intros [= <-]]. Qed.

(** The goal [e ∈ l] for a literal [e] of the literal list [l]. *)
Ltac in_list :=
  unfold evalSpice_errors;
  repeat first [apply list_elem_of_here | apply list_elem_of_further].

(** Goals [raises_only P r], by the structure of [r]. *)
Ltac raises_only_tac :=
  repeat first
    [ apply raises_only_Ok
    | apply raises_only_Raise; in_list
    | apply raises_only_getitem; in_list
    | apply raises_only_iadd2; in_list
    | apply raises_only_isub2; in_list
    | apply raises_only_set2; in_list
    | apply raises_only_get2; in_list
    | apply raises_only_try_except; in_list
    | apply raises_only_bind; [|intros ? _]
    | match goal with
      | |- raises_only _ (if ?c then _ else _) => destruct c
      | |- raises_only _ (match ?x with _ => _ end) => destruct x
      end ].

Lemma parse_line_raises (st : parse_state) (line : string) :
  raises_only (.∈ evalSpice_errors) (parse_line st line).
Proof.
  unfold parse_line. repeat case_decide; try apply raises_only_Ok.
  destruct (negb (Junk st)); [|apply raises_only_Ok].
  destruct (0 <? _)%nat; [|apply raises_only_Ok].
  unfold parse_element.
  apply raises_only_bind; [apply raises_only_getitem; in_list|intros w0 _].
  apply raises_only_bind;
    [destruct w0; [apply raises_only_Raise; in_list|apply raises_only_Ok]
    |intros c0 _].
  apply raises_only_bind; [apply raises_only_getitem; in_list|intros w1 _].
  apply raises_only_bind; [apply raises_only_getitem; in_list|intros w2 _].
  destruct (mapping_nodes w1 _ _) as [[i1 nm1] nc1].
  destruct (mapping_nodes w2 nm1 nc1) as [[i2 nm2] nc2].
  raises_only_tac.
Qed.

Lemma parsing_raises (file : option (list string)) :
  raises_only (.∈ evalSpice_errors) (parsing file).
Proof.
  unfold parsing. destruct file as [lines|]; [|apply raises_only_Raise; in_list].
  repeat case_decide; try (apply raises_only_Raise; in_list).
  apply raises_only_bind; [|intros st _; apply raises_only_Ok].
  apply raises_only_for_each. intros st x _. apply parse_line_raises.
Qed.

Lemma stamp_resistor_raises (nc : Z) (M : matrix) (R : component) :
  component_indexed nc R ->
  raises_only (.∈ evalSpice_errors) (stamp_resistor M R).
Proof.
  intros (a & b & Ha & Hb & _). unfold stamp_resistor, int_of.
  rewrite Ha, Hb, zero_test_is_false. cbn [mbind result_bind].
  raises_only_tac.
Qed.

Lemma stamp_current_raises (nc : Z) (Mr : matrix) (C : component) :
  component_indexed nc C ->
  raises_only (.∈ evalSpice_errors) (stamp_current Mr C).
Proof.
  intros (a & b & Ha & Hb & _). unfold stamp_current, int_of.
  rewrite Ha, Hb. cbn [mbind result_bind].
  raises_only_tac.
Qed.

Lemma stamp_voltage_raises (nc tn : Z) (sys : matrix * matrix)
    (item : Z * component) :
  component_indexed nc item.2 ->
  raises_only (.∈ evalSpice_errors) (stamp_voltage tn sys item).
Proof.
  destruct sys as [M Mr], item as [i V]. simpl.
  intros (a & b & Ha & Hb & _). unfold int_of.
  rewrite Ha, Hb. cbn [mbind result_bind].
  raises_only_tac.
Qed.

Lemma matrix_formation_raises (lines : list string) (st : parse_state) :
  for_each parse_line initial_state lines = Ok st ->
  raises_only (.∈ evalSpice_errors)
    (matrix_formation (Resistors st) (Voltage_sources st) (Current_sources st)
       (node_mapping st) (node_counter st)).
Proof.
  intros Hst.
  pose proof (parsed_components_indexed _ _ Hst) as Hcomp.
  unfold all_components in Hcomp.
  apply Forall_app in Hcomp as [HRs Hcomp].
  apply Forall_app in Hcomp as [HVs HIs].
  rewrite Forall_forall in HRs, HVs, HIs.
  destruct (parsed_range _ _ Hst) as [Hg Hr]. specialize (Hr _ _ Hg).
  unfold matrix_formation.
  destruct (np_zeros_Ok (node_counter st - 1
                         + Z.of_nat (length (Voltage_sources st)))
              (node_counter st - 1 + Z.of_nat (length (Voltage_sources st))))
    as (M0 & -> & _); [lia|lia|].
  destruct (np_zeros_Ok (node_counter st - 1
                         + Z.of_nat (length (Voltage_sources st))) 1)
    as (Mr0 & -> & _); [lia|lia|].
  cbn [mbind result_bind].
  apply raises_only_bind.
  { apply raises_only_for_each. intros s x Hx.
    eapply stamp_resistor_raises. eauto. }
  intros M1 _. apply raises_only_bind.
  { apply raises_only_for_each. intros s x Hx.
    eapply stamp_current_raises. eauto. }
  intros Mr1 _. apply raises_only_for_each. intros s [i V] Hx.
  eapply stamp_voltage_raises. simpl. apply HVs.
  apply list_elem_of_lookup in Hx as [k Hk].
  unfold enumerate in Hk. rewrite list_lookup_imap in Hk.
  destruct (Voltage_sources st !! k) as [V'|] eqn:HV'; [|discriminate].
  injection Hk as _ <-. eapply list_elem_of_lookup_2. exact HV'.
Qed.

(** X18. Whatever the file, an exception that leaves [evalSpice] is one of
    twelve: the missing-file error, the parser's eight ValueErrors, the
    no-solution ValueError, the malformed-value TypeError, or IndexError.
    ZeroDivisionError, LinAlgError and the ValueError of [int] and [float]
    never reach the caller. *)
Theorem evalSpice_raises_only (file : option (list string)) (e : exception) :
  evalSpice file = Raise e -> e ∈ evalSpice_errors.
Proof.
  revert e. change (raises_only (.∈ evalSpice_errors) (evalSpice file)).
  unfold evalSpice.
  apply raises_only_bind; [apply parsing_raises|].
  intros [[[[Rs Vs] Is] nm] nc] Hparse.
  destruct file as [lines|]; [|discriminate].
  apply parsing_Ok_inv in Hparse as (st & Hst & -> & -> & -> & -> & ->).
  apply raises_only_bind; [by eapply matrix_formation_raises|].
  intros [M Mr] _.
  apply raises_only_bind.
  { unfold np_linalg_solve. destruct (lu_reduce _ _); simpl;
      [apply raises_only_Ok|apply raises_only_Raise; in_list]. }
  intros solution _. apply raises_only_bind.
  { apply raises_only_for_each. intros v [node i] _. unfold voltage_step.
    raises_only_tac. }
  intros voltages _. apply raises_only_bind.
  { apply raises_only_for_each. intros [c idx] V _. unfold current_step.
    raises_only_tac. }
  intros [c idx] _. apply raises_only_Ok.
Qed.

Lemma evalSpice_raises_only_witness :
  FileNotFoundError "Please give the name of a valid SPICE file as input"
  ∈ evalSpice_errors.
Proof. exact (evalSpice_raises_only None _ eq_refl). Defined.
